(** * The popup module of the build dashboard (popup.js)

    A shallow embedding of [popup.js]: the page is a tree of element
    nodes with identities, a jQuery object is the list of identities it
    wraps, and the module's functions are state transformers over a
    [world] (document, registered handlers, pending asynchronous work,
    and the trace of calls that leave the module). *)

From Stdlib Require Import List String Ascii Bool Arith PeanoNat ZArith Lia.
Import ListNotations.
Open Scope string_scope.
Open Scope list_scope.

Set Implicit Arguments.

(** String concatenation, the [+] of JavaScript on strings. *)
Infix "+++" := String.append (right associativity, at level 60).

(** ** JavaScript values and strings *)

(** Values that travel through the module: template contexts, query
    parameters and JSON payloads. *)
#[local] Unset Elimination Schemes.
Inductive jsval :=
| JUndefined
| JNull
| JBool (b : bool)
| JNum (z : Z)
| JStr (s : string)
| JArr (l : list jsval)
| JObj (fields : list (string * jsval)).
#[local] Set Elimination Schemes.

(** Property lookup [o.k]: the last binding of a literal wins, anything
    that is not an object has no own properties. *)
Fixpoint lookup_field (k : string) (fs : list (string * jsval)) : option jsval :=
  match fs with
  | [] => None
  | (k', v) :: r =>
      match lookup_field k r with
      | Some v' => Some v'
      | None => if String.eqb k k' then Some v else None
      end
  end.

Definition js_get (k : string) (v : jsval) : option jsval :=
  match v with
  | JObj fs => lookup_field k fs
  | _ => None
  end.

(** Two contexts are the same object value when every key reads the same. *)
Definition same_object (a b : jsval) : Prop :=
  forall k, js_get k a = js_get k b.

(** The result of [.attr(name)] is a string or [undefined]. *)
Definition js_of_attr (o : option string) : jsval :=
  match o with
  | Some s => JStr s
  | None => JUndefined
  end.

(** [x === s] where [x] came from [.attr(name)]. *)
Definition js_is (o : option string) (s : string) : bool :=
  match o with
  | Some v => String.eqb v s
  | None => false
  end.

(** ['...' + x] where [x] came from [.attr(name)]. *)
Definition js_concat_attr (o : option string) : string :=
  match o with
  | Some s => s
  | None => "undefined"
  end.

(** [s.indexOf(sub)]: the position of the first occurrence, or [-1]. *)
Definition indexOf (s sub : string) : Z :=
  match String.index 0 sub s with
  | Some n => Z.of_nat n
  | None => (-1)%Z
  end.

(** [s] contains the substring [sub]. *)
Definition contains (s sub : string) : Prop :=
  exists m, substring m (String.length sub) s = sub.

(** jQuery's [.val()] on an input returns the [value] property with the
    carriage returns dropped. *)
Definition is_cr (c : ascii) : bool := Ascii.eqb c (ascii_of_nat 13).

Fixpoint strip_cr (s : string) : string :=
  match s with
  | EmptyString => EmptyString
  | String c r => if is_cr c then strip_cr r else String c (strip_cr r)
  end.

(** ** The document *)

(** One element.  [nid] is the identity of the node (what a jQuery
    object holds on to); the other fields are what the module reads or
    writes: the tag name, the attributes read through [.attr()] and
    attribute selectors (including [id]), the class list, the [type],
    [name] and [value] properties, and whether the element's own
    [display] is something else than [none]. *)
Record elem := mkElem {
  nid : nat;
  tag : string;
  attrs : list (string * string);
  classes : list string;
  itype : string;
  name : string;
  value : string;
  displayed : bool
}.

#[local] Unset Elimination Schemes.
Inductive node := Node (e : elem) (kids : list node).
#[local] Set Elimination Schemes.

Definition root (t : node) : elem := match t with Node e _ => e end.
Definition kids (t : node) : list node := match t with Node _ ks => ks end.

Section node_induction.
Variable P : node -> Prop.
Hypothesis Hnode : forall e ks, Forall P ks -> P (Node e ks).

Fixpoint node_ind (t : node) : P t :=
  match t with
  | Node e ks =>
      Hnode e ((fix all (l : list node) : Forall P l :=
                  match l with
                  | [] => Forall_nil P
                  | k :: r => Forall_cons k (node_ind k) (all r)
                  end) ks)
  end.
End node_induction.

Definition mem (x : nat) (l : list nat) : bool := existsb (Nat.eqb x) l.

Definition set_nid (n : nat) (e : elem) : elem :=
  mkElem n (tag e) (attrs e) (classes e) (itype e) (name e) (value e) (displayed e).
Definition set_classes (cs : list string) (e : elem) : elem :=
  mkElem (nid e) (tag e) (attrs e) cs (itype e) (name e) (value e) (displayed e).
Definition set_displayed (b : bool) (e : elem) : elem :=
  mkElem (nid e) (tag e) (attrs e) (classes e) (itype e) (name e) (value e) b.
Definition set_attrs (a : list (string * string)) (e : elem) : elem :=
  mkElem (nid e) (tag e) a (classes e) (itype e) (name e) (value e) (displayed e).

(** *** Reading and writing one element *)

Fixpoint assoc (k : string) (l : list (string * string)) : option string :=
  match l with
  | [] => None
  | (k', v) :: r => if String.eqb k k' then Some v else assoc k r
  end.

Fixpoint assoc_set (k v : string) (l : list (string * string)) : list (string * string) :=
  match l with
  | [] => [(k, v)]
  | (k', v') :: r => if String.eqb k k' then (k, v) :: r else (k', v') :: assoc_set k v r
  end.

(** [.attr(k)] on one element; the names are the ones of the source. *)
Definition attr (k : string) (e : elem) : option string := assoc k (attrs e).
Definition set_attr (k v : string) (e : elem) : elem := set_attrs (assoc_set k v (attrs e)) e.

Definition hasClass (c : string) (e : elem) : bool := existsb (String.eqb c) (classes e).

(** [.addClass(c)] appends the class unless it is there; [.removeClass(c)]
    drops every occurrence. *)
Definition addClass (c : string) (e : elem) : elem :=
  if hasClass c e then e else set_classes (classes e ++ [c]) e.
Definition removeClass (c : string) (e : elem) : elem :=
  set_classes (filter (fun c' => negb (String.eqb c c')) (classes e)) e.

(** [.show()] and [.hide()] write the element's own [display]. *)
Definition show (e : elem) : elem := set_displayed true e.
Definition hide (e : elem) : elem := set_displayed false e.

(** [.val()] of an input. *)
Definition val (e : elem) : string := strip_cr (value e).

(** *** Selectors

    A selector is a test on an element; the first argument says whether
    the element or one of its ancestors has [display: none], which is
    what [:hidden] needs besides the element itself. *)
Definition selector := bool -> elem -> bool.

Definition is_tag (t : string) (e : elem) : bool := String.eqb (tag e) t.
Definition has_id (i : string) (e : elem) : bool :=
  match attr "id" e with
  | Some v => String.eqb v i
  | None => false
  end.

Definition by_tag (t : string) : selector := fun _ e => is_tag t e.
Definition by_class (c : string) : selector := fun _ e => hasClass c e.
Definition by_id (i : string) : selector := fun _ e => has_id i e.

(** The jQuery pseudo-classes used by the form validation. *)
Definition ps_button : selector :=
  fun _ e => is_tag "button" e || (is_tag "input" e && String.eqb (itype e) "button").
Definition ps_checkbox : selector :=
  fun _ e => is_tag "input" e && String.eqb (itype e) "checkbox".
Definition ps_submit : selector :=
  fun _ e => (is_tag "input" e || is_tag "button" e) && String.eqb (itype e) "submit".
Definition ps_hidden : selector :=
  fun no_box e => no_box || (is_tag "input" e && String.eqb (itype e) "hidden").

Definition sel_or (p q : selector) : selector := fun h e => p h e || q h e.
Definition sel_and (p q : selector) : selector := fun h e => p h e && q h e.
Definition sel_not (p : selector) : selector := fun h e => negb (p h e).

(** *** Traversals *)

(** [find ctx p inside hid t]: the elements of [t], in document order,
    that satisfy [p] and lie strictly below an element of [ctx]
    ([inside] tells that an ancestor of [t] is in [ctx], [hid] that an
    ancestor of [t] is not displayed). *)
Fixpoint find (ctx : list nat) (p : selector) (inside hid : bool) (t : node) : list elem :=
  match t with
  | Node e ks =>
      let h := hid || negb (displayed e) in
      (if inside && p h e then [e] else []) ++
      flat_map (find ctx p (inside || mem (nid e) ctx) h) ks
  end.

(** [$(sel, context)], i.e. [context.find(sel)]. *)
Definition jq_find (ctx : list nat) (p : selector) (d : node) : list elem :=
  find ctx p false false d.

(** [$(sel)] over the whole document. *)
Definition jq_all (p : selector) (d : node) : list elem :=
  find [] p true false d.

(** [$('#id')] takes the first element carrying the id. *)
Definition jq_id (i : string) (d : node) : list elem :=
  firstn 1 (jq_all (by_id i) d).

Definition ids_of (l : list elem) : list nat := map nid l.

(** All elements of a tree, in document order. *)
Fixpoint elems (t : node) : list elem :=
  match t with
  | Node e ks => e :: flat_map elems ks
  end.

Definition node_ids (t : node) : list nat := map nid (elems t).
Definition forest_elems (f : list node) : list elem := flat_map elems f.
Definition forest_ids (f : list node) : list nat := map nid (forest_elems f).

(** The element with a given identity. *)
Definition lookup (i : nat) (t : node) : option elem :=
  List.find (fun e => Nat.eqb (nid e) i) (elems t).

(** Apply [f] to the elements whose identity is in [ids]. *)
Fixpoint update (ids : list nat) (f : elem -> elem) (t : node) : node :=
  match t with
  | Node e ks => Node (if mem (nid e) ids then f e else e) (map (update ids f) ks)
  end.

(** Insert [new] as the first / last children of the element [i]. *)
Fixpoint prepend_to (i : nat) (new : list node) (t : node) : node :=
  match t with
  | Node e ks =>
      Node e ((if Nat.eqb (nid e) i then new else []) ++ map (prepend_to i new) ks)
  end.

Fixpoint append_to (i : nat) (new : list node) (t : node) : node :=
  match t with
  | Node e ks =>
      Node e (map (append_to i new) ks ++ (if Nat.eqb (nid e) i then new else []))
  end.

(** [.remove()]: detach the nodes whose identity is in [ids]. *)
Fixpoint remove (ids : list nat) (t : node) : node :=
  match t with
  | Node e ks =>
      Node e (flat_map (fun k => if mem (nid (root k)) ids then [] else [remove ids k]) ks)
  end.

(** [.next()]: the elements that directly follow an element of [ids]
    among their siblings. *)
Fixpoint next (ids : list nat) (t : node) : list node :=
  match t with
  | Node e ks =>
      (fix siblings (follows : bool) (l : list node) : list node :=
         match l with
         | [] => []
         | k :: r =>
             (if follows then [k] else []) ++ next ids k ++
             siblings (mem (nid (root k)) ids) r
         end) false ks
  end.

(** The loop of [next] over a list of siblings; [follows] tells that
    the previous sibling is in [ids]. *)
Fixpoint next_siblings (ids : list nat) (follows : bool) (l : list node) : list node :=
  match l with
  | [] => []
  | k :: r =>
      (if follows then [k] else []) ++ next ids k ++
      next_siblings ids (mem (nid (root k)) ids) r
  end.

(** The chain from a target element up to the root of the document. *)
Fixpoint path_to (i : nat) (t : node) : list nat :=
  match t with
  | Node e ks =>
      if Nat.eqb (nid e) i then [i]
      else match flat_map (path_to i) ks with
           | [] => []
           | p => p ++ [nid e]
           end
  end.

(** The number of elements of a tree. *)
Fixpoint size (t : node) : nat :=
  match t with
  | Node _ ks => S (list_sum (map size ks))
  end.

Definition forest_size (f : list node) : nat := list_sum (map size f).

(** Fresh identities: [renum n t] numbers the elements of [t] from [n]
    on, in document order.  This is also [.clone()]: a deep copy that
    differs from its source by the identities only. *)
Fixpoint renum (n : nat) (t : node) : node :=
  match t with
  | Node e ks =>
      Node (set_nid n e)
           ((fix go (m : nat) (l : list node) : list node :=
               match l with
               | [] => []
               | k :: r => renum m k :: go (m + size k) r
               end) (S n) ks)
  end.

Fixpoint renum_forest (n : nat) (f : list node) : list node :=
  match f with
  | [] => []
  | k :: r => renum n k :: renum_forest (n + size k) r
  end.

(** [$(x).attr(name)]: the attribute of the first element of the set. *)
Definition jq_attr (ids : list nat) (k : string) (d : node) : option string :=
  match ids with
  | [] => None
  | i :: _ =>
      match lookup i d with
      | Some e => attr k e
      | None => None
      end
  end.

Definition roots (f : list node) : list nat := map (fun k => nid (root k)) f.

(** [$(x).find(sel)] on a parsed, not yet attached forest [f]: the
    matching subtrees strictly below the top-level nodes. *)
Fixpoint find_nodes (p : elem -> bool) (top : bool) (t : node) : list node :=
  match t with
  | Node e ks =>
      (if negb top && p e then [t] else []) ++ flat_map (find_nodes p false) ks
  end.

(** [x.children(sel)]: the children of the nodes of [x] that match. *)
Definition children (p : elem -> bool) (x : list node) : list elem :=
  flat_map (fun t => filter p (map root (kids t))) x.

(** The number of elements of a list that satisfy a test. *)
Definition cnt {A} (q : A -> bool) (l : list A) : nat := List.length (filter q l).
Arguments cnt : simpl never.

Definition has_nid (i : nat) (e : elem) : bool := Nat.eqb (nid e) i.

(** A node with its own display switched on. *)
Definition shown (t : node) : node :=
  match t with
  | Node e ks => Node (show e) ks
  end.

(** [.parent()]: the elements that have a child in [ids], in document
    order. *)
Fixpoint parent (ids : list nat) (t : node) : list nat :=
  match t with
  | Node e ks =>
      (if existsb (fun k => mem (nid (root k)) ids) ks then [nid e] else []) ++
      flat_map (parent ids) ks
  end.

(** The place of the node [i] in a list of siblings. *)
Fixpoint position (i : nat) (l : list node) : option nat :=
  match l with
  | [] => None
  | k :: r => if Nat.eqb (nid (root k)) i then Some 0 else option_map S (position i r)
  end.

(** [.index()] with no argument: the number of siblings before the
    node [i], and [-1] for a node without a parent in the tree.  The
    tree is rooted at the body, whose own place below the [html]
    element is not part of it; the elements the module asks for their
    index are list items and blocks, which lie below the body. *)
Fixpoint jq_index (i : nat) (t : node) : Z :=
  match t with
  | Node e ks =>
      match position i ks with
      | Some n => Z.of_nat n
      | None =>
          fold_right (fun k z => if Z.eqb (jq_index i k) (-1) then z else jq_index i k)
                     (-1)%Z ks
      end
  end.

(** [$('P > C')]: the elements that satisfy [pc] and whose parent
    satisfies [pp], in document order. *)
Fixpoint jq_child (pp pc : elem -> bool) (t : node) : list elem :=
  match t with
  | Node e ks =>
      flat_map (fun k => (if pp e && pc (root k) then [root k] else []) ++
                         jq_child pp pc k) ks
  end.

(** Apply [F] to every element of a tree. *)
Fixpoint tmap (F : elem -> elem) (t : node) : node :=
  match t with
  | Node e ks => Node (F e) (map (tmap F) ks)
  end.

(** ** URLs

    [document.URL] is the serialisation of the page's address; assigning
    it to the [href] of an anchor makes the browser decompose it again.
    The decomposition below is the one of a serialised absolute URL:
    scheme up to the first colon, an authority after [//] up to the
    first [/], [?] or [#] (the host is what follows its last [@]), the
    path up to the first [?] or [#], the query up to the first [#]. *)
Record location := mkLocation {
  protocol : string;
  host : string;
  pathname : string;
  search : string;
  hash : string
}.

Definition is_char (c : string) (a : ascii) : bool :=
  match c with
  | String b EmptyString => Ascii.eqb a b
  | _ => false
  end.

(** [break p s = (before, rest)]: [rest] starts at the first character
    of [s] that satisfies [p]. *)
Fixpoint break (p : ascii -> bool) (s : string) : string * string :=
  match s with
  | EmptyString => (EmptyString, EmptyString)
  | String a r =>
      if p a then (EmptyString, s)
      else let (x, y) := break p r in (String a x, y)
  end.

Definition drop1 (s : string) : string :=
  match s with
  | EmptyString => EmptyString
  | String _ r => r
  end.

(** What follows the last occurrence of [c], if [c] occurs. *)
Fixpoint after_last (c : string) (s : string) : option string :=
  match s with
  | EmptyString => None
  | String a r =>
      match after_last c r with
      | Some t => Some t
      | None => if is_char c a then Some r else None
      end
  end.

Definition lone (c : string) (s : string) : string :=
  if String.eqb s c then EmptyString else s.

Definition parse_url (s : string) : location :=
  let (scheme, r0) := break (is_char ":") s in
  let r1 := drop1 r0 in
  let (authority, r2) :=
    if String.prefix "//" r1
    then break (fun a => is_char "/" a || is_char "?" a || is_char "#" a)
               (drop1 (drop1 r1))
    else (EmptyString, r1) in
  let (path, r3) := break (fun a => is_char "?" a || is_char "#" a) r2 in
  let (query, fragment) := break (is_char "#") r3 in
  {| protocol := scheme +++ ":";
     host := match after_last "@" authority with
             | Some h => h
             | None => authority
             end;
     pathname := path;
     search := lone "?" query;
     hash := lone "#" fragment |}.

(** The components of an address and its serialisation. *)
Record address := mkAddress {
  a_scheme : string;
  a_slashes : bool;
  a_userinfo : string;
  a_host : string;
  a_path : string;
  a_query : string;
  a_fragment : string
}.

Definition serialize (u : address) : string :=
  a_scheme u +++ ":" +++
  (if a_slashes u
   then "//" +++ (if String.eqb (a_userinfo u) EmptyString then EmptyString else a_userinfo u +++ "@")
        +++ a_host u
   else EmptyString) +++
  a_path u +++ a_query u +++ a_fragment u.

Fixpoint no_char (p : ascii -> bool) (s : string) : bool :=
  match s with
  | EmptyString => true
  | String a r => negb (p a) && no_char p r
  end.

(** [s] is empty or starts with a character that satisfies [p]. *)
Definition stops_at (p : ascii -> bool) (s : string) : bool :=
  match s with
  | EmptyString => true
  | String a _ => p a
  end.

Definition starts_with (c : string) (s : string) : bool :=
  match s with
  | EmptyString => false
  | String a _ => is_char c a
  end.

(** Well-formed components: the delimiters occur only where the
    serialisation puts them. *)
Definition wf_address (u : address) : bool :=
  no_char (is_char ":") (a_scheme u) &&
  no_char (fun a => is_char "/" a || is_char "?" a || is_char "#" a) (a_userinfo u) &&
  no_char (fun a => is_char "/" a || is_char "?" a || is_char "#" a || is_char "@" a)
          (a_host u) &&
  no_char (fun a => is_char "?" a || is_char "#" a) (a_path u) &&
  (if a_slashes u
   then String.eqb (a_path u) EmptyString || starts_with "/" (a_path u)
   else String.eqb (a_userinfo u) EmptyString && String.eqb (a_host u) EmptyString &&
        negb (String.prefix "//" (a_path u))) &&
  (String.eqb (a_query u) EmptyString || starts_with "?" (a_query u)) &&
  no_char (is_char "#") (a_query u) &&
  (String.eqb (a_fragment u) EmptyString || starts_with "#" (a_fragment u)).

(** ** The world of the module *)

(** Calls that leave the module, in the order they are made.  The
    helpers ([jCenter], [closePopup], [setFullName]) and the [selectors]
    module belong to other files; the module only hands them jQuery
    objects.  [popup.validateForm] is a public method and its calls are
    recorded as well. *)
Inductive effect :=
| EConsoleLog (s : string)
| ERequest (url : jsval) (data : jsval) (dataType : option string) (cache : bool)
| ERequire (module : string)
| EJCenter (x : list nat)
| EFadeIn (x : list nat)
| EClosePopup (x : list nat)
| ESetFullName (x : list nat)
| EFocus (x : list nat)
| EComboBox (sel : string)
| ESelectorsInit
| EValidateForm (formContainer : list nat).

Definition is_network (e : effect) : bool :=
  match e with
  | ERequest _ _ _ _ | ERequire _ => true
  | _ => false
  end.

(** Click handlers the module binds, by the place that binds them. *)
Inductive handler :=
| HStatic                          (* init: popup.nonAjaxPopup($(this)) *)
| HPending                         (* init: popup.pendingJobs(url) *)
| HGetBtn                          (* init: popup.codebasesBranches() *)
| HAjaxBtn                         (* init: popup.externalContentPopup($(this)) *)
| HValidate (formEl : list nat)    (* validateForm: the revision check *)
| HHideBoxes.                      (* codebasesBranches: hide the info boxes *)

(** Handlers of [$(window).resize]. *)
Inductive resize_handler :=
| RCenter (x : list nat)           (* helpers.jCenter(x) *)
| RCenterBoxes.                    (* helpers.jCenter($('.more-info-box-js')) *)

(** What runs when an asynchronous operation completes.  A request only
    carries a success callback. *)
Inductive cont :=
| KPendingJobs (preloader : list nat) (actionUrl : string)
| KCodebases (preloader mib : list nat)
| KExternal (preloader mib : list nat) (contentType : option string)
| KClosePopup (x : list nat)       (* fadeIn callback of nonAjaxPopup *)
| KFocus                           (* fadeIn callback of codebasesBranches *)
| KSelectors                       (* callback of require(['selectors']) *)
| KOver.                           (* the operation is over *)

Record world := mkWorld {
  doc : node;                                   (* the body element *)
  next_id : nat;                                (* identities not yet used *)
  URL : string;                                 (* document.URL *)
  click_h : list (nat * handler);               (* bound with .click() *)
  deleg_h : list (nat * string * handler);      (* bound with .delegate(): root, class *)
  resize_h : list resize_handler;
  tasks : list cont;                            (* asynchronous operations *)
  trace : list effect
}.

Definition with_doc (d : node) (w : world) : world :=
  mkWorld d (next_id w) (URL w) (click_h w) (deleg_h w) (resize_h w) (tasks w) (trace w).
Definition with_next_id (n : nat) (w : world) : world :=
  mkWorld (doc w) n (URL w) (click_h w) (deleg_h w) (resize_h w) (tasks w) (trace w).
Definition with_click_h (h : list (nat * handler)) (w : world) : world :=
  mkWorld (doc w) (next_id w) (URL w) h (deleg_h w) (resize_h w) (tasks w) (trace w).
Definition with_deleg_h (h : list (nat * string * handler)) (w : world) : world :=
  mkWorld (doc w) (next_id w) (URL w) (click_h w) h (resize_h w) (tasks w) (trace w).
Definition with_resize_h (h : list resize_handler) (w : world) : world :=
  mkWorld (doc w) (next_id w) (URL w) (click_h w) (deleg_h w) h (tasks w) (trace w).
Definition with_tasks (t : list cont) (w : world) : world :=
  mkWorld (doc w) (next_id w) (URL w) (click_h w) (deleg_h w) (resize_h w) t (trace w).
Definition with_trace (t : list effect) (w : world) : world :=
  mkWorld (doc w) (next_id w) (URL w) (click_h w) (deleg_h w) (resize_h w) (tasks w) t.

(** *** jQuery operations on the world *)

Definition emit (e : effect) (w : world) : world := with_trace (trace w ++ [e]) w.
Definition on_doc (f : node -> node) (w : world) : world := with_doc (f (doc w)) w.

(** [$(markup)]: the parsed nodes get identities of their own. *)
Definition create (markup : list node) (w : world) : list node * world :=
  (renum_forest (next_id w) markup, with_next_id (next_id w + forest_size markup) w).

(** [$('body').append(x)] and [x.appendTo('body')]: the document is
    rooted at the body element. *)
Definition append_body (new : list node) (d : node) : node :=
  match d with
  | Node e ks => Node e (ks ++ new)
  end.

Definition show_body (d : node) : node :=
  match d with
  | Node e ks => Node (show e) ks
  end.

(** [x.appendTo(target)] for a target of at most one element (the
    result of an id lookup). *)
Definition append_into (target : list nat) (new : list node) (d : node) : node :=
  match target with
  | [] => d
  | i :: _ => append_to i new d
  end.

(** [$(targets).prepend(x)]: every target but the last receives a copy
    of [x] (numbered from [n] on), the last one receives [x] itself. *)
Fixpoint copies (targets : list nat) (x : list node) (n : nat)
    : list (nat * list node) * nat :=
  match targets with
  | [] => ([], n)
  | i :: r =>
      match r with
      | [] => ([(i, x)], n)
      | _ :: _ =>
          let (l, n') := copies r x (n + forest_size x) in
          ((i, renum_forest n x) :: l, n')
      end
  end.

Definition insert_all (l : list (nat * list node)) (t : node) : node :=
  fold_left (fun t p => prepend_to (fst p) (snd p) t) l t.

Definition prepend_all (targets : list nat) (x : list node) (w : world) : world :=
  let (l, n) := copies targets x (next_id w) in
  with_next_id n (on_doc (insert_all l) w).

(** Modelled from the spec: [helpers.jCenter], of the helpers file, is
    the overlay positioner, which centers the node it is given; the
    call sites chain on its result, so it returns the jQuery object it
    received.  The module only sees that it is called. *)
Definition jCenter (x : list nat) (w : world) : list nat * world :=
  (x, emit (EJCenter x) w).

(** Modelled from the spec: [helpers.closePopup], of the helpers file,
    wires the dismissal of the node it is given. *)
Definition closePopup (x : list nat) (w : world) : world := emit (EClosePopup x) w.

(** Modelled from the spec: [helpers.setFullName], of the helpers file,
    fills the nodes it is given with the stored display name. *)
Definition setFullName (x : list nat) (w : world) : world := emit (ESetFullName x) w.

(** The nodes a pending request removes when it succeeds. *)
Definition preloader_of (k : cont) : list nat :=
  match k with
  | KPendingJobs p _ | KCodebases p _ | KExternal p _ _ => p
  | _ => []
  end.

(** The nodes [x] are children of the body. *)
Definition attached (x : list nat) (d : node) : Prop :=
  forall p, In p x -> In p (roots (kids d)).

(** [w'] comes after [w] without detaching any of the nodes [P]: the
    nodes stay, identities are only added, and the operations started
    in between wait on new nodes. *)
Definition safe (P : list nat) (w w' : world) : Prop :=
  (attached P (doc w) -> attached P (doc w')) /\
  next_id w <= next_id w' /\
  exists extra,
    tasks w' = tasks w ++ extra /\
    forall k, In k extra -> forall x, In x (preloader_of k) -> next_id w <= x.

(** The nodes [P], attached for the operation number [i], are in the
    body, and no other pending operation is going to remove them. *)
Definition kept (P : list nat) (i : nat) (w : world) : Prop :=
  attached P (doc w) /\
  (forall p, In p P -> p < next_id w) /\
  (forall j k, j <> i -> nth_error (tasks w) j = Some k ->
               forall x, In x (preloader_of k) -> ~ In x P).

(** The pending operations wait on nodes that exist. *)
Definition tasks_below (w : world) : bool :=
  forallb (fun k => forallb (fun x => Nat.ltb x (next_id w)) (preloader_of k)) (tasks w).

(** [$('#getForm .blue-btn')] and its [[type="submit"]] refinement. *)
Definition getForm_buttons (submit_only : bool) (d : node) : list elem :=
  jq_find (ids_of (jq_all (by_id "getForm") d))
          (fun _ e => hasClass "blue-btn" e &&
                      (negb submit_only ||
                       match attr "type" e with
                       | Some t => String.eqb t "submit"
                       | None => false
                       end)) d.

(** The callbacks the module hands to [fadeIn]: the one of
    [nonAjaxPopup] (lines 90-92) and the one of [codebasesBranches]
    (lines 154-156). *)
Definition callback (c : cont) (w : world) : world :=
  match c with
  | KClosePopup x => closePopup x w
  | KFocus => emit (EFocus (ids_of (getForm_buttons false (doc w)))) w
  | _ => w
  end.

(** What jQuery takes for hidden when it animates: an element whose
    own [display] is [none], or one that is not in the document. *)
Definition is_hidden (i : nat) (d : node) : bool :=
  match lookup i d with
  | Some e => negb (displayed e)
  | None => true
  end.

(** [x.fadeIn('fast', k)], for a jQuery object [x] (which holds an
    element once).  A hidden element is displayed at once and its
    animation starts: the callback runs for it when the animation
    ends.  An element that is not hidden has nothing to animate: the
    callback runs for it inside the call. *)
Definition fadeIn (x : list nat) (k : option cont) (w : world) : world :=
  let now := filter (fun i => negb (is_hidden i (doc w))) x in
  let later := filter (fun i => is_hidden i (doc w)) x in
  let w1 := emit (EFadeIn x) (on_doc (update x show) w) in
  match k with
  | Some c =>
      let w2 := fold_left (fun w _ => callback c w) now w1 in
      with_tasks (tasks w2 ++ map (fun _ => c) later) w2
  | None => w1
  end.

(** [$.ajax] / [$.get]: the request is sent, [k] waits for its success. *)
Definition request (url data : jsval) (dataType : option string) (cache : bool)
    (k : cont) (w : world) : world :=
  let w1 := emit (ERequest url data dataType cache) w in
  with_tasks (tasks w1 ++ [k]) w1.

Definition bind_click (x : list nat) (h : handler) (w : world) : world :=
  with_click_h (click_h w ++ map (fun i => (i, h)) x) w.

Definition delegate (x : list nat) (cls : string) (h : handler) (w : world) : world :=
  with_deleg_h (deleg_h w ++ map (fun i => (i, cls, h)) x) w.

Definition bind_resize (h : resize_handler) (w : world) : world :=
  with_resize_h (resize_h w ++ [h]) w.

(** The [actionUrl] and the endpoint computed from [document.URL]
    through the [href] of a fresh anchor. *)
Definition actionUrl_of (currentUrl : string) : string :=
  let parser := parse_url currentUrl in
  protocol parser +++ "//" +++ host parser +++ pathname parser.

Definition buildqueue_url (currentUrl : string) (builderName : option string) : string :=
  let parser := parse_url currentUrl in
  protocol parser +++ "//" +++ host parser +++ "/json/buildqueue?builder="
    +++ js_concat_attr builderName.

(** The data context of the pending-jobs template. *)
Definition pendingJobs_context (data : jsval) (actionUrl : string) : jsval :=
  JObj [("pendingJobs", data); ("actionUrl", JStr actionUrl)].

Definition preloader_context : jsval := JObj [("preloader", JStr "true")].

Definition popupOuter_context (headline : jsval) : jsval :=
  JObj [("popupOuter", JStr "true"); ("headline", headline)].

Definition errorinput_context : jsval :=
  JObj [("errorinput", JStr "true");
        ("text", JStr "Fill out the empty revision fields or clear all before submitting")].

Definition dq : string := String (ascii_of_nat 34) EmptyString.

Definition update_button_markup : string :=
  "<div class=" +++ dq +++ "filter-table-input" +++ dq +++ ">" +++
  "<input value=" +++ dq +++ "Update" +++ dq +++
  " class=" +++ dq +++ "blue-btn var-2" +++ dq +++
  " type=" +++ dq +++ "submit" +++ dq +++ " />" +++
  "</div>".

(** Well-formed worlds: the elements of the document have distinct
    identities, all of them below the next fresh one. *)
Fixpoint distinct (l : list nat) : bool :=
  match l with
  | [] => true
  | x :: r => negb (mem x r) && distinct r
  end.

Definition wf_world (w : world) : bool :=
  distinct (node_ids (doc w)) &&
  forallb (fun i => Nat.ltb i (next_id w)) (node_ids (doc w)).

(** The error banners inside the form(s) [formEl]: what the presence
    test [$('.error-input', formEl).length] counts. *)
Definition banners (formEl : list nat) (d : node) : nat :=
  List.length (jq_find formEl (by_class "error-input") d).

(** ** A sample page

    A template set and two pages on which the statements below are
    exercised. *)
Definition el (i : nat) (t : string) (a : list (string * string)) (c : list string)
    (d : bool) : elem :=
  mkElem i t a c EmptyString EmptyString EmptyString d.

Definition input (i : nat) (ty nm v : string) (c : list string) : elem :=
  mkElem i "input" [("type", ty); ("name", nm)] c ty nm v true.

Definition sample_render (context : jsval) : string :=
  match js_get "preloader" context, js_get "popupOuter" context,
        js_get "errorinput" context, js_get "pendingJobs" context with
  | Some _, _, _, _ => "<preloader>"
  | _, Some _, _, _ => "<popupOuter>"
  | _, _, Some _, _ => "<errorinput>"
  | _, _, _, Some _ => "<pendingJobs>"
  | _, _, _, _ => EmptyString
  end.

Definition sample_form (v1 v2 : string) (c1 : list string) : node :=
  Node (el 0 "form" [] ["command_forcebuild"] true)
       [Node (input 0 "text" "fmod_revision" v1 c1) [];
        Node (input 0 "text" "katana_revision" v2 []) [];
        Node (input 0 "text" "reason" "nightly" []) [];
        Node (input 0 "hidden" "hidden_revision" EmptyString []) [];
        Node (input 0 "submit" "submit" "Force Build" ["grey-btn"]) []].

Definition sample_parse (markup : string) : option (list node) :=
  if String.eqb markup "<preloader>" then
    Some [Node (el 0 "div" [("id", "bowlG")] [] true) []]
  else if String.eqb markup "<popupOuter>" then
    Some [Node (el 0 "div" [] ["more-info-box"; "more-info-box-js"] false)
               [Node (el 0 "span" [] ["close-btn"] true) [];
                Node (el 0 "div" [("id", "content1")] [] true) []]]
  else if String.eqb markup "<errorinput>" then
    Some [Node (el 0 "div" [] ["error-input"] true) []]
  else if String.eqb markup "<pendingJobs>" then
    Some [Node (el 0 "div" [] ["more-info-box"; "more-info-box-js"] false)
               [Node (el 0 "form" [] ["cancelbuild"] true) []]]
  else if String.eqb markup "<form>" then
    Some [Node (el 0 "div" [] [] true)
               [Node (el 0 "span" [("id", "usernameDisabled")] [] true) [];
                sample_form EmptyString "4f2a" []]]
  else None.

(** The dashboard: a table with a static trigger followed by its info
    box and a pending-jobs trigger, and a force-build trigger. *)
Definition dashboard : node :=
  Node (el 0 "body" [] [] true)
       [Node (el 1 "table" [("id", "tablesorterRt")] [] true)
             [Node (el 2 "a" [] ["popup-btn-js-2"] true) [];
              Node (el 3 "div" [] ["more-info-box-js"] false)
                   [Node (el 4 "span" [] [] true) []];
              Node (el 5 "a" [("data-builderName", "b1")] ["popup-btn-js"] true) []];
        Node (el 6 "a" [("data-popuptitle", "Force build"); ("data-b", "runtests");
                        ("data-indexb", "0"); ("data-rt_update", "extforms");
                        ("data-contenttype", "form")] ["ajaxbtn"] true) [];
        Node (el 7 "a" [("id", "pathToCodeBases"); ("href", "/codebases")] [] true) []].

Definition sample_world : world :=
  mkWorld dashboard 8 "http://build.example:8010/builders?name=b1#top" [] [] [] [] [].

(** A page whose body is hidden when the pending-jobs flow starts. *)
Definition hidden_world : world :=
  mkWorld (Node (el 0 "body" [] [] false) []) 1 "http://build.example:8010/" [] [] [] [] [].

Definition sample_address : address :=
  mkAddress "http" true EmptyString "build.example:8010" "/builders" "?name=b1" "#top".

(** A page on which the force-build popup is open; the first revision
    field holds [v1] and carries the classes [c1]. *)
Definition form_page (v1 v2 : string) (c1 : list string) : node :=
  Node (el 0 "body" [] [] true)
       [Node (el 1 "div" [] ["more-info-box-js"] true)
             [Node (el 2 "div" [("id", "content1")] [] true)
                   [renum 3 (sample_form v1 v2 c1)]]].

Definition form_world (v1 v2 : string) (c1 : list string) : world :=
  mkWorld (form_page v1 v2 c1) 9 "http://build.example:8010/builders" [] [] [] [] [].

(** The dashboard some time after it was loaded: a row with a
    pending-jobs trigger and a static trigger with its box has been
    added to the table, and a force-build trigger to the body. *)
Definition dashboard_later : node :=
  Node (el 0 "body" [] [] true)
       [Node (el 1 "table" [("id", "tablesorterRt")] [] true)
             [Node (el 2 "a" [] ["popup-btn-js-2"] true) [];
              Node (el 3 "div" [] ["more-info-box-js"] false)
                   [Node (el 4 "span" [] [] true) []];
              Node (el 5 "a" [("data-builderName", "b1")] ["popup-btn-js"] true) [];
              Node (el 8 "tr" [] [] true)
                   [Node (el 9 "a" [("data-builderName", "b2")] ["popup-btn-js"] true) [];
                    Node (el 10 "a" [] ["popup-btn-js-2"] true) [];
                    Node (el 11 "div" [] ["more-info-box-js"] false) []]];
        Node (el 6 "a" [("data-popuptitle", "Force build"); ("data-b", "runtests");
                        ("data-indexb", "0"); ("data-rt_update", "extforms");
                        ("data-contenttype", "form")] ["ajaxbtn"] true) [];
        Node (el 7 "a" [("id", "pathToCodeBases"); ("href", "/codebases")] [] true) [];
        Node (el 12 "a" [("data-contenttype", "form")] ["ajaxbtn"] true) []].

(** A container with two force-build forms; the first one shows a
    message and has an empty revision field, the second one has a
    filled one. *)
Definition two_forms_page : node :=
  Node (el 0 "body" [] [] true)
       [Node (el 1 "div" [("id", "content1")] [] true)
             [Node (el 2 "form" [] ["command_forcebuild"] true)
                   [Node (el 3 "p" [] ["form-message"] true) [];
                    Node (input 4 "text" "fmod_revision" EmptyString []) [];
                    Node (input 5 "submit" "submit" "Force Build" ["grey-btn"]) []];
              Node (el 6 "form" [] ["command_forcebuild"] true)
                   [Node (input 7 "text" "katana_revision" "4f2a" []) [];
                    Node (input 8 "submit" "submit" "Force Build" ["grey-btn"]) []]]].

Definition two_forms_world : world :=
  mkWorld two_forms_page 9 "http://build.example:8010/builders" [] [] [] [] [].

(** The answer of the branch selector: a wrapper with the form (and
    an answer whose wrapper is at the top level), and the markup of the
    Update button. *)
Definition branches_parse (markup : string) : option (list node) :=
  if String.eqb markup "<branches>" then
    Some [Node (el 0 "div" [] [] true)
               [Node (el 0 "div" [("id", "formWrapper")] [] true)
                     [Node (el 0 "form" [("id", "getForm")] [] true)
                           [Node (el 0 "select" [] ["select-tools-js"] true) []]]]]
  else if String.eqb markup "<wrapper>" then
    Some [Node (el 0 "div" [("id", "formWrapper")] [] true)
               [Node (el 0 "form" [("id", "getForm")] [] true) []]]
  else if String.eqb markup update_button_markup then
    Some [Node (el 0 "div" [] ["filter-table-input"] true)
               [Node (mkElem 0 "input" [("value", "Update"); ("class", "blue-btn var-2");
                                        ("type", "submit")]
                             ["blue-btn"; "var-2"] "submit" EmptyString "Update" true) []]]
  else sample_parse markup.

(** The same templates with a frame that is rendered displayed. *)
Definition shown_frame_parse (markup : string) : option (list node) :=
  if String.eqb markup "<popupOuter>" then
    Some [Node (el 0 "div" [] ["more-info-box"; "more-info-box-js"] true)
               [Node (el 0 "span" [] ["close-btn"] true) [];
                Node (el 0 "div" [("id", "content1")] [] true) []]]
  else branches_parse markup.

(** A tab list with three items, the first one selected, and the
    three blocks they stand for, the first one displayed. *)
Definition tabs_page : node :=
  Node (el 0 "body" [] [] true)
       [Node (el 1 "ul" [] ["tabs-list"] true)
             [Node (el 2 "li" [] ["first"; "selected"] true) [];
              Node (el 3 "li" [] [] true) [];
              Node (el 4 "li" [] [] true) []];
        Node (el 5 "div" [] ["content-blocks"] true)
             [Node (el 6 "div" [] [] true) [];
              Node (el 7 "div" [] [] false) [];
              Node (el 8 "div" [] [] false) []]].

(** ** The module *)

Section Popup.

(** [Mustache.render(popups, context)]: the template text [popups]
    comes from another file, so the rendering is taken as given. *)
Variable render : jsval -> string.

(** [$(s)] for a string [s] that is not a literal of the module.
    jQuery builds nodes from a string that holds markup: [Some] of the
    nodes (their identities are assigned by [create]).  Any other
    string goes to its selector engine, which throws a syntax error on
    a string that is no selector, such as the sentence
    [Not authorized!]: [None].  A selector that matches nothing gives
    the empty set, [Some []], like markup without elements.  The
    strings of the module are rendered templates and the answers of
    the build master, markup or the text of an error; a string that
    selects elements of the page itself is not among them. *)
Variable jq_string : string -> option (list node).

(** The nodes built from markup: what [$] gives for the rendered
    templates, which hold markup, and what [.prepend(html)] parses. *)
Definition parseHTML (html : string) : list node :=
  match jq_string html with
  | Some markup => markup
  | None => []
  end.

Arguments parseHTML : simpl never.

(** *** validateForm (lines 52-86) *)

Definition excludeFields : selector :=
  sel_or ps_button (sel_or ps_hidden (sel_or ps_checkbox ps_submit)).

Definition allInputs (formEl : list nat) (d : node) : list elem :=
  jq_find formEl (sel_and (by_tag "input") (sel_not excludeFields)) d.

Definition rev (formEl : list nat) (d : node) : list elem :=
  filter (fun this => (0 <=? indexOf (name this) "revision")%Z) (allInputs formEl d).

Definition emptyRev (formEl : list nat) (d : node) : list elem :=
  filter (fun this => String.eqb (value this) EmptyString) (rev formEl d).

(** The condition of the [if]: some revision fields are empty, not all. *)
Definition partial_fill (formEl : list nat) (d : node) : bool :=
  (0 <? List.length (emptyRev formEl d))%nat &&
  (List.length (emptyRev formEl d) <? List.length (rev formEl d))%nat.

(** The body of [rev.each]. *)
Definition mark (this : elem) : elem :=
  if String.eqb (val this) EmptyString
  then addClass "not-valid" this
  else removeClass "not-valid" this.

(** The click handler bound by [validateForm] (lines 55-86); the
    second component is the [defaultPrevented] flag of the event. *)
Definition validate_click (formEl : list nat) (s : world * bool) : world * bool :=
  let (w, prevented) := s in
  if partial_fill formEl (doc w) then
    let w1 := on_doc (update (ids_of (rev formEl (doc w))) mark) w in
    let w2 := on_doc (update (ids_of (jq_find formEl (by_class "form-message") (doc w1)))
                             hide) w1 in
    let w3 :=
      if (List.length (jq_find formEl (by_class "error-input") (doc w2)) =? 0)%nat then
        let (errorinput, w') := create (parseHTML (render errorinput_context)) w2 in
        prepend_all formEl errorinput w'
      else w2 in
    (w3, true)
  else (w, prevented).

Definition validateForm (formContainer : list nat) (w : world) : world :=
  let w := emit (EValidateForm formContainer) w in
  let formEl := ids_of (jq_find formContainer (by_class "command_forcebuild") (doc w)) in
  bind_click (ids_of (jq_find formEl (by_class "grey-btn") (doc w))) (HValidate formEl) w.

(** *** nonAjaxPopup (lines 87-96)

    The argument of [.next()] is a jQuery object, not a selector
    string, so jQuery applies no filter: the flow clones the element
    that directly follows the trigger. *)
Definition nonAjaxPopup (thisEl : list nat) (w : world) : world :=
  let (clonedInfoBox, w) := create (next thisEl (doc w)) w in
  let x := roots clonedInfoBox in
  let w := on_doc (append_body clonedInfoBox) w in
  let (centered, w) := jCenter x w in
  let w := fadeIn centered (Some (KClosePopup x)) w in
  bind_resize (RCenter x) w.

(** *** pendingJobs (lines 97-123) and its success callback *)
Definition pendingJobs (url : string) (w : world) : world :=
  let (preloader, w) := create (parseHTML (render preloader_context)) w in
  let w := on_doc show_body (on_doc (append_body preloader) w) in
  let actionUrl := actionUrl_of (URL w) in
  let w := emit (EConsoleLog actionUrl) w in
  request (JStr url) JUndefined (Some "json") false
          (KPendingJobs (roots preloader) actionUrl) w.

Definition pendingJobs_success (preloader : list nat) (actionUrl : string)
    (data : jsval) (w : world) : world :=
  let w := on_doc (remove preloader) w in
  let (mustacheTmpl, w) :=
    create (parseHTML (render (pendingJobs_context data actionUrl))) w in
  let x := roots mustacheTmpl in
  let w := on_doc (append_body mustacheTmpl) w in
  let (centered, w) := jCenter x w in
  let w := fadeIn centered None w in
  closePopup x w.

(** *** codebasesBranches (lines 125-178) and its done callback *)
Definition codebasesBranches (w : world) : world :=
  let path := jq_attr (ids_of (jq_id "pathToCodeBases" (doc w))) "href" (doc w) in
  let (preloader, w) := create (parseHTML (render preloader_context)) w in
  let w := on_doc show_body (on_doc (append_body preloader) w) in
  let (mib, w) :=
    create (parseHTML (render (popupOuter_context (JStr "Select branches")))) w in
  let w := on_doc (append_body mib) w in
  request (js_of_attr path) JUndefined None true
          (KCodebases (roots preloader) (roots mib)) w.

(** The done callback.  [.prepend(html)] builds the nodes of its
    markup when it has a target: with no [#getForm] among the children
    of the wrappers nothing is built. *)
Definition codebasesBranches_done (preloader mib : list nat) (data : string)
    (w : world) : world :=
  let formContainer := ids_of (jq_id "content1" (doc w)) in
  let w := on_doc (remove preloader) w in
  match jq_string data with
  | None => w      (* [$(data)] throws: the callback ends here *)
  | Some markup =>
      let (parsed, w) := create markup w in
      let fw := flat_map (find_nodes (has_id "formWrapper") true) parsed in
      let getForm := ids_of (children (has_id "getForm") fw) in
      let (parsed, w) :=
        match getForm with
        | [] => (parsed, w)
        | _ :: _ =>
            let (button, w) := create (parseHTML update_button_markup) w in
            let (l, n) := copies getForm button (next_id w) in
            (map (insert_all l) parsed, with_next_id n w)
        end in
      let fw := flat_map (find_nodes (has_id "formWrapper") true) parsed in
      (* moving the matches one after the other takes nested matches out
         of the match that contains them *)
      let w := on_doc (append_into formContainer (map (remove (roots fw)) fw)) w in
      let (centered, w) := jCenter mib w in
      let w := fadeIn centered (Some KFocus) w in
      let w := bind_resize (RCenter mib) w in
      let w := emit (ERequire "selectors") w in
      let w := with_tasks (tasks w ++ [KSelectors]) w in
      let w := on_doc (update (ids_of (jq_id "getForm" (doc w)))
                              (set_attr "action" (URL w))) w in
      let w := bind_click (ids_of (getForm_buttons true (doc w))) HHideBoxes w in
      closePopup mib w
  end.

(** *** externalContentPopup (lines 193-229) and its done callback *)
Definition externalContentPopup (thisEl : list nat) (w : world) : world :=
  let popupTitle := jq_attr thisEl "data-popuptitle" (doc w) in
  let datab := jq_attr thisEl "data-b" (doc w) in
  let dataindexb := jq_attr thisEl "data-indexb" (doc w) in
  let rtUpdate := jq_attr thisEl "data-rt_update" (doc w) in
  let contentType := jq_attr thisEl "data-contenttype" (doc w) in
  let (preloader, w) := create (parseHTML (render preloader_context)) w in
  let w := on_doc (append_body preloader) w in
  let (mib, w) :=
    create (parseHTML (render (popupOuter_context (js_of_attr popupTitle)))) w in
  let w := on_doc (append_body mib) w in
  request (JStr EmptyString)
          (JObj [("rt_update", js_of_attr rtUpdate); ("datab", js_of_attr datab);
                 ("dataindexb", js_of_attr dataindexb)])
          None true
          (KExternal (roots preloader) (roots mib) contentType) w.

Definition externalContentPopup_done (preloader mib : list nat)
    (contentType : option string) (data : string) (w : world) : world :=
  let exContent := ids_of (jq_id "content1" (doc w)) in
  let w := on_doc (remove preloader) w in
  match jq_string data with
  | None => w      (* [$(data)] throws: the callback ends here *)
  | Some markup =>
      let (fragment, w) := create markup w in
      let w := on_doc (append_into exContent fragment) w in
      let w :=
        if js_is contentType "form" then
          let w := setFullName
                     (ids_of (jq_find exContent
                                (sel_or (by_id "usernameDisabled")
                                        (by_id "usernameHidden")) (doc w))) w in
          validateForm exContent w
        else w in
      let (centered, w) := jCenter mib w in
      let w := fadeIn centered None w in
      let w := bind_resize (RCenter mib) w in
      closePopup mib w
  end.

(** *** customTabs (lines 179-192)

    The module does not call this method (the call in
    [externalContentPopup] is commented out), so its handler is not
    among the [handler]s of the world: [customTabs] gives the elements
    the handler is bound to, the items of the tab lists, and
    [customTabs_click] is the handler, run on the document with the
    clicked item as [this]. *)
Definition customTabs (d : node) : list nat :=
  ids_of (jq_find (ids_of (jq_all (by_class "tabs-list") d)) (by_tag "li") d).

Definition customTabs_click (this : nat) (d : node) : node :=
  let indexLi := jq_index this d in
  let d := update (ids_of (jq_find (parent [this] d) (by_tag "li") d))
                  (removeClass "selected") d in
  let d := update [this] (addClass "selected") d in
  update (ids_of (jq_child (hasClass "content-blocks") (is_tag "div") d))
         (fun e => if negb (Z.eqb (jq_index (nid e) d) indexLi) then hide e else show e) d.

(** The handler seen from one element, for the proofs below: [items]
    are the list items below the parent of the clicked item [this],
    [blocks] the blocks of the page, and [same i] tells that the node
    [i] has the index of the clicked item. *)
Definition customTabs_elem (items : list nat) (this : nat) (blocks : list nat)
    (same : nat -> bool) (e : elem) : elem :=
  let e := if mem (nid e) items then removeClass "selected" e else e in
  let e := if mem (nid e) [this] then addClass "selected" e else e in
  if mem (nid e) blocks then (if negb (same (nid e)) then hide e else show e) else e.

(** *** init (lines 7-50) and the handlers the module binds *)
Definition init (w : world) : world :=
  let w := bind_click (ids_of (jq_all (by_class "popup-btn-js-2") (doc w))) HStatic w in
  let w := delegate (ids_of (jq_id "tablesorterRt" (doc w))) "popup-btn-js-2" HStatic w in
  let w := delegate (ids_of (jq_id "tablesorterRt" (doc w))) "popup-btn-js" HPending w in
  let w := bind_click (ids_of (jq_id "getBtn" (doc w))) HGetBtn w in
  bind_click (ids_of (jq_all (by_class "ajaxbtn") (doc w))) HAjaxBtn w.

Definition run_handler (h : handler) (this : nat) (s : world * bool) : world * bool :=
  match h with
  | HStatic => (nonAjaxPopup [this] (fst s), true)
  | HPending =>
      let w := fst s in
      let url := buildqueue_url (URL w) (jq_attr [this] "data-builderName" (doc w)) in
      (pendingJobs url w, true)
  | HGetBtn => (codebasesBranches (fst s), true)
  | HAjaxBtn => (externalContentPopup [this] (fst s), true)
  | HValidate formEl => validate_click formEl s
  | HHideBoxes =>
      (on_doc (fun d => update (ids_of (jq_all (by_class "more-info-box-js") d)) hide d)
              (fst s), snd s)
  end.

(** *** Events *)

(** The element [cur] is in the document and carries the class. *)
Definition matches (cls : string) (cur : nat) (d : node) : bool :=
  match lookup cur d with
  | Some e => hasClass cls e
  | None => false
  end.

(** The handlers that run when a click that started at the elements
    [below] (target first) reaches the element [c], each with its
    [this]: the delegated ones, from the target upwards, then the ones
    bound on [c]. *)
Definition handlers_at (w : world) (below : list nat) (c : nat) : list (handler * nat) :=
  flat_map (fun cur =>
              flat_map (fun d => match d with
                                 | (r, cls, h) =>
                                     if Nat.eqb r c && matches cls cur (doc w)
                                     then [(h, cur)] else []
                                 end) (deleg_h w)) below
  ++ flat_map (fun b => if Nat.eqb (fst b) c then [(snd b, c)] else [])
              (click_h w).

(** The handlers bound on the element [c] itself, and the elements
    that handlers are delegated to. *)
Definition bound_on (c : nat) (w : world) : list handler :=
  map snd (filter (fun b => Nat.eqb (fst b) c) (click_h w)).

Definition delegation_roots (w : world) : list nat :=
  map (fun x => fst (fst x)) (deleg_h w).

Definition run_handlers (hs : list (handler * nat)) (s : world * bool) : world * bool :=
  fold_left (fun s h => run_handler (fst h) (snd h) s) hs s.

(** The click travels up the chain [path]; [below] are the elements it
    has left behind. *)
Fixpoint bubble (below path : list nat) (s : world * bool) : world * bool :=
  match path with
  | [] => s
  | c :: up => bubble (below ++ [c]) up (run_handlers (handlers_at (fst s) below c) s)
  end.

(** A click on the element [target]: the final world and whether the
    default action was prevented. *)
Definition click (target : nat) (w : world) : world * bool :=
  bubble [] (path_to target (doc w)) (w, false).

(** The window is resized: the handlers run in the order they were
    bound. *)
Definition run_resize (h : resize_handler) (w : world) : world :=
  match h with
  | RCenter x => emit (EJCenter x) w
  | RCenterBoxes => emit (EJCenter (ids_of (jq_all (by_class "more-info-box-js") (doc w)))) w
  end.

Definition resize (w : world) : world :=
  fold_left (fun w h => run_resize h w) (resize_h w) w.

(** The way an asynchronous operation ends. *)
Inductive outcome :=
| Json (data : jsval)      (* a request answered with JSON *)
| Text (data : string)     (* a request answered with text: markup, as a rule *)
| Finished                 (* an animation or a module load ended *)
| Failed.                  (* the request failed *)

Fixpoint set_nth {A} (i : nat) (x : A) (l : list A) : list A :=
  match l, i with
  | [], _ => []
  | _ :: r, O => x :: r
  | a :: r, S j => a :: set_nth j x r
  end.

(** The operation number [i] ends with [o]. *)
Definition complete (i : nat) (o : outcome) (w : world) : world :=
  match nth_error (tasks w) i with
  | None => w
  | Some k =>
      let w := with_tasks (set_nth i KOver (tasks w)) w in
      match k, o with
      | KPendingJobs p a, Json data => pendingJobs_success p a data w
      | KCodebases p m, Text data => codebasesBranches_done p m data w
      | KExternal p m c, Text data => externalContentPopup_done p m c data w
      | KClosePopup x, Finished => closePopup x w
      | KFocus, Finished => emit (EFocus (ids_of (getForm_buttons false (doc w)))) w
      | KSelectors, Finished =>
          let w := emit (EComboBox "#formWrapper .select-tools-js") w in
          let w := emit ESelectorsInit w in
          bind_resize RCenterBoxes w
      | _, _ => w
      end
  end.

(** What happens on the page: the user clicks an element or types in a
    field, the window is resized, an asynchronous operation ends. *)
Inductive event :=
| Click (target : nat)
| Input (target : nat) (text : string)
| Resize
| Complete (i : nat) (o : outcome).

Definition set_value (v : string) (e : elem) : elem :=
  mkElem (nid e) (tag e) (attrs e) (classes e) (itype e) (name e) v (displayed e).

Definition step (ev : event) (w : world) : world :=
  match ev with
  | Click t => fst (click t w)
  | Input t v => on_doc (update [t] (set_value v)) w
  | Resize => resize w
  | Complete i o => complete i o w
  end.

(** The event is an answer to the request number [i]. *)
Definition answers (i : nat) (ev : event) : bool :=
  match ev with
  | Complete j (Json _) | Complete j (Text _) => Nat.eqb j i
  | _ => false
  end.

Definition run (evs : list event) (w : world) : world :=
  fold_left (fun w ev => step ev w) evs w.

(** The sample dashboard some time after [init] ran on it. *)
Definition later_world : world :=
  with_next_id 13 (with_doc dashboard_later (init sample_world)).

Unset Implicit Arguments.

(** ** Facts about lists and strings *)

Lemma filter_length_lt {A} (f : A -> bool) (l : list A) :
  (exists x, In x l /\ f x = false) -> List.length (filter f l) < List.length l.
Proof.
  induction l as [|a l IH]; intros [x [Hin Hx]]; simpl in *.
  - contradiction.
  - destruct Hin as [->|Hin].
    + rewrite Hx. pose proof (filter_length_le f l). lia.
    + destruct (f a); simpl; [apply -> Nat.succ_lt_mono|apply Nat.lt_lt_succ_r];
        apply IH; eauto.
Qed.

Lemma filter_length_pos {A} (f : A -> bool) (l : list A) :
  (exists x, In x l /\ f x = true) -> 0 < List.length (filter f l).
Proof.
  intros [x [Hin Hx]].
  assert (H : In x (filter f l)) by (apply filter_In; auto).
  destruct (filter f l); simpl in *; [contradiction|lia].
Qed.

Lemma filter_all {A} (f : A -> bool) (l : list A) :
  (forall x, In x l -> f x = true) -> filter f l = l.
Proof.
  induction l as [|a l IH]; intros H; simpl; auto.
  rewrite (H a (or_introl eq_refl)), IH; auto. intros; apply H; simpl; auto.
Qed.

Lemma filter_none {A} (f : A -> bool) (l : list A) :
  (forall x, In x l -> f x = false) -> filter f l = [].
Proof.
  induction l as [|a l IH]; intros H; simpl; auto.
  rewrite (H a (or_introl eq_refl)), IH; auto. intros; apply H; simpl; auto.
Qed.

Lemma indexOf_contains (s sub : string) :
  sub <> EmptyString -> ((0 <=? indexOf s sub)%Z = true <-> contains s sub).
Proof.
  intros Hne. unfold indexOf, contains.
  destruct (index 0 sub s) as [m|] eqn:E.
  - split; intros _.
    + exists m. eapply index_correct1; eauto.
    + apply Z.leb_le. lia.
  - split.
    + intros H. apply Z.leb_le in H. lia.
    + intros [m Hm]. exfalso.
      eapply (index_correct3 0 m sub s); eauto. lia.
Qed.

(** ** The revision check *)

(** The revision fields are the inputs below the form that are no
    button, not hidden, no checkbox and no submit control, and whose
    name contains [revision]. *)
Lemma rev_spec (formEl : list nat) (d : node) (e : elem) :
  In e (rev formEl d) <->
  In e (jq_find formEl (sel_and (by_tag "input") (sel_not excludeFields)) d) /\
  contains (name e) "revision".
Proof.
  unfold rev, allInputs. rewrite filter_In.
  rewrite indexOf_contains by discriminate. tauto.
Qed.

Lemma partial_fill_true (formEl : list nat) (d : node) :
  (exists e, In e (rev formEl d) /\ value e = EmptyString) ->
  (exists e, In e (rev formEl d) /\ value e <> EmptyString) ->
  partial_fill formEl d = true.
Proof.
  intros [e [He Hv]] [e' [He' Hv']]. unfold partial_fill, emptyRev.
  apply andb_true_iff; split; apply Nat.ltb_lt.
  - apply filter_length_pos. exists e. split; auto. apply String.eqb_eq; auto.
  - apply filter_length_lt. exists e'. split; auto. apply String.eqb_neq; auto.
Qed.

Lemma partial_fill_false (formEl : list nat) (d : node) :
  (forall e, In e (rev formEl d) -> value e = EmptyString) \/
  (forall e, In e (rev formEl d) -> value e <> EmptyString) ->
  partial_fill formEl d = false.
Proof.
  intros [H|H]; unfold partial_fill, emptyRev; apply andb_false_iff.
  - right. rewrite filter_all.
    + apply Nat.ltb_irrefl.
    + intros x Hx. apply String.eqb_eq; auto.
  - left. rewrite filter_none; auto.
    intros x Hx. apply String.eqb_neq; auto.
Qed.

(** ** Addresses *)

Lemma append_assoc_s (a b c : string) : (a +++ b) +++ c = a +++ (b +++ c).
Proof. induction a; simpl; congruence. Qed.

Lemma break_stop (p : ascii -> bool) (a b : string) :
  no_char p a = true -> stops_at p b = true -> break p (a +++ b) = (a, b).
Proof.
  induction a as [|c a IH]; simpl; intros Ha Hb.
  - destruct b as [|c b]; simpl in *; auto. rewrite Hb; auto.
  - apply andb_true_iff in Ha. destruct Ha as [Hc Ha].
    apply negb_true_iff in Hc. rewrite Hc, IH; auto.
Qed.

Lemma stops_at_append (p : ascii -> bool) (a b : string) :
  stops_at p a = true -> stops_at p b = true -> stops_at p (a +++ b) = true.
Proof. destruct a; simpl; auto. Qed.

Lemma stops_at_weaken (p q : ascii -> bool) (s : string) :
  (forall a, p a = true -> q a = true) -> stops_at p s = true -> stops_at q s = true.
Proof. destruct s; simpl; auto. Qed.

Lemma empty_or_starts (c : string) (s : string) :
  String.eqb s EmptyString || starts_with c s = true -> stops_at (is_char c) s = true.
Proof. destruct s; simpl; auto. Qed.

Lemma no_char_weaken (p q : ascii -> bool) (s : string) :
  (forall a, q a = true -> p a = true) -> no_char p s = true -> no_char q s = true.
Proof.
  intros H. induction s as [|c s IH]; simpl; auto.
  intros Hs. apply andb_true_iff in Hs. destruct Hs as [Hc Hs].
  rewrite IH by auto. rewrite andb_true_r.
  apply negb_true_iff in Hc. apply negb_true_iff.
  destruct (q c) eqn:E; auto. rewrite (H c E) in Hc. discriminate.
Qed.

Lemma after_last_none (c s : string) :
  no_char (is_char c) s = true -> after_last c s = None.
Proof.
  induction s as [|a s IH]; simpl; auto.
  intros H. apply andb_true_iff in H. destruct H as [Ha Hs].
  rewrite IH by auto. apply negb_true_iff in Ha. rewrite Ha. reflexivity.
Qed.

Lemma after_last_append (c : ascii) (a b : string) :
  no_char (is_char (String c EmptyString)) b = true ->
  after_last (String c EmptyString) (a +++ String c b) = Some b.
Proof.
  intros Hb. induction a as [|x a IH]; simpl.
  - rewrite after_last_none by auto. rewrite Ascii.eqb_refl. reflexivity.
  - simpl in IH. rewrite IH. reflexivity.
Qed.

Lemma prefix_slashes_false (pth rest : string) :
  String.prefix "//" pth = false ->
  no_char (fun a => is_char "?" a || is_char "#" a) pth = true ->
  stops_at (fun a => is_char "?" a || is_char "#" a) rest = true ->
  String.prefix "//" (pth +++ rest) = false.
Proof.
  intros Hp Hn Hr.
  destruct (String.prefix "//" (pth +++ rest)) eqn:E; auto.
  apply prefix_correct in E.
  assert (Hp' : substring 0 2 pth <> "//").
  { intros X. apply (prefix_correct "//" pth) in X. congruence. }
  clear Hp.
  destruct pth as [|c1 [|c2 pth]]; cbn in *.
  - destruct rest as [|r1 [|r2 rest]]; cbn in *; try discriminate.
    inversion E; subst; discriminate.
  - destruct rest as [|r1 rest]; cbn in *; try discriminate.
    inversion E; subst; discriminate.
  - exfalso. apply Hp'. destruct (pth +++ rest); destruct pth; cbn in *; congruence.
Qed.

Ltac chars :=
  intros ? ?;
  repeat match goal with x := _ |- _ => subst x end;
  cbv beta in *;
  repeat match goal with
         | |- context [is_char ?c ?a] => destruct (is_char c a)
         | H : context [is_char ?c ?a] |- _ => destruct (is_char c a)
         end;
  simpl in *; first [reflexivity | discriminate | congruence].

(** Decomposing the serialisation of an address gives back its
    scheme, host and path. *)
Lemma parse_serialize (u : address) :
  wf_address u = true ->
  protocol (parse_url (serialize u)) = a_scheme u +++ ":" /\
  host (parse_url (serialize u)) = a_host u /\
  pathname (parse_url (serialize u)) = a_path u.
Proof.
  unfold wf_address. intros H.
  apply andb_true_iff in H; destruct H as [H Hf].
  apply andb_true_iff in H; destruct H as [H Hq'].
  apply andb_true_iff in H; destruct H as [H Hq].
  apply andb_true_iff in H; destruct H as [H Hsl].
  apply andb_true_iff in H; destruct H as [H Hpath].
  apply andb_true_iff in H; destruct H as [H Hhost].
  apply andb_true_iff in H; destruct H as [Hscheme Hui].
  apply empty_or_starts in Hq, Hf.
  set (delim := fun a => is_char "/" a || is_char "?" a || is_char "#" a) in *.
  set (qh := fun a => is_char "?" a || is_char "#" a) in *.
  assert (Htail : stops_at qh (a_query u +++ a_fragment u) = true).
  { apply stops_at_append.
    - eapply stops_at_weaken; [|exact Hq]. chars.
    - eapply stops_at_weaken; [|exact Hf]. chars. }
  assert (Hhost' : no_char delim (a_host u) = true).
  { eapply no_char_weaken; [|exact Hhost]. chars. }
  assert (Hat : no_char (is_char "@") (a_host u) = true).
  { eapply no_char_weaken; [|exact Hhost]. chars. }
  unfold parse_url, serialize.
  rewrite (break_stop (is_char ":") (a_scheme u)); auto.
  cbn [drop1 append].
  destruct (a_slashes u).
  - cbn [append prefix drop1].
    destruct (ascii_dec "/" "/") as [_|n]; [|congruence].
    cbn [drop1].
    set (auth := (if String.eqb (a_userinfo u) EmptyString then EmptyString
                  else a_userinfo u +++ "@") +++ a_host u).
    match goal with
    | |- context [String.prefix EmptyString ?x] =>
        replace (String.prefix EmptyString x) with true by (destruct x; reflexivity)
    end.
    assert (Hauth : no_char delim auth = true).
    { unfold auth. destruct (String.eqb (a_userinfo u) EmptyString).
      - exact Hhost'.
      - rewrite append_assoc_s. clear - Hui Hhost'.
        induction (a_userinfo u) as [|c s IH]; simpl in *.
        + exact Hhost'.
        + apply andb_true_iff in Hui. destruct Hui as [Hc Hs].
          rewrite IH, Hc; auto. }
    assert (Hrest : stops_at delim (a_path u +++ a_query u +++ a_fragment u) = true).
    { apply orb_true_iff in Hsl. destruct Hsl as [Hsl|Hsl].
      - apply String.eqb_eq in Hsl. rewrite Hsl. simpl.
        eapply stops_at_weaken; [|exact Htail]. chars.
      - destruct (a_path u); simpl in *; [discriminate|].
        unfold delim. rewrite Hsl. reflexivity. }
    rewrite (break_stop delim auth); auto.
    rewrite (break_stop qh (a_path u)); auto.
    destruct (break (is_char "#") (a_query u +++ a_fragment u)) as [query fragment].
    cbn [protocol host pathname]. repeat split; auto.
    unfold auth. destruct (String.eqb (a_userinfo u) EmptyString) eqn:E.
    + simpl. rewrite after_last_none; auto.
    + rewrite append_assoc_s. simpl.
      rewrite after_last_append; auto.
  - apply andb_true_iff in Hsl; destruct Hsl as [Hsl Hnp].
    apply andb_true_iff in Hsl; destruct Hsl as [Hnu Hnh].
    apply String.eqb_eq in Hnh. apply negb_true_iff in Hnp.
    cbn [append].
    rewrite prefix_slashes_false; auto.
    rewrite (break_stop qh (a_path u)); auto.
    destruct (break (is_char "#") (a_query u +++ a_fragment u)) as [query fragment].
    cbn [protocol host pathname after_last]. repeat split; auto.
Qed.


(** ** Facts about the document *)

Lemma mem_In (x : nat) (l : list nat) : mem x l = true <-> In x l.
Proof.
  unfold mem. rewrite existsb_exists. split.
  - intros [y [Hy E]]. apply Nat.eqb_eq in E. subst. auto.
  - intros H. exists x. split; auto. apply Nat.eqb_refl.
Qed.

Lemma mem_false (x : nat) (l : list nat) : mem x l = false <-> ~ In x l.
Proof.
  rewrite <- mem_In. destruct (mem x l); split; intros; congruence.
Qed.

Lemma flat_map_map {A B C} (f : B -> list C) (g : A -> B) (l : list A) :
  flat_map f (map g l) = flat_map (fun x => f (g x)) l.
Proof. induction l; simpl; congruence. Qed.

Lemma flat_map_ext_Forall {A B} (f g : A -> list B) (l : list A) :
  Forall (fun x => f x = g x) l -> flat_map f l = flat_map g l.
Proof. induction 1; simpl; congruence. Qed.

Lemma map_flat_map {A B C} (f : A -> list B) (g : B -> C) (l : list A) :
  map g (flat_map f l) = flat_map (fun x => map g (f x)) l.
Proof. induction l; simpl; auto. rewrite map_app. congruence. Qed.

Lemma map_id_Forall {A} (f : A -> A) (l : list A) :
  Forall (fun x => f x = x) l -> map f l = l.
Proof. induction 1; simpl; congruence. Qed.

Lemma cnt_app {A} (q : A -> bool) (l1 l2 : list A) :
  cnt q (l1 ++ l2) = cnt q l1 + cnt q l2.
Proof. unfold cnt. rewrite filter_app, length_app. reflexivity. Qed.

Lemma cnt_cons {A} (q : A -> bool) (a : A) (l : list A) :
  cnt q (a :: l) = (if q a then 1 else 0) + cnt q l.
Proof. unfold cnt. simpl. destruct (q a); reflexivity. Qed.

(** Identities occur at most once exactly when the list of identities
    has no duplicate. *)
Lemma cnt_has_nid (i : nat) (l : list elem) :
  cnt (has_nid i) l = count_occ Nat.eq_dec (map nid l) i.
Proof.
  induction l as [|a l IH]; simpl; auto.
  rewrite cnt_cons, IH. unfold has_nid.
  destruct (Nat.eq_dec (nid a) i) as [E|E].
  - apply Nat.eqb_eq in E. rewrite E. reflexivity.
  - apply Nat.eqb_neq in E. rewrite E. reflexivity.
Qed.

Lemma NoDup_cnt (l : list elem) :
  NoDup (map nid l) <-> forall i, cnt (has_nid i) l <= 1.
Proof.
  rewrite (NoDup_count_occ Nat.eq_dec). split; intros H i.
  - rewrite cnt_has_nid. apply H.
  - rewrite <- cnt_has_nid. apply H.
Qed.

(** *** Elements of a document after an update *)

Lemma elems_update (ids : list nat) (g : elem -> elem) (t : node) :
  elems (update ids g t) =
  map (fun e => if mem (nid e) ids then g e else e) (elems t).
Proof.
  induction t as [e ks IH] using node_ind. simpl. f_equal.
  rewrite flat_map_map, map_flat_map.
  apply flat_map_ext_Forall. exact IH.
Qed.

Lemma node_ids_update (ids : list nat) (g : elem -> elem) (t : node) :
  (forall e, nid (g e) = nid e) ->
  node_ids (update ids g t) = node_ids t.
Proof.
  intros Hg. unfold node_ids. rewrite elems_update, map_map.
  apply map_ext. intros e. destruct (mem (nid e) ids); auto.
Qed.

Lemma update_fresh (ids : list nat) (g : elem -> elem) (t : node) :
  (forall i, In i (node_ids t) -> ~ In i ids) -> update ids g t = t.
Proof.
  induction t as [e ks IH] using node_ind. intros H. simpl.
  replace (mem (nid e) ids) with false.
  2:{ symmetry. apply mem_false. apply H. simpl. auto. }
  f_equal. apply map_id_Forall.
  rewrite Forall_forall in *. intros k Hk. apply IH; auto.
  intros i Hi. apply H. unfold node_ids in *. simpl. right.
  rewrite map_flat_map. apply in_flat_map. exists k. auto.
Qed.

(** *** Fresh identities *)

Lemma renum_unfold (n : nat) (e : elem) (ks : list node) :
  renum n (Node e ks) = Node (set_nid n e) (renum_forest (S n) ks).
Proof.
  reflexivity.
Qed.

Lemma forest_size_cons (k : node) (f : list node) :
  forest_size (k :: f) = size k + forest_size f.
Proof. reflexivity. Qed.

Lemma node_ids_renum (n : nat) (t : node) : node_ids (renum n t) = seq n (size t).
Proof.
  revert n. induction t as [e ks IH] using node_ind. intros n.
  rewrite renum_unfold. unfold node_ids. simpl. f_equal.
  fold (forest_size ks). generalize (S n). clear n.
  induction IH as [|k r Hk Hr IHr]; intros m; simpl; auto.
  rewrite map_app. fold (node_ids (renum m k)). rewrite Hk, IHr.
  rewrite forest_size_cons, seq_app. reflexivity.
Qed.

Lemma forest_ids_renum (n : nat) (f : list node) :
  forest_ids (renum_forest n f) = seq n (forest_size f).
Proof.
  revert n. induction f as [|k r IH]; intros n; simpl; auto.
  unfold forest_ids, forest_elems in *. simpl. rewrite map_app.
  fold (node_ids (renum n k)). rewrite node_ids_renum, IH.
  rewrite forest_size_cons, seq_app. reflexivity.
Qed.

Lemma roots_incl (f : list node) (i : nat) : In i (roots f) -> In i (forest_ids f).
Proof.
  unfold roots, forest_ids, forest_elems. rewrite in_map_iff.
  intros [k [E Hk]]. subst. apply in_map. apply in_flat_map.
  exists k. split; auto. destruct k; simpl; auto.
Qed.

(** *** Selections and insertions *)

Lemma find_inside (ctx : list nat) (q : elem -> bool) (h : bool) (t : node) :
  find ctx (fun _ => q) true h t = filter q (elems t).
Proof.
  revert h. induction t as [e ks IH] using node_ind. intros h. simpl.
  destruct (q e); simpl; [f_equal|];
    (induction IH as [|k r Hk Hr IHr]; simpl; auto;
     rewrite filter_app, Hk, IHr; reflexivity).
Qed.

Lemma elems_prepend_cnt (q : elem -> bool) (f : nat) (new : list node) (t : node) :
  cnt q (elems (prepend_to f new t)) =
  cnt q (elems t) + cnt (has_nid f) (elems t) * cnt q (forest_elems new).
Proof.
  induction t as [e ks IH] using node_ind. cbn [elems prepend_to].
  rewrite !cnt_cons. rewrite flat_map_app, cnt_app.
  assert (Hks : cnt q (flat_map elems (map (prepend_to f new) ks)) =
                cnt q (flat_map elems ks) +
                cnt (has_nid f) (flat_map elems ks) * cnt q (forest_elems new)).
  { induction IH as [|k r Hk Hr IHr]; cbn [map flat_map]; auto.
    rewrite !cnt_app, Hk, IHr. rewrite Nat.mul_add_distr_r. lia. }
  rewrite Hks. change (Nat.eqb (nid e) f) with (has_nid f e).
  rewrite Nat.mul_add_distr_r.
  destruct (has_nid f e).
  - change (flat_map elems new) with (forest_elems new). lia.
  - change (cnt q (flat_map elems [])) with 0. lia.
Qed.

Lemma find_prepend_len (q : elem -> bool) (f : nat) (new : list node) (h : bool)
    (t : node) :
  List.length (find [f] (fun _ => q) false h (prepend_to f new t)) =
  List.length (find [f] (fun _ => q) false h t) +
  cnt (has_nid f) (elems t) * cnt q (forest_elems new).
Proof.
  revert h. induction t as [e ks IH] using node_ind. intros h.
  cbn [prepend_to find elems andb app].
  rewrite cnt_cons. change (Nat.eqb (nid e) f) with (has_nid f e).
  assert (M : mem (nid e) [f] = has_nid f e).
  { unfold mem, has_nid. simpl. apply orb_false_r. }
  rewrite M. cbn [orb]. generalize (h || negb (displayed e)). intros b.
  destruct (has_nid f e).
  - (* the form itself: everything below it is selected *)
    assert (F : forall l, List.length (flat_map (find [f] (fun _ => q) true b) l) =
                          cnt q (flat_map elems l)).
    { induction l as [|a l IHl]; auto. cbn [flat_map].
      rewrite length_app, cnt_app, IHl, find_inside. reflexivity. }
    rewrite !F. rewrite flat_map_app, cnt_app.
    assert (Hks : cnt q (flat_map elems (map (prepend_to f new) ks)) =
                  cnt q (flat_map elems ks) +
                  cnt (has_nid f) (flat_map elems ks) * cnt q (forest_elems new)).
    { clear IH F. induction ks as [|k r IHr]; auto. cbn [map flat_map].
      rewrite !cnt_app, elems_prepend_cnt, IHr. rewrite Nat.mul_add_distr_r. lia. }
    rewrite Hks. change (flat_map elems new) with (forest_elems new).
    rewrite Nat.mul_add_distr_r. lia.
  - cbn [app]. rewrite Nat.add_0_l.
    induction IH as [|k r Hk Hr IHr]; auto. cbn [map flat_map].
    rewrite !length_app, Hk, !cnt_app. rewrite Nat.mul_add_distr_r.
    rewrite IHr. lia.
Qed.

Lemma find_update_len (ctx : list nat) (q : elem -> bool) (ids : list nat)
    (g : elem -> elem) (i h h' : bool) (t : node) :
  (forall e, q (g e) = q e) -> (forall e, nid (g e) = nid e) ->
  List.length (find ctx (fun _ => q) i h (update ids g t)) =
  List.length (find ctx (fun _ => q) i h' t).
Proof.
  intros Hq Hn. revert i h h'.
  induction t as [e ks IH] using node_ind. intros i h h'. simpl.
  rewrite !length_app. f_equal.
  - destruct (mem (nid e) ids); rewrite ?Hq; destruct (i && q e); reflexivity.
  - replace (nid (if mem (nid e) ids then g e else e)) with (nid e)
      by (destruct (mem (nid e) ids); rewrite ?Hn; reflexivity).
    generalize (h || negb (displayed (if mem (nid e) ids then g e else e))).
    generalize (h' || negb (displayed e)). generalize (i || mem (nid e) ctx).
    intros i' b b'.
    induction IH as [|k r Hk Hr IHr]; simpl; auto.
    rewrite !length_app, (Hk i' b' b), IHr. reflexivity.
Qed.

Lemma distinct_NoDup (l : list nat) : distinct l = true <-> NoDup l.
Proof.
  induction l as [|x l IH]; simpl.
  - split; auto. constructor.
  - rewrite andb_true_iff, negb_true_iff, mem_false, IH. split.
    + intros [H1 H2]. constructor; auto.
    + intros H. inversion H; auto.
Qed.

Lemma wf_world_spec (w : world) :
  wf_world w = true <->
  NoDup (node_ids (doc w)) /\ (forall i, In i (node_ids (doc w)) -> i < next_id w).
Proof.
  unfold wf_world. rewrite andb_true_iff, distinct_NoDup, forallb_forall.
  split; intros [H1 H2]; split; auto; intros i Hi.
  - apply Nat.ltb_lt. auto.
  - apply Nat.ltb_lt. auto.
Qed.

Lemma find_In_elems (ctx : list nat) (p : selector) (i h : bool) (t : node) (e : elem) :
  In e (find ctx p i h t) -> In e (elems t).
Proof.
  revert i h. induction t as [x ks IH] using node_ind. intros i h. simpl.
  rewrite in_app_iff. intros [H|H].
  - destruct (i && p (h || negb (displayed x)) x); simpl in H; tauto.
  - right. apply in_flat_map in H. destruct H as [k [Hk He]].
    apply in_flat_map. exists k. split; auto.
    rewrite Forall_forall in IH. eapply IH; eauto.
Qed.

Lemma find_ctx_in_doc (ctx : list nat) (p : selector) (h : bool) (t : node) (e : elem) :
  In e (find ctx p false h t) -> exists i, In i ctx /\ In i (node_ids t).
Proof.
  revert h. induction t as [x ks IH] using node_ind. intros h. simpl.
  intros H. apply in_flat_map in H. destruct H as [k [Hk He]].
  destruct (mem (nid x) ctx) eqn:M.
  - apply mem_In in M. exists (nid x). split; [exact M|left; reflexivity].
  - rewrite Forall_forall in IH. destruct (IH k Hk _ He) as [i [Hi Hi']].
    exists i. split; auto. right. unfold node_ids in *.
    rewrite map_flat_map. apply in_flat_map. exists k. auto.
Qed.

Lemma elems_prepend_In (f : nat) (new : list node) (t : node) (e : elem) :
  In e (elems (prepend_to f new t)) <->
  In e (elems t) \/ (In f (node_ids t) /\ In e (forest_elems new)).
Proof.
  induction t as [x ks IH] using node_ind. unfold node_ids. simpl.
  rewrite flat_map_app, in_app_iff.
  assert (Hks : In e (flat_map elems (map (prepend_to f new) ks)) <->
                In e (flat_map elems ks) \/
                (In f (map nid (flat_map elems ks)) /\ In e (forest_elems new))).
  { induction IH as [|k r Hk Hr IHr]; simpl; [tauto|].
    rewrite !in_app_iff, map_app, in_app_iff, Hk, IHr. unfold node_ids. tauto. }
  rewrite Hks. destruct (Nat.eqb (nid x) f) eqn:E.
  - apply Nat.eqb_eq in E. fold (forest_elems new). tauto.
  - apply Nat.eqb_neq in E. simpl. tauto.
Qed.

Lemma elems_insert_all (l : list (nat * list node)) (t : node) (e : elem) :
  In e (elems (insert_all l t)) ->
  In e (elems t) \/ exists p, In p l /\ In e (forest_elems (snd p)).
Proof.
  unfold insert_all. revert t. induction l as [|p l IH]; intros t; simpl; auto.
  intros H. apply IH in H. destruct H as [H|[p' [Hp He]]].
  - apply elems_prepend_In in H. destruct H as [H|[_ H]]; eauto.
  - eauto.
Qed.

Lemma elems_insert_all_old (l : list (nat * list node)) (t : node) (e : elem) :
  In e (elems t) -> In e (elems (insert_all l t)).
Proof.
  unfold insert_all. revert t. induction l as [|p l IH]; intros t; simpl; auto.
  intros H. apply IH. apply elems_prepend_In. auto.
Qed.

Lemma copies_fresh (m : nat) (x : list node) (targets : list nat) (n : nat) :
  (forall i, In i (forest_ids x) -> m <= i) -> m <= n ->
  forall p, In p (fst (copies targets x n)) ->
  forall i, In i (forest_ids (snd p)) -> m <= i.
Proof.
  intros Hx. revert n. induction targets as [|t r IH]; intros n Hn p Hp i Hi.
  - contradiction.
  - simpl in Hp. destruct r as [|t' r'].
    + simpl in Hp. destruct Hp as [<-|[]]. auto.
    + destruct (copies (t' :: r') x (n + forest_size x)) as [l n'] eqn:E.
      simpl in Hp. destruct Hp as [<-|Hp].
      * simpl in Hi. rewrite forest_ids_renum in Hi. apply in_seq in Hi. lia.
      * apply (IH (n + forest_size x)) with (p := p); auto; [lia|].
        rewrite E. exact Hp.
Qed.

(** The document after the error path of the check: the marks, the
    hidden messages, and the banners, whose identities are new. *)
Lemma validate_click_doc (formEl : list nat) (w : world) (prevented : bool) :
  partial_fill formEl (doc w) = true ->
  exists l,
    doc (fst (validate_click formEl (w, prevented))) =
    insert_all l
      (update (ids_of (jq_find formEl (by_class "form-message")
                         (update (ids_of (rev formEl (doc w))) mark (doc w)))) hide
         (update (ids_of (rev formEl (doc w))) mark (doc w))) /\
    forall p, In p l -> forall i, In i (forest_ids (snd p)) -> next_id w <= i.
Proof.
  intros Hp. unfold validate_click. rewrite Hp. cbn [fst doc on_doc with_doc].
  match goal with |- context [if ?c then _ else _] => destruct c end.
  - unfold create, prepend_all. cbn [next_id with_next_id on_doc with_doc doc].
    destruct (copies formEl _ _) as [l n] eqn:E.
    exists l. split; [reflexivity|].
    intros p Hin. eapply copies_fresh; [| |rewrite E; exact Hin].
    + intros i Hi. rewrite forest_ids_renum in Hi. apply in_seq in Hi. lia.
    + lia.
  - exists []. split; [reflexivity|]. intros p [].
Qed.

Lemma hasClass_addClass (c : string) (e : elem) : hasClass c (addClass c e) = true.
Proof.
  unfold addClass. destruct (hasClass c e) eqn:E; auto.
  unfold hasClass. simpl. rewrite existsb_app. simpl.
  rewrite String.eqb_refl. rewrite orb_true_r. reflexivity.
Qed.

Lemma hasClass_removeClass (c : string) (e : elem) : hasClass c (removeClass c e) = false.
Proof.
  unfold hasClass, removeClass. simpl.
  induction (classes e) as [|a l IH]; simpl; auto.
  destruct (String.eqb c a) eqn:E; simpl; auto. rewrite E. auto.
Qed.

Lemma hasClass_addClass_other (c k : string) (e : elem) :
  c <> k -> hasClass c (addClass k e) = hasClass c e.
Proof.
  intros Hc. unfold addClass. destruct (hasClass k e); auto.
  unfold hasClass. simpl. rewrite existsb_app. simpl.
  apply String.eqb_neq in Hc. rewrite Hc. rewrite !orb_false_r. reflexivity.
Qed.

Lemma hasClass_removeClass_other (c k : string) (e : elem) :
  c <> k -> hasClass c (removeClass k e) = hasClass c e.
Proof.
  intros Hc. unfold hasClass, removeClass. simpl.
  induction (classes e) as [|a l IH]; simpl; auto.
  destruct (String.eqb k a) eqn:E; simpl.
  - apply String.eqb_eq in E. subst a.
    apply String.eqb_neq in Hc. rewrite Hc. auto.
  - rewrite IH. reflexivity.
Qed.

Lemma hasClass_mark_other (c : string) (e : elem) :
  c <> "not-valid" -> hasClass c (mark e) = hasClass c e.
Proof.
  intros Hc. unfold mark. destruct (String.eqb (val e) EmptyString).
  - apply hasClass_addClass_other; auto.
  - apply hasClass_removeClass_other; auto.
Qed.

Lemma mark_spec (e : elem) :
  nid (mark e) = nid e /\ value (mark e) = value e /\
  (hasClass "not-valid" (mark e) = true <-> val e = EmptyString).
Proof.
  unfold mark. destruct (String.eqb (val e) EmptyString) eqn:E.
  - apply String.eqb_eq in E. rewrite hasClass_addClass.
    unfold addClass. destruct (hasClass "not-valid" e); simpl; tauto.
  - apply String.eqb_neq in E. rewrite hasClass_removeClass. simpl.
    repeat split; auto; intros; congruence.
Qed.

Lemma rev_in_doc (formEl : list nat) (d : node) (e : elem) :
  In e (rev formEl d) -> In e (elems d).
Proof.
  unfold rev, allInputs, jq_find. intros H. apply filter_In in H.
  destruct H as [H _]. eapply find_In_elems; eauto.
Qed.

(** C3, as the code has it.  When the partial-fill condition holds,
    the marks are recomputed from the current values: afterwards every
    revision field is still in the document and carries the
    invalid-state class exactly when [.val()] reads an empty value.
    When the condition does not hold, the click changes nothing, so
    the marks of an earlier attempt stay. *)
Theorem validate_click_marks (formEl : list nat) (w : world) (prevented : bool) :
  wf_world w = true ->
  (partial_fill formEl (doc w) = true ->
   (forall e, In e (rev formEl (doc w)) ->
              In (nid e) (node_ids (doc (fst (validate_click formEl (w, prevented)))))) /\
   (forall e', In e' (elems (doc (fst (validate_click formEl (w, prevented))))) ->
               In (nid e') (ids_of (rev formEl (doc w))) ->
               (hasClass "not-valid" e' = true <-> val e' = EmptyString))) /\
  (partial_fill formEl (doc w) = false ->
   validate_click formEl (w, prevented) = (w, prevented)).
Proof.
  intros Hwf. apply wf_world_spec in Hwf. destruct Hwf as [_ Hlt]. split.
  - intros Hp. destruct (validate_click_doc formEl w prevented Hp) as [l [-> Hl]].
    set (ids1 := ids_of (rev formEl (doc w))).
    set (d1 := update ids1 mark (doc w)).
    set (ids2 := ids_of (jq_find formEl (by_class "form-message") d1)).
    split.
    + intros e He. unfold node_ids.
      assert (H : In (nid e) (map nid (elems (update ids2 hide d1)))).
      { fold (node_ids (update ids2 hide d1)).
        rewrite node_ids_update by reflexivity. unfold d1.
        rewrite node_ids_update by (intros x; apply mark_spec).
        unfold node_ids. apply in_map. eapply rev_in_doc; eauto. }
      apply in_map_iff in H. destruct H as [x [Ex Hx]].
      rewrite <- Ex. apply in_map. apply elems_insert_all_old. exact Hx.
    + intros e' He' Hid.
      apply elems_insert_all in He'. destruct He' as [He'|[p [Hin He']]].
      * rewrite elems_update in He'. unfold d1 in He'. rewrite elems_update in He'.
        rewrite map_map in He'. apply in_map_iff in He'.
        destruct He' as [e0 [E He0]].
        destruct (mark_spec e0) as [Mn [Mv Mc]].
        assert (M : mem (nid e0) ids1 = true).
        { apply mem_In. subst e'.
          destruct (mem (nid e0) ids1) eqn:M1; [apply mem_In; auto|].
          destruct (mem (nid e0) ids2); exact Hid. }
        rewrite M in E.
        assert (V : val (mark e0) = val e0) by (unfold val; rewrite Mv; reflexivity).
        subst e'. destruct (mem (nid (mark e0)) ids2); [|rewrite V; exact Mc].
        change (hasClass "not-valid" (hide (mark e0))) with (hasClass "not-valid" (mark e0)).
        change (val (hide (mark e0))) with (val (mark e0)). rewrite V. exact Mc.
      * exfalso. unfold ids_of in Hid. apply in_map_iff in Hid.
        destruct Hid as [e [En He]]. apply rev_in_doc in He.
        assert (nid e < next_id w) by (apply Hlt; unfold node_ids; apply in_map; auto).
        assert (next_id w <= nid e').
        { eapply Hl; eauto. unfold forest_ids. apply in_map. exact He'. }
        lia.
  - intros Hp. unfold validate_click. rewrite Hp. reflexivity.
Qed.

(** *** Identities after the check, for a single form *)

Lemma cnt_renum (q : elem -> bool) (n : nat) (t : node) :
  (forall k e, q (set_nid k e) = q e) ->
  cnt q (elems (renum n t)) = cnt q (elems t).
Proof.
  intros Hq. revert n. induction t as [e ks IH] using node_ind. intros n.
  rewrite renum_unfold. cbn [elems]. rewrite !cnt_cons, Hq. f_equal.
  generalize (S n). clear n.
  induction IH as [|k r Hk Hr IHr]; intros m; auto. cbn [renum_forest flat_map].
  rewrite !cnt_app, Hk, IHr. reflexivity.
Qed.

Lemma cnt_renum_forest (q : elem -> bool) (n : nat) (f : list node) :
  (forall k e, q (set_nid k e) = q e) ->
  cnt q (forest_elems (renum_forest n f)) = cnt q (forest_elems f).
Proof.
  intros Hq. revert n. unfold forest_elems.
  induction f as [|k r IH]; intros n; auto. cbn [renum_forest flat_map].
  rewrite !cnt_app, cnt_renum, IH; auto.
Qed.

Lemma cnt_has_nid_seq (i n len : nat) (l : list elem) :
  map nid l = seq n len -> cnt (has_nid i) l <= 1 /\ (i < n -> cnt (has_nid i) l = 0).
Proof.
  intros H. split.
  - apply NoDup_cnt. rewrite H. apply seq_NoDup.
  - intros Hi. rewrite cnt_has_nid, H.
    apply (count_occ_not_In Nat.eq_dec). rewrite in_seq. lia.
Qed.

Lemma prepend_wf (f : nat) (x : list node) (n : nat) (d : node) :
  NoDup (node_ids d) -> (forall i, In i (node_ids d) -> i < n) ->
  NoDup (node_ids (prepend_to f (renum_forest n x) d)) /\
  (forall i, In i (node_ids (prepend_to f (renum_forest n x) d)) ->
             i < n + forest_size x).
Proof.
  intros Hnd Hlt.
  pose proof (forest_ids_renum n x) as Hseq. unfold forest_ids in Hseq.
  split.
  - apply NoDup_cnt. intros i. rewrite elems_prepend_cnt.
    destruct (cnt_has_nid_seq i _ _ _ Hseq) as [H1 H0].
    assert (Hf : cnt (has_nid f) (elems d) <= 1) by (apply NoDup_cnt; auto).
    assert (Hi : cnt (has_nid i) (elems d) <= 1) by (apply NoDup_cnt; auto).
    destruct (Nat.lt_ge_cases i n) as [L|G].
    + rewrite (H0 L). lia.
    + assert (Z : cnt (has_nid i) (elems d) = 0).
      { rewrite cnt_has_nid. apply (count_occ_not_In Nat.eq_dec).
        intros X. apply Hlt in X. lia. }
      rewrite Z. nia.
  - intros i Hi. unfold node_ids in Hi. apply in_map_iff in Hi.
    destruct Hi as [e [E He]]. apply elems_prepend_In in He.
    destruct He as [He|[_ He]].
    + assert (i < n); [|lia]. apply Hlt. subst i. unfold node_ids. apply in_map. auto.
    + assert (X : In i (seq n (forest_size x))).
      { rewrite <- Hseq. subst i. apply in_map. exact He. }
      apply in_seq in X. lia.
Qed.

(** The check on a single form [f]: the handlers are left alone, the
    world stays well formed, and a banner is added exactly when the
    partial-fill condition holds and the form has none. *)
Lemma validate_click_single (f : nat) (w : world) (prevented : bool) :
  wf_world w = true ->
  cnt (hasClass "error-input") (forest_elems (parseHTML (render errorinput_context))) = 1 ->
  wf_world (fst (validate_click [f] (w, prevented))) = true /\
  click_h (fst (validate_click [f] (w, prevented))) = click_h w /\
  deleg_h (fst (validate_click [f] (w, prevented))) = deleg_h w /\
  banners [f] (doc (fst (validate_click [f] (w, prevented)))) =
    (if partial_fill [f] (doc w) && Nat.eqb (banners [f] (doc w)) 0
     then 1 else banners [f] (doc w)) /\
  next_id (fst (validate_click [f] (w, prevented))) =
    (if partial_fill [f] (doc w) && Nat.eqb (banners [f] (doc w)) 0
     then next_id w + forest_size (parseHTML (render errorinput_context))
     else next_id w).
Proof.
  intros Hwf Htmpl. pose proof Hwf as Hwf0.
  apply wf_world_spec in Hwf. destruct Hwf as [Hnd Hlt].
  unfold validate_click.
  destruct (partial_fill [f] (doc w)) eqn:Hp; [|repeat split; auto].
  cbn [fst doc on_doc with_doc andb].
  set (ids1 := ids_of (rev [f] (doc w))).
  set (d1 := update ids1 mark (doc w)).
  set (ids2 := ids_of (jq_find [f] (by_class "form-message") d1)).
  set (d2 := update ids2 hide d1).
  assert (Hids : node_ids d2 = node_ids (doc w)).
  { unfold d2, d1. rewrite node_ids_update by reflexivity.
    apply node_ids_update. intros x. apply mark_spec. }
  assert (Hb : banners [f] d2 = banners [f] (doc w)).
  { unfold banners, jq_find, d2, d1.
    change (by_class "error-input") with (fun _ : bool => hasClass "error-input").
    rewrite (find_update_len [f] (hasClass "error-input") ids2 hide false false false);
      try reflexivity.
    apply find_update_len.
    - intros e. apply hasClass_mark_other. discriminate.
    - intros e. apply mark_spec. }
  change (List.length (jq_find [f] (by_class "error-input") d2))
    with (banners [f] d2).
  rewrite Hb.
  destruct (Nat.eqb (banners [f] (doc w)) 0) eqn:B.
  - set (n := next_id w). set (x := parseHTML (render errorinput_context)).
    destruct (prepend_wf f x n d2) as [Hnd' Hlt'].
    { rewrite Hids. exact Hnd. }
    { rewrite Hids. exact Hlt. }
    split; [|split; [reflexivity|split; [reflexivity|split; [|reflexivity]]]].
    + apply wf_world_spec. split; [exact Hnd'|exact Hlt'].
    + change (List.length (find [f] (fun _ : bool => hasClass "error-input") false false
                             (prepend_to f (renum_forest n x) d2)) = 1).
      rewrite find_prepend_len.
      change (List.length (find [f] (fun _ : bool => hasClass "error-input") false false d2))
        with (banners [f] d2).
      rewrite Hb. apply Nat.eqb_eq in B. rewrite B.
      rewrite cnt_renum_forest by reflexivity. fold x in Htmpl. rewrite Htmpl.
      assert (Hf : cnt (has_nid f) (elems d2) = 1).
      { rewrite cnt_has_nid. fold (node_ids d2). rewrite Hids.
        apply NoDup_count_occ'; auto.
        unfold partial_fill in Hp. apply andb_true_iff in Hp. destruct Hp as [_ Hp].
        apply Nat.ltb_lt in Hp.
        destruct (rev [f] (doc w)) as [|e r] eqn:R; [simpl in Hp; lia|].
        assert (He : In e (rev [f] (doc w))) by (rewrite R; left; reflexivity).
        unfold rev, allInputs, jq_find in He. apply filter_In in He.
        destruct He as [He _]. apply find_ctx_in_doc in He.
        destruct He as [i [[<-|[]] Hi]]. exact Hi. }
      rewrite Hf. reflexivity.
  - split; [|split; [reflexivity|split; [reflexivity|split; [|reflexivity]]]].
    + apply wf_world_spec. split.
      * change (NoDup (node_ids d2)). rewrite Hids. exact Hnd.
      * change (forall i, In i (node_ids d2) -> i < next_id w).
        rewrite Hids. exact Hlt.
    + exact Hb.
Qed.

(** C6.  On a form that holds at most one banner, the error path
    leaves exactly one banner; running the check again without
    removing it leaves exactly one banner in the form, and creates no
    node. *)
Theorem banner_inserted_once (f : nat) (w : world) (p1 p2 : bool) :
  wf_world w = true ->
  cnt (hasClass "error-input") (forest_elems (parseHTML (render errorinput_context))) = 1 ->
  partial_fill [f] (doc w) = true ->
  banners [f] (doc w) <= 1 ->
  banners [f] (doc (fst (validate_click [f] (w, p1)))) = 1 /\
  banners [f] (doc (fst (validate_click [f] (fst (validate_click [f] (w, p1)), p2)))) = 1 /\
  next_id (fst (validate_click [f] (fst (validate_click [f] (w, p1)), p2))) =
    next_id (fst (validate_click [f] (w, p1))).
Proof.
  intros Hwf Htmpl Hp Hb.
  destruct (validate_click_single f w p1 Hwf Htmpl) as [Hwf1 [_ [_ [Hb1 _]]]].
  rewrite Hp in Hb1.
  assert (Hb1' : banners [f] (doc (fst (validate_click [f] (w, p1)))) = 1).
  { rewrite Hb1. cbn [andb]. destruct (Nat.eqb (banners [f] (doc w)) 0) eqn:E; auto.
    apply Nat.eqb_neq in E. lia. }
  clear Hb1. rename Hb1' into Hb1.
  destruct (validate_click_single f _ p2 Hwf1 Htmpl) as [_ [_ [_ [Hb2 Hn2]]]].
  rewrite Hb1 in Hb2, Hn2. change (Nat.eqb 1 0) with false in Hb2, Hn2.
  rewrite andb_false_r in Hb2, Hn2. auto.
Qed.

(** *** Clicks *)

Lemma path_to_shape (i : nat) (t : node) :
  path_to i t = [] \/ exists up, path_to i t = i :: up.
Proof.
  induction t as [e ks IH] using node_ind. simpl.
  destruct (Nat.eqb (nid e) i); [right; eauto|].
  assert (H : flat_map (path_to i) ks = [] \/
              exists up, flat_map (path_to i) ks = i :: up).
  { induction IH as [|k r Hk Hr IHr]; simpl; auto.
    destruct Hk as [->|[up ->]]; simpl; eauto. }
  destruct H as [->|[up ->]]; simpl; eauto.
Qed.

Lemma path_to_nonempty (i : nat) (t : node) :
  In i (node_ids t) -> path_to i t <> [].
Proof.
  induction t as [e ks IH] using node_ind. unfold node_ids. simpl.
  destruct (Nat.eqb (nid e) i) eqn:E; [discriminate|].
  apply Nat.eqb_neq in E. intros [H|H]; [contradiction|].
  rewrite map_flat_map in H. apply in_flat_map in H. destruct H as [k [Hk Hi]].
  rewrite Forall_forall in IH. specialize (IH k Hk Hi).
  destruct (flat_map (path_to i) ks) as [|a l] eqn:F.
  - exfalso. destruct (path_to i k) as [|y l'] eqn:P; [contradiction|].
    assert (X : In y (flat_map (path_to i) ks)).
    { apply in_flat_map. exists k. rewrite P. simpl. auto. }
    rewrite F in X. contradiction.
  - destruct l; discriminate.
Qed.

Lemma path_to_count (i x : nat) (t : node) :
  count_occ Nat.eq_dec (path_to i t) x <= count_occ Nat.eq_dec (node_ids t) x.
Proof.
  induction t as [e ks IH] using node_ind. unfold node_ids. cbn [path_to elems map].
  assert (H : count_occ Nat.eq_dec (flat_map (path_to i) ks) x <=
              count_occ Nat.eq_dec (map nid (flat_map elems ks)) x).
  { induction IH as [|k r Hk Hr IHr]; simpl; auto.
    rewrite map_app, !count_occ_app. unfold node_ids in Hk. lia. }
  destruct (Nat.eqb (nid e) i) eqn:E.
  - apply Nat.eqb_eq in E. subst i. simpl.
    destruct (Nat.eq_dec (nid e) x); lia.
  - destruct (flat_map (path_to i) ks) as [|a l] eqn:F.
    + simpl. lia.
    + rewrite count_occ_app. cbn [count_occ] in *.
      destruct (Nat.eq_dec (nid e) x); destruct (Nat.eq_dec a x); lia.
Qed.

(** With distinct identities, the chain of a click starts at its
    target and does not come back to it. *)
Lemma path_to_target (i : nat) (t : node) :
  NoDup (node_ids t) -> In i (node_ids t) ->
  exists up, path_to i t = i :: up /\ ~ In i up.
Proof.
  intros Hnd Hin.
  destruct (path_to_shape i t) as [E|[up E]].
  - exfalso. eapply path_to_nonempty; eauto.
  - exists up. split; auto.
    pose proof (path_to_count i i t) as C. rewrite E in C.
    rewrite (proj1 (NoDup_count_occ' Nat.eq_dec _) Hnd i Hin) in C.
    simpl in C. destruct (Nat.eq_dec i i); [|congruence].
    apply (count_occ_not_In Nat.eq_dec). lia.
Qed.

Lemma validate_click_handlers (formEl : list nat) (s : world * bool) :
  click_h (fst (validate_click formEl s)) = click_h (fst s) /\
  deleg_h (fst (validate_click formEl s)) = deleg_h (fst s).
Proof.
  destruct s as [w p]. unfold validate_click.
  destruct (partial_fill formEl (doc w)); [|auto].
  match goal with |- context [if ?c then _ else _] => destruct c end; [|auto].
  unfold create, prepend_all. destruct (copies _ _ _). auto.
Qed.

Lemma iter_validate_click_handlers (formEl : list nat) (k : nat) (s : world * bool) :
  click_h (fst (Nat.iter k (validate_click formEl) s)) = click_h (fst s) /\
  deleg_h (fst (Nat.iter k (validate_click formEl) s)) = deleg_h (fst s).
Proof.
  induction k as [|k IH]; [auto|]. rewrite Nat.iter_succ.
  destruct (validate_click_handlers formEl (Nat.iter k (validate_click formEl) s)).
  destruct IH. split; congruence.
Qed.

Lemma run_same_handlers (h : handler) (this k : nat) (s : world * bool) :
  run_handlers (repeat (h, this) k) s = Nat.iter k (run_handler h this) s.
Proof.
  unfold run_handlers. revert s. induction k as [|k IH]; intros s; [reflexivity|].
  cbn [repeat fold_left fst snd]. rewrite IH.
  rewrite Nat.iter_succ_r. reflexivity.
Qed.

Lemma bubble_idle (path below : list nat) (s : world * bool) :
  (forall c bl, In c path -> handlers_at (fst s) bl c = []) ->
  bubble below path s = s.
Proof.
  revert below. induction path as [|c up IH]; intros below H; [reflexivity|].
  cbn [bubble]. rewrite (H c below) by (left; reflexivity).
  cbn [run_handlers fold_left]. apply IH.
  intros c' bl Hc. apply H. right. exact Hc.
Qed.

Lemma handlers_at_repeat (w : world) (b : nat) (h : handler) (k : nat)
    (bl : list nat) (c : nat) :
  deleg_h w = [] -> click_h w = repeat (b, h) k ->
  handlers_at w bl c = if Nat.eqb b c then repeat (h, c) k else [].
Proof.
  intros Hd Hc. unfold handlers_at. rewrite Hd, Hc.
  replace (flat_map _ bl) with (@nil (handler * nat)).
  2:{ induction bl; simpl; auto. }
  cbn [app]. clear Hc. induction k as [|k IH]; cbn [repeat flat_map fst snd].
  - destruct (Nat.eqb b c); reflexivity.
  - rewrite IH. destruct (Nat.eqb b c); reflexivity.
Qed.

Lemma concat_repeat_single {A} (x : A) (k : nat) : List.concat (repeat [x] k) = repeat x k.
Proof. induction k as [|k IH]; simpl; congruence. Qed.

Lemma concat_repeat_snoc {A} (l : list A) (k : nat) :
  List.concat (repeat l k) ++ l = List.concat (repeat l (S k)).
Proof.
  induction k as [|k IH]; simpl in *.
  - rewrite app_nil_r. reflexivity.
  - rewrite <- app_assoc, IH. reflexivity.
Qed.

(** Calling [validateForm] [k] times only adds handlers. *)
Lemma validateForm_iter (formContainer : list nat) (k : nat) (w : world) :
  doc (Nat.iter k (validateForm formContainer) w) = doc w /\
  next_id (Nat.iter k (validateForm formContainer) w) = next_id w /\
  tasks (Nat.iter k (validateForm formContainer) w) = tasks w /\
  resize_h (Nat.iter k (validateForm formContainer) w) = resize_h w /\
  deleg_h (Nat.iter k (validateForm formContainer) w) = deleg_h w /\
  click_h (Nat.iter k (validateForm formContainer) w) =
    click_h w ++
    List.concat (repeat
              (map (fun b => (b, HValidate
                                   (ids_of (jq_find formContainer
                                              (by_class "command_forcebuild") (doc w)))))
                   (ids_of (jq_find
                              (ids_of (jq_find formContainer
                                         (by_class "command_forcebuild") (doc w)))
                              (by_class "grey-btn") (doc w)))) k).
Proof.
  induction k as [|k IH].
  - cbn [Nat.iter nat_rect repeat List.concat]. rewrite app_nil_r. repeat split.
  - rewrite Nat.iter_succ. destruct IH as [Hd [Hn [Ht [Hr [Hg Hc]]]]].
    unfold validateForm at 1 3 5 7 9 11.
    cbn [bind_click emit with_click_h with_trace doc next_id tasks resize_h deleg_h click_h].
    rewrite Hd, Hc, <- app_assoc, concat_repeat_snoc. repeat split; assumption.
Qed.

Lemma iter_validate_click_banners (f : nat) (k : nat) (w : world) (p : bool) :
  wf_world w = true ->
  cnt (hasClass "error-input") (forest_elems (parseHTML (render errorinput_context))) = 1 ->
  banners [f] (doc w) <= 1 ->
  wf_world (fst (Nat.iter k (validate_click [f]) (w, p))) = true /\
  banners [f] (doc (fst (Nat.iter k (validate_click [f]) (w, p)))) <= 1.
Proof.
  intros Hwf Htmpl Hb. induction k as [|k [IHw IHb]]; [auto|].
  rewrite Nat.iter_succ.
  destruct (Nat.iter k (validate_click [f]) (w, p)) as [w' p']. cbn [fst] in *.
  destruct (validate_click_single f w' p' IHw Htmpl) as [H1 [_ [_ [H2 _]]]].
  split; auto. rewrite H2.
  destruct (partial_fill [f] (doc w') && Nat.eqb (banners [f] (doc w')) 0); lia.
Qed.

(** C9.  [validateForm] validates nothing and leaves the document
    alone when it is called: [k] calls bind [k] handlers on each
    primary action control.  On a page that has one force-build form
    with one such control, at most one banner and no other handler, a
    click on the control then runs the check [k] times, and at most
    one banner is in the form afterwards. *)
Theorem validateForm_registers_only (formContainer : list nat) (w : world) (k f b : nat) :
  (doc (Nat.iter k (validateForm formContainer) w) = doc w /\
   next_id (Nat.iter k (validateForm formContainer) w) = next_id w /\
   tasks (Nat.iter k (validateForm formContainer) w) = tasks w /\
   resize_h (Nat.iter k (validateForm formContainer) w) = resize_h w /\
   deleg_h (Nat.iter k (validateForm formContainer) w) = deleg_h w /\
   click_h (Nat.iter k (validateForm formContainer) w) =
     click_h w ++
     List.concat (repeat
               (map (fun b => (b, HValidate
                                    (ids_of (jq_find formContainer
                                               (by_class "command_forcebuild") (doc w)))))
                    (ids_of (jq_find
                               (ids_of (jq_find formContainer
                                          (by_class "command_forcebuild") (doc w)))
                               (by_class "grey-btn") (doc w)))) k)) /\
  (wf_world w = true ->
   cnt (hasClass "error-input") (forest_elems (parseHTML (render errorinput_context))) = 1 ->
   click_h w = [] -> deleg_h w = [] ->
   ids_of (jq_find formContainer (by_class "command_forcebuild") (doc w)) = [f] ->
   ids_of (jq_find [f] (by_class "grey-btn") (doc w)) = [b] ->
   banners [f] (doc w) <= 1 ->
   click_h (Nat.iter k (validateForm formContainer) w) = repeat (b, HValidate [f]) k /\
   click b (Nat.iter k (validateForm formContainer) w) =
     Nat.iter k (validate_click [f]) (Nat.iter k (validateForm formContainer) w, false) /\
   banners [f] (doc (fst (click b (Nat.iter k (validateForm formContainer) w)))) <= 1).
Proof.
  pose proof (validateForm_iter formContainer k w) as G. split; [exact G|].
  intros Hwf Htmpl Hc0 Hd0 Hform Hbtn Hban.
  destruct G as [Hd [Hn [_ [_ [Hg Hc]]]]].
  set (wk := Nat.iter k (validateForm formContainer) w) in *.
  rewrite Hform, Hbtn, Hc0 in Hc. cbn [map app] in Hc.
  rewrite concat_repeat_single in Hc. rewrite Hd0 in Hg.
  assert (Hwfk : wf_world wk = true).
  { unfold wf_world. rewrite Hd, Hn. exact Hwf. }
  assert (Hbk : banners [f] (doc wk) <= 1) by (rewrite Hd; exact Hban).
  assert (Hclick : click b wk = Nat.iter k (validate_click [f]) (wk, false)).
  { apply wf_world_spec in Hwfk. destruct Hwfk as [Hnd _].
    assert (Hin : In b (node_ids (doc wk))).
    { rewrite Hd. unfold ids_of, jq_find in Hbtn.
      destruct (find [f] (by_class "grey-btn") false false (doc w)) as [|e r] eqn:F;
        [discriminate|].
      injection Hbtn as <- _. unfold node_ids. apply in_map.
      apply (find_In_elems [f] (by_class "grey-btn") false false). rewrite F.
      left. reflexivity. }
    destruct (path_to_target b (doc wk) Hnd Hin) as [up [Hpath Hup]].
    unfold click. rewrite Hpath. cbn [bubble app fst].
    rewrite (handlers_at_repeat wk b (HValidate [f]) k [] b Hg Hc).
    rewrite Nat.eqb_refl. rewrite run_same_handlers.
    change (run_handler (HValidate [f]) b) with (validate_click [f]).
    apply bubble_idle. intros c bl Hcup.
    destruct (iter_validate_click_handlers [f] k (wk, false)) as [Hc' Hg'].
    cbn [fst] in Hc', Hg'.
    rewrite (handlers_at_repeat _ b (HValidate [f]) k bl c);
      [|rewrite Hg'; exact Hg|rewrite Hc'; exact Hc].
    destruct (Nat.eqb b c) eqn:E; [|reflexivity].
    apply Nat.eqb_eq in E. subst c. contradiction. }
  split; [exact Hc|]. split; [exact Hclick|].
  rewrite Hclick. apply iter_validate_click_banners; auto.
Qed.

(** *** Requests that fail *)

Lemma complete_failed (i : nat) (w : world) :
  doc (complete i Failed w) = doc w /\ trace (complete i Failed w) = trace w /\
  next_id (complete i Failed w) = next_id w /\
  click_h (complete i Failed w) = click_h w /\
  resize_h (complete i Failed w) = resize_h w.
Proof.
  unfold complete. destruct (nth_error (tasks w) i) as [k|]; [|auto].
  destruct k; repeat split.
Qed.

Lemma run_failures (js : list nat) (w : world) :
  doc (run (map (fun i => Complete i Failed) js) w) = doc w /\
  trace (run (map (fun i => Complete i Failed) js) w) = trace w.
Proof.
  unfold run. revert w. induction js as [|j js IH]; intros w; [auto|].
  cbn [map fold_left step]. destruct (IH (complete j Failed w)) as [-> ->].
  destruct (complete_failed j w) as [-> [-> _]]. auto.
Qed.

Lemma elems_append_body (new : list node) (d : node) :
  elems (append_body new d) = elems d ++ forest_elems new.
Proof.
  destruct d as [e ks]. simpl. rewrite flat_map_app. reflexivity.
Qed.

Lemma elems_show_body (d : node) : map nid (elems (show_body d)) = map nid (elems d).
Proof. destruct d as [e ks]. reflexivity. Qed.

(** *** Nodes that stay attached *)

Lemma root_update_nid (ids : list nat) (f : elem -> elem) (t : node) :
  (forall e, nid (f e) = nid e) -> nid (root (update ids f t)) = nid (root t).
Proof.
  intros Hf. destruct t as [e ks]. simpl. destruct (mem (nid e) ids); auto.
Qed.

Lemma roots_map_same (g : node -> node) (l : list node) :
  (forall k, nid (root (g k)) = nid (root k)) -> roots (map g l) = roots l.
Proof.
  intros Hg. unfold roots. rewrite map_map. apply map_ext. exact Hg.
Qed.

Lemma roots_app (l1 l2 : list node) : roots (l1 ++ l2) = roots l1 ++ roots l2.
Proof. unfold roots. apply map_app. Qed.

Lemma attached_update (P ids : list nat) (f : elem -> elem) (d : node) :
  (forall e, nid (f e) = nid e) -> attached P d -> attached P (update ids f d).
Proof.
  intros Hf H p Hp. destruct d as [e ks]. cbn [update kids].
  rewrite roots_map_same by (intros k; apply root_update_nid; exact Hf).
  apply H. exact Hp.
Qed.

Lemma attached_prepend_to (P : list nat) (i : nat) (new : list node) (d : node) :
  attached P d -> attached P (prepend_to i new d).
Proof.
  intros H p Hp. destruct d as [e ks]. cbn [prepend_to kids].
  rewrite roots_app. apply in_app_iff. right.
  rewrite roots_map_same by (intros [e' ks']; reflexivity). apply H. exact Hp.
Qed.

Lemma attached_insert_all (P : list nat) (l : list (nat * list node)) (d : node) :
  attached P d -> attached P (insert_all l d).
Proof.
  unfold insert_all. revert d. induction l as [|a l IH]; intros d H; [exact H|].
  cbn [fold_left]. apply IH. apply attached_prepend_to. exact H.
Qed.

Lemma attached_append_to (P : list nat) (i : nat) (new : list node) (d : node) :
  attached P d -> attached P (append_to i new d).
Proof.
  intros H p Hp. destruct d as [e ks]. cbn [append_to kids].
  rewrite roots_app. apply in_app_iff. left.
  rewrite roots_map_same by (intros [e' ks']; reflexivity). apply H. exact Hp.
Qed.

Lemma attached_append_into (P target : list nat) (new : list node) (d : node) :
  attached P d -> attached P (append_into target new d).
Proof.
  destruct target; [auto|]. apply attached_append_to.
Qed.

Lemma attached_append_body (P : list nat) (new : list node) (d : node) :
  attached P d -> attached P (append_body new d).
Proof.
  intros H p Hp. destruct d as [e ks]. cbn [append_body kids].
  rewrite roots_app. apply in_app_iff. left. apply H. exact Hp.
Qed.

Lemma attached_show_body (P : list nat) (d : node) :
  attached P d -> attached P (show_body d).
Proof. destruct d. auto. Qed.

Lemma attached_new (x : list node) (d : node) : attached (roots x) (append_body x d).
Proof.
  intros p Hp. destruct d as [e ks]. cbn [append_body kids].
  rewrite roots_app. apply in_app_iff. right. exact Hp.
Qed.

Lemma attached_app (P Q : list nat) (d : node) :
  attached P d -> attached Q d -> attached (P ++ Q) d.
Proof.
  intros HP HQ p Hp. apply in_app_iff in Hp. destruct Hp; auto.
Qed.

(** [.remove()] only detaches the nodes it is called on. *)
Lemma attached_remove (P ids : list nat) (d : node) :
  (forall x, In x ids -> ~ In x P) -> attached P d -> attached P (remove ids d).
Proof.
  intros Hd H p Hp. specialize (H p Hp). destruct d as [e ks]. cbn [remove kids] in *.
  induction ks as [|k r IH]; [contradiction|].
  cbn [flat_map]. rewrite roots_app. apply in_app_iff.
  destruct H as [H|H].
  - left. destruct (mem (nid (root k)) ids) eqn:M.
    + exfalso. apply mem_In in M. apply (Hd _ M). rewrite H. exact Hp.
    + left. destruct k. exact H.
  - right. apply IH. exact H.
Qed.

Lemma safe_refl (P : list nat) (w : world) : safe P w w.
Proof.
  split; [auto|]. split; [lia|]. exists []. rewrite app_nil_r.
  split; [reflexivity|]. intros k [].
Qed.

(** A world that differs from [w] in its document, its fresh identity
    and its new operations only. *)
Lemma safe_intro (P : list nat) (w w' : world) (extra : list cont) :
  (attached P (doc w) -> attached P (doc w')) ->
  next_id w <= next_id w' ->
  tasks w' = tasks w ++ extra ->
  (forall k, In k extra -> forall x, In x (preloader_of k) -> next_id w <= x) ->
  safe P w w'.
Proof. intros A N T B. split; [exact A|]. split; [exact N|]. exists extra. auto. Qed.

Lemma fresh_roots (n : nat) (m : list node) (x : nat) :
  In x (roots (renum_forest n m)) -> n <= x /\ x < n + forest_size m.
Proof.
  intros H. apply roots_incl in H. rewrite forest_ids_renum in H.
  apply in_seq in H. lia.
Qed.

Lemma copies_next (targets : list nat) (x : list node) (n : nat) :
  n <= snd (copies targets x n).
Proof.
  revert n. induction targets as [|t r IH]; intros n; [simpl; lia|].
  cbn [copies]. destruct r as [|t' r']; [simpl; lia|].
  specialize (IH (n + forest_size x)).
  destruct (copies (t' :: r') x (n + forest_size x)) as [l n']. simpl in *. lia.
Qed.

Lemma same_repeat {A B} (c : B) (x : list A) (k : B) : In k (map (fun _ => c) x) -> k = c.
Proof. intros H. apply in_map_iff in H. destruct H as [_ [E _]]. auto. Qed.

(** A callback of [fadeIn] only makes its call. *)
Lemma callback_calls (c : cont) (w : world) :
  callback c w =
    with_trace (trace w ++
                match c with
                | KClosePopup x => [EClosePopup x]
                | KFocus => [EFocus (ids_of (getForm_buttons false (doc w)))]
                | _ => []
                end) w.
Proof.
  destruct w as [d n u c0 g r k tr].
  destruct c; unfold callback, closePopup, emit;
    cbn [with_trace trace doc next_id URL click_h deleg_h resize_h tasks];
    rewrite ?app_nil_r; reflexivity.
Qed.

Lemma fold_callback {A} (c : cont) (l : list A) (w : world) :
  fold_left (fun w _ => callback c w) l w =
    with_trace (trace w ++
                List.concat
                  (map (fun _ => match c with
                                 | KClosePopup x => [EClosePopup x]
                                 | KFocus => [EFocus (ids_of (getForm_buttons false (doc w)))]
                                 | _ => []
                                 end) l)) w.
Proof.
  revert w. induction l as [|a l IH]; intros w; cbn [fold_left map List.concat].
  - destruct w. unfold with_trace. cbn. rewrite app_nil_r. reflexivity.
  - rewrite IH, callback_calls. destruct w as [d n u c0 g r k tr].
    cbn [with_trace trace doc next_id URL click_h deleg_h resize_h tasks].
    rewrite <- app_assoc. reflexivity.
Qed.

(** What a fade-in with a callback does to the world. *)
Lemma fadeIn_callback (x : list nat) (c : cont) (w : world) :
  fadeIn x (Some c) w =
    mkWorld (update x show (doc w)) (next_id w) (URL w) (click_h w) (deleg_h w)
            (resize_h w)
            (tasks w ++ map (fun _ => c) (filter (fun i => is_hidden i (doc w)) x))
            (trace w ++ [EFadeIn x] ++
             List.concat
               (map (fun _ => match c with
                              | KClosePopup y => [EClosePopup y]
                              | KFocus =>
                                  [EFocus (ids_of (getForm_buttons false
                                                     (update x show (doc w))))]
                              | _ => []
                              end)
                    (filter (fun i => negb (is_hidden i (doc w))) x))).
Proof.
  unfold fadeIn. rewrite fold_callback. destruct w as [d n u c0 g r k tr].
  cbn [emit on_doc with_doc with_trace with_tasks trace doc next_id URL click_h deleg_h
       resize_h tasks].
  rewrite <- app_assoc. reflexivity.
Qed.

Ltac attached_tac :=
  repeat first
    [ assumption
    | apply attached_insert_all
    | apply attached_append_body
    | apply attached_show_body
    | apply attached_append_into
    | apply attached_append_to
    | apply attached_prepend_to
    | apply attached_update; [first [reflexivity | intros ?; apply mark_spec]|] ].

Ltac world_tac :=
  cbn [doc next_id tasks trace click_h deleg_h resize_h URL fst snd
       with_doc with_next_id with_click_h with_deleg_h with_resize_h with_tasks with_trace
       emit on_doc bind_click bind_resize delegate jCenter closePopup setFullName
       create request fadeIn].

Lemma safe_validate_click (P formEl : list nat) (s : world * bool) :
  safe P (fst s) (fst (validate_click formEl s)).
Proof.
  destruct s as [w p]. unfold validate_click.
  destruct (partial_fill formEl (doc w)); [|apply safe_refl].
  match goal with |- context [if ?c then _ else _] => destruct c end.
  - unfold prepend_all. world_tac.
    pose proof (copies_next formEl
                  (renum_forest (next_id w) (parseHTML (render errorinput_context)))
                  (next_id w + forest_size (parseHTML (render errorinput_context)))) as C.
    destruct (copies formEl _ _) as [l n]. world_tac. simpl in C.
    apply safe_intro with (extra := []); world_tac.
    + intros H. attached_tac.
    + lia.
    + rewrite app_nil_r. reflexivity.
    + intros k [].
  - apply safe_intro with (extra := []); world_tac.
    + intros H. attached_tac.
    + lia.
    + rewrite app_nil_r. reflexivity.
    + intros k [].
Qed.

Lemma safe_nonAjaxPopup (P thisEl : list nat) (w : world) :
  safe P w (nonAjaxPopup thisEl w).
Proof.
  unfold nonAjaxPopup, create, jCenter. rewrite fadeIn_callback. world_tac.
  eapply safe_intro; world_tac.
  - intros H. attached_tac.
  - lia.
  - reflexivity.
  - intros k Hk x Hx. apply same_repeat in Hk. subst k. destruct Hx.
Qed.

Lemma safe_pendingJobs (P : list nat) (url : string) (w : world) :
  safe P w (pendingJobs url w).
Proof.
  unfold pendingJobs. world_tac.
  eapply safe_intro; world_tac.
  - intros H. attached_tac.
  - lia.
  - reflexivity.
  - intros k [<-|[]] x Hx. cbn [preloader_of] in Hx. apply fresh_roots in Hx. lia.
Qed.

Lemma safe_codebasesBranches (P : list nat) (w : world) :
  safe P w (codebasesBranches w).
Proof.
  unfold codebasesBranches. world_tac.
  eapply safe_intro; world_tac.
  - intros H. attached_tac.
  - lia.
  - reflexivity.
  - intros k [<-|[]] x Hx. cbn [preloader_of] in Hx. apply fresh_roots in Hx. lia.
Qed.

Lemma safe_externalContentPopup (P thisEl : list nat) (w : world) :
  safe P w (externalContentPopup thisEl w).
Proof.
  unfold externalContentPopup. world_tac.
  eapply safe_intro; world_tac.
  - intros H. attached_tac.
  - lia.
  - reflexivity.
  - intros k [<-|[]] x Hx. cbn [preloader_of] in Hx. apply fresh_roots in Hx. lia.
Qed.

Lemma safe_run_handler (P : list nat) (h : handler) (this : nat) (s : world * bool) :
  safe P (fst s) (fst (run_handler h this s)).
Proof.
  destruct h; cbn [run_handler fst].
  - apply safe_nonAjaxPopup.
  - apply safe_pendingJobs.
  - apply safe_codebasesBranches.
  - apply safe_externalContentPopup.
  - apply safe_validate_click.
  - apply safe_intro with (extra := []); world_tac.
    + intros H. attached_tac.
    + lia.
    + rewrite app_nil_r. reflexivity.
    + intros k [].
Qed.

Lemma safe_pendingJobs_success (P preloader : list nat) (a : string) (data : jsval)
    (w : world) :
  (forall x, In x preloader -> ~ In x P) ->
  safe P w (pendingJobs_success preloader a data w).
Proof.
  intros Hd. unfold pendingJobs_success. world_tac.
  apply safe_intro with (extra := []); world_tac.
  - intros H. attached_tac. apply attached_remove; assumption.
  - lia.
  - rewrite app_nil_r. reflexivity.
  - intros k [].
Qed.

Lemma safe_codebasesBranches_done (P preloader mib : list nat) (data : string)
    (w : world) :
  (forall x, In x preloader -> ~ In x P) ->
  safe P w (codebasesBranches_done preloader mib data w).
Proof.
  intros Hd. unfold codebasesBranches_done.
  destruct (jq_string data) as [markup|].
  2:{ apply safe_intro with (extra := []); world_tac.
      - intros H. apply attached_remove; assumption.
      - lia.
      - rewrite app_nil_r. reflexivity.
      - intros k []. }
  unfold create, jCenter. cbn [doc on_doc with_doc next_id with_next_id].
  match goal with
  | |- context [match ?g with [] => _ | _ :: _ => _ end] => destruct g as [|g0 gs]
  end.
  - rewrite fadeIn_callback. world_tac.
    eapply safe_intro; world_tac.
    + intros H. attached_tac. apply attached_remove; assumption.
    + lia.
    + rewrite <- app_assoc. reflexivity.
    + intros k Hk x Hx. apply in_app_iff in Hk. destruct Hk as [Hk|[<-|[]]].
      * apply same_repeat in Hk. subst k. destruct Hx.
      * destruct Hx.
  - match goal with
    | |- context [copies ?t ?x ?n] =>
        pose proof (copies_next t x n) as C; destruct (copies t x n) as [l n']
    end.
    rewrite fadeIn_callback. world_tac. simpl in C.
    eapply safe_intro; world_tac.
    + intros H. attached_tac. apply attached_remove; assumption.
    + lia.
    + rewrite <- app_assoc. reflexivity.
    + intros k Hk x Hx. apply in_app_iff in Hk. destruct Hk as [Hk|[<-|[]]].
      * apply same_repeat in Hk. subst k. destruct Hx.
      * destruct Hx.
Qed.

Lemma safe_externalContentPopup_done (P preloader mib : list nat)
    (contentType : option string) (data : string) (w : world) :
  (forall x, In x preloader -> ~ In x P) ->
  safe P w (externalContentPopup_done preloader mib contentType data w).
Proof.
  intros Hd. unfold externalContentPopup_done, validateForm.
  destruct (jq_string data) as [markup|].
  2:{ apply safe_intro with (extra := []); world_tac.
      - intros H. apply attached_remove; assumption.
      - lia.
      - rewrite app_nil_r. reflexivity.
      - intros k []. }
  world_tac.
  destruct (js_is contentType "form"); world_tac;
    (apply safe_intro with (extra := []); world_tac;
     [ intros H; attached_tac; apply attached_remove; assumption
     | lia
     | rewrite app_nil_r; reflexivity
     | intros k [] ]).
Qed.

(** What is kept stays kept along safe steps. *)
Lemma kept_safe (P : list nat) (i : nat) (w w' : world) :
  kept P i w -> safe P w w' -> kept P i w'.
Proof.
  intros [A [B T]] [A' [N [extra [E F]]]]. split; [auto|]. split.
  - intros p Hp. specialize (B p Hp). lia.
  - intros j k Hj Hk x Hx Hin. rewrite E in Hk.
    destruct (Nat.lt_ge_cases j (List.length (tasks w))) as [L|G].
    + rewrite nth_error_app1 in Hk by exact L. eapply T; eauto.
    + rewrite nth_error_app2 in Hk by exact G. apply nth_error_In in Hk.
      specialize (F k Hk x Hx). specialize (B x Hin). lia.
Qed.

Lemma nth_error_set_nth {A} (i j : nat) (x : A) (l : list A) (y : A) :
  nth_error (set_nth i x l) j = Some y -> y = x \/ nth_error l j = Some y.
Proof.
  revert i j. induction l as [|a l IH]; intros i j H.
  - destruct i, j; simpl in H; discriminate.
  - destruct i as [|i]; destruct j as [|j]; simpl in *; auto.
    + injection H as <-. auto.
    + eapply IH; eauto.
Qed.

Lemma kept_over (P : list nat) (i j : nat) (w : world) :
  kept P i w -> kept P i (with_tasks (set_nth j KOver (tasks w)) w).
Proof.
  intros [A [B T]]. split; [exact A|]. split; [exact B|].
  intros j' k Hj Hk x Hx. cbn [tasks with_tasks] in Hk.
  apply nth_error_set_nth in Hk. destruct Hk as [->|Hk]; [destruct Hx|].
  eapply T; eauto.
Qed.

Lemma kept_complete (P : list nat) (i j : nat) (o : outcome) (w : world) :
  kept P i w -> answers i (Complete j o) = false -> kept P i (complete j o w).
Proof.
  intros K Ha. unfold complete.
  destruct (nth_error (tasks w) j) as [k|] eqn:E; [|exact K].
  pose proof (kept_over P i j w K) as K'.
  assert (D : (exists d, o = Json d) \/ (exists d, o = Text d) ->
              forall x, In x (preloader_of k) -> ~ In x P).
  { intros Ho. destruct K as [_ [_ T]]. apply (T j k); auto.
    intros ->. destruct Ho as [[d ->]|[d ->]]; simpl in Ha; rewrite Nat.eqb_refl in Ha;
      discriminate. }
  destruct k, o; try exact K'.
  - eapply kept_safe; [exact K'|]. apply safe_pendingJobs_success. eapply D; eauto.
  - eapply kept_safe; [exact K'|]. apply safe_codebasesBranches_done. eapply D; eauto.
  - eapply kept_safe; [exact K'|]. apply safe_externalContentPopup_done. eapply D; eauto.
Qed.

Lemma kept_run_handlers (P : list nat) (i : nat) (hs : list (handler * nat))
    (s : world * bool) :
  kept P i (fst s) -> kept P i (fst (run_handlers hs s)).
Proof.
  unfold run_handlers. revert s. induction hs as [|h hs IH]; intros s K; [exact K|].
  cbn [fold_left]. apply IH. eapply kept_safe; [exact K|]. apply safe_run_handler.
Qed.

Lemma kept_bubble (P : list nat) (i : nat) (path below : list nat) (s : world * bool) :
  kept P i (fst s) -> kept P i (fst (bubble below path s)).
Proof.
  revert below s. induction path as [|c up IH]; intros below s K; [exact K|].
  cbn [bubble]. apply IH. apply kept_run_handlers. exact K.
Qed.

Lemma kept_resize (P : list nat) (i : nat) (w : world) : kept P i w -> kept P i (resize w).
Proof.
  unfold resize. generalize (resize_h w). intros hs. revert w.
  induction hs as [|h hs IH]; intros w K; [exact K|].
  cbn [fold_left]. apply IH. eapply kept_safe; [exact K|].
  destruct h; cbn [run_resize];
    (apply safe_intro with (extra := []); world_tac; auto;
     [rewrite app_nil_r; reflexivity|intros k []]).
Qed.

Lemma kept_step (P : list nat) (i : nat) (ev : event) (w : world) :
  kept P i w -> answers i ev = false -> kept P i (step ev w).
Proof.
  intros K Ha. destruct ev as [t|t v| |j o]; cbn [step].
  - unfold click. apply kept_bubble. exact K.
  - eapply kept_safe; [exact K|].
    apply safe_intro with (extra := []); world_tac.
    + intros H. attached_tac.
    + lia.
    + rewrite app_nil_r. reflexivity.
    + intros k [].
  - apply kept_resize. exact K.
  - apply kept_complete; assumption.
Qed.

(** Whatever happens on the page, nodes that are kept for a request
    stay children of the body as long as the request is not answered. *)
Lemma kept_run (P : list nat) (i : nat) (evs : list event) (w : world) :
  kept P i w -> forallb (fun ev => negb (answers i ev)) evs = true ->
  kept P i (run evs w).
Proof.
  unfold run. revert w. induction evs as [|ev evs IH]; intros w K H; [exact K|].
  cbn [forallb] in H. apply andb_true_iff in H. destruct H as [H1 H2].
  apply negb_true_iff in H1. cbn [fold_left]. apply IH; [|exact H2].
  apply kept_step; assumption.
Qed.

Lemma tasks_below_spec (w : world) (j : nat) (k : cont) (x : nat) :
  tasks_below w = true -> nth_error (tasks w) j = Some k -> In x (preloader_of k) ->
  x < next_id w.
Proof.
  unfold tasks_below. intros H Hk Hx. rewrite forallb_forall in H.
  specialize (H k (nth_error_In _ _ Hk)). rewrite forallb_forall in H.
  apply Nat.ltb_lt. apply H. exact Hx.
Qed.

(** The nodes a flow has just created and appended are kept for the
    request it sends. *)
Lemma kept_new (P : list nat) (k : cont) (w w' : world) :
  tasks_below w = true ->
  attached P (doc w') -> tasks w' = tasks w ++ [k] ->
  (forall p, In p P -> next_id w <= p /\ p < next_id w') ->
  kept P (List.length (tasks w)) w'.
Proof.
  intros Hb A T B. split; [exact A|]. split; [intros p Hp; apply B; exact Hp|].
  intros j k' Hj Hk x Hx Hin. rewrite T in Hk.
  destruct (Nat.lt_ge_cases j (List.length (tasks w))) as [L|G].
  - rewrite nth_error_app1 in Hk by exact L.
    pose proof (tasks_below_spec w j k' x Hb Hk Hx). apply B in Hin. lia.
  - rewrite nth_error_app2 in Hk by exact G.
    destruct (j - List.length (tasks w)) as [|n] eqn:E; [lia|].
    destruct n; discriminate.
Qed.

(** C2, as the code has it.  The pending-jobs flow appends the
    preloader to the body and calls [.show()] on the body; its request
    has a success callback only.  So when the request fails, however
    often a failure is delivered (or if no answer ever comes), the
    document stays the page with the preloader appended and the body
    shown: nothing is removed and no popup is added.  And whatever else
    happens on the page, the preloader stays a child of the body as
    long as the request is not answered. *)
Theorem pendingJobs_request_fails (url : string) (w : world) (js : list nat) :
  let preloader := renum_forest (next_id w) (parseHTML (render preloader_context)) in
  let failures := map (fun i => Complete i Failed) js in
  nth_error (tasks (pendingJobs url w)) (List.length (tasks w)) =
    Some (KPendingJobs (roots preloader) (actionUrl_of (URL w))) /\
  doc (run failures (pendingJobs url w)) = show_body (append_body preloader (doc w)) /\
  (displayed (root (doc w)) = true ->
   doc (run failures (pendingJobs url w)) = append_body preloader (doc w)) /\
  trace (run failures (pendingJobs url w)) =
    trace w ++ [EConsoleLog (actionUrl_of (URL w));
                ERequest (JStr url) JUndefined (Some "json") false] /\
  (tasks_below w = true ->
   forall evs,
     forallb (fun ev => negb (answers (List.length (tasks w)) ev)) evs = true ->
     attached (roots preloader) (doc (run evs (pendingJobs url w)))).
Proof.
  intros preloader failures. unfold failures.
  destruct (run_failures js (pendingJobs url w)) as [-> ->].
  split; [|split; [reflexivity|split; [|split]]].
  - unfold pendingJobs. world_tac.
    rewrite nth_error_app2 by lia. rewrite Nat.sub_diag. reflexivity.
  - intros Hd. unfold pendingJobs. world_tac. fold preloader.
    destruct (doc w) as [e ks]. cbn in *. unfold show.
    destruct e; cbn in *. subst. reflexivity.
  - unfold pendingJobs. world_tac. rewrite <- app_assoc. reflexivity.
  - intros Hb evs Hevs.
    apply (kept_run (roots preloader) (List.length (tasks w)) evs (pendingJobs url w));
      [|exact Hevs].
    eapply kept_new; [exact Hb| | |].
    + unfold pendingJobs. world_tac. apply attached_show_body, attached_new.
    + unfold pendingJobs. world_tac. reflexivity.
    + intros p Hp. apply fresh_roots in Hp. unfold pendingJobs. world_tac. exact Hp.
Qed.

(** C10.  In the branch-selector and external-fragment flows the
    outer frame is in the body when the request is sent: each flow is
    the sending of its request from a world in which the preloader
    and the frame are already attached.  If the request fails or is
    never answered, both stay attached, the frame is as it was
    rendered, and nothing is faded in: the request is the only call
    the flow has made.  Whatever else happens on the page, preloader
    and frame stay children of the body as long as the request is not
    answered. *)
Theorem frame_attached_before_request (thisEl : list nat) (w : world) (js : list nat) :
  let preloader := renum_forest (next_id w) (parseHTML (render preloader_context)) in
  let n := next_id w + forest_size (parseHTML (render preloader_context)) in
  let mibE := renum_forest n (parseHTML (render (popupOuter_context
                (js_of_attr (jq_attr thisEl "data-popuptitle" (doc w)))))) in
  let mibC := renum_forest n (parseHTML (render (popupOuter_context
                (JStr "Select branches")))) in
  let urlE := JStr EmptyString in
  let dataE := JObj [("rt_update", js_of_attr (jq_attr thisEl "data-rt_update" (doc w)));
                     ("datab", js_of_attr (jq_attr thisEl "data-b" (doc w)));
                     ("dataindexb", js_of_attr (jq_attr thisEl "data-indexb" (doc w)))] in
  let urlC := js_of_attr (jq_attr (ids_of (jq_id "pathToCodeBases" (doc w))) "href"
                                  (doc w)) in
  let failures := map (fun i => Complete i Failed) js in
  let unanswered := forallb (fun ev => negb (answers (List.length (tasks w)) ev)) in
  (exists wm,
     externalContentPopup thisEl w =
       request urlE dataE None true
               (KExternal (roots preloader) (roots mibE)
                          (jq_attr thisEl "data-contenttype" (doc w))) wm /\
     trace wm = trace w /\ tasks wm = tasks w /\
     kids (doc wm) = kids (doc w) ++ preloader ++ mibE) /\
  (kids (doc (run failures (externalContentPopup thisEl w))) =
     kids (doc w) ++ preloader ++ mibE /\
   trace (run failures (externalContentPopup thisEl w)) =
     trace w ++ [ERequest urlE dataE None true]) /\
  (tasks_below w = true ->
   forall evs, unanswered evs = true ->
     attached (roots preloader ++ roots mibE)
              (doc (run evs (externalContentPopup thisEl w)))) /\
  (exists wm,
     codebasesBranches w =
       request urlC JUndefined None true
               (KCodebases (roots preloader) (roots mibC)) wm /\
     trace wm = trace w /\ tasks wm = tasks w /\
     kids (doc wm) = kids (doc w) ++ preloader ++ mibC) /\
  (kids (doc (run failures (codebasesBranches w))) =
     kids (doc w) ++ preloader ++ mibC /\
   trace (run failures (codebasesBranches w)) =
     trace w ++ [ERequest urlC JUndefined None true]) /\
  (tasks_below w = true ->
   forall evs, unanswered evs = true ->
     attached (roots preloader ++ roots mibC) (doc (run evs (codebasesBranches w)))).
Proof.
  intros preloader n mibE mibC urlE dataE urlC failures unanswered.
  assert (K : forall a b d, kids (append_body b (append_body a d)) = kids d ++ a ++ b).
  { intros a b [e ks]. simpl. rewrite <- app_assoc. reflexivity. }
  assert (K' : forall a b d,
             kids (append_body b (show_body (append_body a d))) = kids d ++ a ++ b).
  { intros a b [e ks]. simpl. rewrite <- app_assoc. reflexivity. }
  assert (B : forall mib p,
             In p (roots preloader ++ roots (renum_forest n mib)) ->
             next_id w <= p /\ p < n + forest_size mib).
  { intros mib p Hp. apply in_app_iff in Hp. destruct Hp as [Hp|Hp];
      apply fresh_roots in Hp; unfold n in *; lia. }
  split; [|split; [|split; [|split; [|split]]]].
  - eexists. split; [reflexivity|]. split; [reflexivity|]. split; [reflexivity|].
    apply K.
  - unfold failures. destruct (run_failures js (externalContentPopup thisEl w)) as [-> ->].
    split; [apply K|reflexivity].
  - intros Hb evs Hevs.
    apply (kept_run (roots preloader ++ roots mibE) (List.length (tasks w)) evs
                    (externalContentPopup thisEl w)); [|exact Hevs].
    eapply kept_new; [exact Hb| | |].
    + unfold externalContentPopup. world_tac. apply attached_app.
      * apply attached_append_body, attached_new.
      * apply attached_new.
    + unfold externalContentPopup. world_tac. reflexivity.
    + intros p Hp. unfold externalContentPopup. world_tac. apply (B _ p Hp).
  - eexists. split; [reflexivity|]. split; [reflexivity|]. split; [reflexivity|].
    apply K'.
  - unfold failures. destruct (run_failures js (codebasesBranches w)) as [-> ->].
    split; [apply K'|reflexivity].
  - intros Hb evs Hevs.
    apply (kept_run (roots preloader ++ roots mibC) (List.length (tasks w)) evs
                    (codebasesBranches w)); [|exact Hevs].
    eapply kept_new; [exact Hb| | |].
    + unfold codebasesBranches. world_tac. apply attached_app.
      * apply attached_append_body, attached_show_body, attached_new.
      * apply attached_new.
    + unfold codebasesBranches. world_tac. reflexivity.
    + intros p Hp. unfold codebasesBranches. world_tac. apply (B _ p Hp).
Qed.

(** *** Requests that succeed *)

Lemma remove_fresh (ids : list nat) (t : node) :
  (forall i, In i (node_ids t) -> ~ In i ids) -> remove ids t = t.
Proof.
  induction t as [e ks IH] using node_ind. intros H. simpl. f_equal.
  assert (Hks : forall k, In k ks -> forall i, In i (node_ids k) -> ~ In i ids).
  { intros k Hk i Hi. apply H. unfold node_ids in *. simpl. right.
    rewrite map_flat_map. apply in_flat_map. exists k. auto. }
  clear H. induction IH as [|k r Hk Hr IHr]; simpl; auto.
  replace (mem (nid (root k)) ids) with false.
  2:{ symmetry. apply mem_false. apply (Hks k); [left; reflexivity|].
      destruct k; unfold node_ids; simpl; auto. }
  simpl. rewrite Hk, IHr; auto.
  - intros k' Hk' i Hi. apply (Hks k'); auto. right. exact Hk'.
  - apply Hks. left. reflexivity.
Qed.

Lemma remove_listed (l : list nat) (x : list node) :
  (forall k, In k x -> In (nid (root k)) l) ->
  flat_map (fun k => if mem (nid (root k)) l then [] else [remove l k]) x = [].
Proof.
  induction x as [|a x IH]; intros H; simpl; auto.
  replace (mem (nid (root a)) l) with true.
  - apply IH. intros k Hk. apply H. right. exact Hk.
  - symmetry. apply mem_In. apply H. left. reflexivity.
Qed.

Lemma remove_appended (x : list node) (d : node) :
  (forall i, In i (node_ids d) -> ~ In i (roots x)) ->
  remove (roots x) (append_body x d) = d.
Proof.
  intros H. destruct d as [e ks]. simpl. f_equal. rewrite flat_map_app.
  assert (Hx : flat_map (fun k => if mem (nid (root k)) (roots x) then []
                                  else [remove (roots x) k]) x = []).
  { apply remove_listed. intros k Hk. unfold roots.
    apply (in_map (fun k => nid (root k))). exact Hk. }
  rewrite Hx, app_nil_r.
  assert (R : remove (roots x) (Node e ks) = Node e ks) by (apply remove_fresh; exact H).
  simpl in R. injection R as R. exact R.
Qed.

Lemma remove_show_body (ids : list nat) (d : node) :
  remove ids (show_body d) = show_body (remove ids d).
Proof. destruct d as [e ks]. reflexivity. Qed.

Lemma wf_fresh_roots (w : world) (x : list node) (n : nat) :
  wf_world w = true -> next_id w <= n ->
  forall i, In i (node_ids (doc w)) -> ~ In i (forest_ids (renum_forest n x)).
Proof.
  intros Hwf Hn i Hi Hx. apply wf_world_spec in Hwf. destruct Hwf as [_ Hlt].
  apply Hlt in Hi. rewrite forest_ids_renum in Hx. apply in_seq in Hx. lia.
Qed.

(** C4, as the code has it.  For a trigger with builder name [b] the
    endpoint is [scheme://host/json/buildqueue?builder=b]; when the
    request succeeds with the JSON value [D], no node of the preloader
    is left in the document, and what is appended to the body is the
    template rendered against the object with the two fields
    [pendingJobs], holding [D], and [actionUrl]. *)
Theorem pendingJobs_endpoint_and_context (this : nat) (b : string) (u : address)
    (D : jsval) (w : world) :
  wf_world w = true ->
  wf_address u = true ->
  URL w = serialize u ->
  jq_attr [this] "data-builderName" (doc w) = Some b ->
  let url := a_scheme u +++ ":" +++ "//" +++ a_host u +++
             "/json/buildqueue?builder=" +++ b in
  let preloader := renum_forest (next_id w) (parseHTML (render preloader_context)) in
  let context := pendingJobs_context D (actionUrl_of (URL w)) in
  let mustacheTmpl :=
    renum_forest (next_id w + forest_size (parseHTML (render preloader_context)))
                 (parseHTML (render context)) in
  let w2 := complete (List.length (tasks w)) (Json D) (pendingJobs url w) in
  run_handler HPending this (w, false) = (pendingJobs url w, true) /\
  (forall i, In i (forest_ids preloader) -> ~ In i (node_ids (doc w2))) /\
  doc w2 = update (roots mustacheTmpl) show
                  (append_body mustacheTmpl (show_body (doc w))) /\
  (forall k, js_get k context =
             if String.eqb k "actionUrl" then Some (JStr (actionUrl_of (URL w)))
             else if String.eqb k "pendingJobs" then Some D
             else None).
Proof.
  intros Hwf Hu HURL Hb url preloader context mustacheTmpl w2.
  assert (Hdoc : doc w2 = update (roots mustacheTmpl) show
                            (append_body mustacheTmpl (show_body (doc w)))).
  { unfold w2, complete, pendingJobs, create, request.
    cbn [doc tasks trace with_tasks emit with_trace on_doc with_doc with_next_id URL next_id].
    rewrite nth_error_app2 by lia. rewrite Nat.sub_diag. cbn [nth_error].
    unfold pendingJobs_success, create, jCenter, fadeIn, closePopup.
    cbn [doc tasks trace with_tasks emit with_trace on_doc with_doc with_next_id URL next_id].
    fold preloader. rewrite remove_show_body, remove_appended.
    - reflexivity.
    - intros i Hi Hr. apply roots_incl in Hr.
      eapply wf_fresh_roots; eauto. }
  split; [|split; [|split]].
  - cbn [run_handler fst]. unfold buildqueue_url. rewrite HURL.
    destruct (parse_serialize u Hu) as [-> [-> _]]. rewrite Hb.
    unfold url. cbn [js_concat_attr]. rewrite append_assoc_s. reflexivity.
  - intros i Hi Hin. rewrite Hdoc in Hin.
    rewrite node_ids_update in Hin by reflexivity.
    unfold node_ids in Hin. rewrite elems_append_body, map_app in Hin.
    rewrite elems_show_body in Hin.
    unfold preloader in Hi. rewrite forest_ids_renum in Hi. apply in_seq in Hi.
    apply in_app_iff in Hin. destruct Hin as [Hin|Hin].
    + apply wf_world_spec in Hwf. destruct Hwf as [_ Hlt]. apply Hlt in Hin. lia.
    + fold (forest_ids mustacheTmpl) in Hin. unfold mustacheTmpl in Hin.
      rewrite forest_ids_renum in Hin. apply in_seq in Hin. lia.
  - exact Hdoc.
  - intros k. unfold context, pendingJobs_context. cbn [js_get lookup_field].
    destruct (String.eqb k "actionUrl") eqn:E1; [reflexivity|].
    destruct (String.eqb k "pendingJobs"); reflexivity.
Qed.

Lemma js_is_spec (o : option string) (s : string) : js_is o s = true <-> o = Some s.
Proof.
  destruct o as [v|]; simpl.
  - rewrite String.eqb_eq. split; congruence.
  - split; discriminate.
Qed.

(** What is appended to the content slot is found below it. *)
Lemma find_append_In (c : nat) (q : elem -> bool) (new : list node) (h : bool)
    (t : node) (e : elem) :
  In c (node_ids t) -> In e (forest_elems new) -> q e = true ->
  In e (find [c] (fun _ => q) false h (append_to c new t)).
Proof.
  intros Hc He Hq. revert h Hc.
  induction t as [x ks IH] using node_ind. intros h Hc.
  cbn [append_to find andb app].
  assert (M : mem (nid x) [c] = Nat.eqb (nid x) c).
  { unfold mem. simpl. rewrite Nat.eqb_sym. apply orb_false_r. }
  rewrite M. cbn [orb]. apply in_flat_map.
  destruct (Nat.eqb (nid x) c) eqn:E.
  - unfold forest_elems in He. apply in_flat_map in He. destruct He as [k [Hk He]].
    exists k. split; [apply in_app_iff; right; exact Hk|].
    rewrite find_inside. apply filter_In. auto.
  - apply Nat.eqb_neq in E. unfold node_ids in Hc. simpl in Hc.
    destruct Hc as [Hc|Hc]; [contradiction|].
    rewrite map_flat_map in Hc. apply in_flat_map in Hc. destruct Hc as [k [Hk Hc]].
    exists (append_to c new k). split.
    + apply in_app_iff. left. apply in_map. exact Hk.
    + rewrite Forall_forall in IH. apply IH; auto.
Qed.

(** C8.  The external-fragment flow keeps the [contenttype] of its
    trigger with the request.  When the answer is markup (or a string
    from which [$] builds the empty set) and has been inserted, the
    calls the flow makes are [setFullName] on the name fields below
    the content slot, then [validateForm] on the slot, then the
    centering, the fade-in and [closePopup] of the frame if the
    [contenttype] is [form]; for any other value only the last three
    are made and no click handler is bound.  The name fields of the
    fragment are among the nodes handed to [setFullName] when the
    content slot is in the document.  When [$] throws on the answer,
    the callback ends after the removal of the preloader: no call is
    made and no handler is bound, whatever the [contenttype]. *)
Theorem external_fragment_form_only (thisEl preloader mib : list nat)
    (contentType : option string) (data : string) (i : nat) (w0 w : world) :
  (exists p m,
     nth_error (tasks (externalContentPopup thisEl w0)) (List.length (tasks w0)) =
     Some (KExternal p m (jq_attr thisEl "data-contenttype" (doc w0)))) /\
  (nth_error (tasks w) i = Some (KExternal preloader mib contentType) ->
   let exContent := ids_of (jq_id "content1" (doc w)) in
   (jq_string data = None ->
    trace (complete i (Text data) w) = trace w /\
    click_h (complete i (Text data) w) = click_h w /\
    doc (complete i (Text data) w) = remove preloader (doc w)) /\
   (forall markup, jq_string data = Some markup ->
    let fragment := renum_forest (next_id w) markup in
    let inserted := append_into exContent fragment (remove preloader (doc w)) in
    let targets := ids_of (jq_find exContent
                             (sel_or (by_id "usernameDisabled") (by_id "usernameHidden"))
                             inserted) in
    exists suffix,
      trace (complete i (Text data) w) = trace w ++ suffix /\
      ((exists x, In (ESetFullName x) suffix) <-> contentType = Some "form") /\
      ((exists c, In (EValidateForm c) suffix) <-> contentType = Some "form") /\
      (contentType = Some "form" ->
       suffix = [ESetFullName targets; EValidateForm exContent;
                 EJCenter mib; EFadeIn mib; EClosePopup mib]) /\
      (contentType <> Some "form" ->
       suffix = [EJCenter mib; EFadeIn mib; EClosePopup mib] /\
       click_h (complete i (Text data) w) = click_h w) /\
      (forall c e,
         exContent = [c] -> In c (node_ids (remove preloader (doc w))) ->
         In e (forest_elems fragment) ->
         has_id "usernameDisabled" e || has_id "usernameHidden" e = true ->
         In (nid e) targets))).
Proof.
  split.
  - unfold externalContentPopup, create, request.
    cbn [doc tasks trace with_tasks emit with_trace on_doc with_doc with_next_id next_id].
    rewrite nth_error_app2 by lia. rewrite Nat.sub_diag. cbn [nth_error]. eauto.
  - intros Ht exContent. split.
    { intros Hj. unfold complete. rewrite Ht. unfold externalContentPopup_done.
      rewrite Hj. repeat split. }
    intros markup Hj fragment inserted targets.
    unfold complete. rewrite Ht.
    unfold externalContentPopup_done. rewrite Hj.
    unfold create, jCenter, fadeIn, closePopup, setFullName,
      bind_resize, validateForm, bind_click.
    cbn [doc tasks trace with_tasks emit with_trace on_doc with_doc with_next_id next_id
         with_resize_h with_click_h click_h resize_h].
    fold exContent. fold fragment. fold inserted.
    destruct (js_is contentType "form") eqn:E.
    + apply js_is_spec in E.
      exists [ESetFullName targets; EValidateForm exContent;
              EJCenter mib; EFadeIn mib; EClosePopup mib].
      cbn [doc tasks trace with_tasks emit with_trace on_doc with_doc with_next_id next_id
           with_resize_h with_click_h click_h resize_h].
      fold targets. rewrite <- !app_assoc. cbn [app].
      split; [reflexivity|]. split; [|split; [|split; [|split]]].
      * split; auto. intros _. exists targets. left. reflexivity.
      * split; auto. intros _. exists exContent. right. left. reflexivity.
      * reflexivity.
      * intros N. contradiction.
      * intros c e Hc Hin He Hq. unfold targets, ids_of. apply in_map.
        unfold inserted. rewrite Hc. cbn [append_into]. unfold jq_find.
        apply (find_append_In c (fun e => has_id "usernameDisabled" e ||
                                          has_id "usernameHidden" e)); auto.
    + assert (N : contentType <> Some "form").
      { intros X. apply js_is_spec in X. congruence. }
      exists [EJCenter mib; EFadeIn mib; EClosePopup mib].
      cbn [doc tasks trace with_tasks emit with_trace on_doc with_doc with_next_id next_id
           with_resize_h with_click_h click_h resize_h].
      rewrite <- !app_assoc. cbn [app].
      split; [reflexivity|]. split; [|split; [|split; [|split]]].
      * split; [|contradiction]. intros [x [H|[H|[H|[]]]]]; discriminate.
      * split; [|contradiction]. intros [x [H|[H|[H|[]]]]]; discriminate.
      * contradiction.
      * intros _. split; reflexivity.
      * intros c e Hc Hin He Hq. unfold targets, ids_of. apply in_map.
        unfold inserted. rewrite Hc. cbn [append_into]. unfold jq_find.
        apply (find_append_In c (fun e => has_id "usernameDisabled" e ||
                                          has_id "usernameHidden" e)); auto.
Qed.

(** *** The static popup *)

Lemma next_unfold (ids : list nat) (e : elem) (ks : list node) :
  next ids (Node e ks) = next_siblings ids false ks.
Proof.
  cbn [next]. generalize false. induction ks as [|k r IH]; intros b; [reflexivity|].
  cbn [next_siblings]. rewrite IH. reflexivity.
Qed.

Lemma in_node_ids_kid (i : nat) (e : elem) (ks : list node) (k : node) :
  In k ks -> In i (node_ids k) -> In i (node_ids (Node e ks)).
Proof.
  intros Hk Hi. unfold node_ids in *. simpl. right.
  rewrite map_flat_map. apply in_flat_map. exists k. auto.
Qed.

Lemma root_in_node_ids (k : node) : In (nid (root k)) (node_ids k).
Proof. destruct k. unfold node_ids. simpl. auto. Qed.

Lemma mem_single (x t : nat) : mem x [t] = Nat.eqb x t.
Proof. unfold mem. simpl. apply orb_false_r. Qed.

(** Below nodes that do not contain the trigger, [.next()] finds
    nothing. *)
Lemma next_absent (t : nat) (d : node) : ~ In t (node_ids d) -> next [t] d = [].
Proof.
  induction d as [e ks IH] using node_ind. intros H. rewrite next_unfold.
  assert (Hks : forall k, In k ks -> ~ In t (node_ids k)).
  { intros k Hk Hi. apply H. eapply in_node_ids_kid; eauto. }
  clear H. induction IH as [|k r Hk Hr IHr]; [reflexivity|].
  cbn [next_siblings app]. rewrite Hk by (apply Hks; left; reflexivity).
  rewrite mem_single.
  replace (Nat.eqb (nid (root k)) t) with false.
  - apply IHr. intros k' Hk'. apply Hks. right. exact Hk'.
  - symmetry. apply Nat.eqb_neq. intros E.
    apply (Hks k (or_introl eq_refl)). rewrite <- E. apply root_in_node_ids.
Qed.

Lemma next_siblings_absent (t : nat) (b : bool) (l : list node) :
  (forall k, In k l -> ~ In t (node_ids k)) ->
  next_siblings [t] b l = if b then firstn 1 l else [].
Proof.
  revert b. induction l as [|k r IH]; intros b H.
  - destruct b; reflexivity.
  - cbn [next_siblings]. rewrite next_absent by (apply H; left; reflexivity).
    rewrite mem_single.
    replace (Nat.eqb (nid (root k)) t) with false.
    + rewrite IH by (intros k' Hk'; apply H; right; exact Hk').
      destruct b; reflexivity.
    + symmetry. apply Nat.eqb_neq. intros E.
      apply (H k (or_introl eq_refl)). rewrite <- E. apply root_in_node_ids.
Qed.

Lemma next_siblings_skip (t : nat) (l1 l2 : list node) :
  (forall k, In k l1 -> ~ In t (node_ids k)) ->
  next_siblings [t] false (l1 ++ l2) = next_siblings [t] false l2.
Proof.
  induction l1 as [|k r IH]; intros H; [reflexivity|].
  cbn [app next_siblings]. rewrite next_absent by (apply H; left; reflexivity).
  rewrite mem_single.
  replace (Nat.eqb (nid (root k)) t) with false.
  - apply IH. intros k' Hk'. apply H. right. exact Hk'.
  - symmetry. apply Nat.eqb_neq. intros E.
    apply (H k (or_introl eq_refl)). rewrite <- E. apply root_in_node_ids.
Qed.

(** Appending after a last child that is not the trigger does not
    change what [.next()] finds. *)
Lemma next_siblings_appended (t : nat) (b : bool) (l : list node) (kl : node)
    (x : list node) :
  nid (root kl) <> t -> (forall k, In k x -> ~ In t (node_ids k)) ->
  next_siblings [t] b ((l ++ [kl]) ++ x) = next_siblings [t] b (l ++ [kl]).
Proof.
  intros Hkl Hx. revert b. induction l as [|k r IH]; intros b.
  - cbn [app next_siblings]. rewrite mem_single.
    apply Nat.eqb_neq in Hkl. rewrite Hkl.
    rewrite next_siblings_absent by exact Hx. reflexivity.
  - cbn [app next_siblings]. rewrite IH. reflexivity.
Qed.

Lemma NoDup_kids (e : elem) (ks : list node) :
  NoDup (node_ids (Node e ks)) -> NoDup (forest_ids ks) /\ ~ In (nid e) (forest_ids ks).
Proof.
  unfold node_ids, forest_ids, forest_elems. simpl. intros H.
  inversion H; subst. auto.
Qed.

Lemma forest_ids_app (l1 l2 : list node) :
  forest_ids (l1 ++ l2) = forest_ids l1 ++ forest_ids l2.
Proof. unfold forest_ids, forest_elems. rewrite flat_map_app, map_app. reflexivity. Qed.

Lemma forest_ids_single (k : node) : forest_ids [k] = node_ids k.
Proof.
  unfold forest_ids, forest_elems, node_ids. simpl. rewrite app_nil_r. reflexivity.
Qed.

Lemma forest_ids_In (i : nat) (l : list node) :
  In i (forest_ids l) <-> exists k, In k l /\ In i (node_ids k).
Proof.
  unfold forest_ids, forest_elems, node_ids. rewrite map_flat_map, in_flat_map.
  reflexivity.
Qed.

Lemma NoDup_app_disjoint {A} (l1 l2 : list A) (a : A) :
  NoDup (l1 ++ l2) -> In a l1 -> ~ In a l2.
Proof.
  induction l1 as [|x l1 IH]; intros H Ha; [contradiction|].
  simpl in H. inversion H; subst. destruct Ha as [<-|Ha].
  - intros X. apply H2. apply in_app_iff. auto.
  - apply IH; auto.
Qed.

(** A trigger that is the last child of the body has nothing after
    it. *)
Lemma next_last_child (t : nat) (e : elem) (l : list node) (kl : node) :
  NoDup (node_ids (Node e (l ++ [kl]))) -> nid (root kl) = t ->
  next [t] (Node e (l ++ [kl])) = [].
Proof.
  intros Hnd Hkl. apply NoDup_kids in Hnd. destruct Hnd as [Hnd _].
  rewrite forest_ids_app, forest_ids_single in Hnd.
  rewrite next_unfold, next_siblings_skip.
  - cbn [next_siblings app]. rewrite app_nil_r.
    destruct kl as [e' ks']. rewrite next_unfold. simpl in Hkl.
    apply NoDup_app_remove_l in Hnd. apply NoDup_kids in Hnd.
    destruct Hnd as [_ Hnd]. rewrite next_siblings_absent; [reflexivity|].
    intros k Hk Hi. apply Hnd. rewrite Hkl. apply forest_ids_In. eauto.
  - intros k Hk Hi.
    assert (X : In t (forest_ids l)) by (apply forest_ids_In; eauto).
    apply (NoDup_app_disjoint _ _ _ Hnd) in X. apply X.
    rewrite <- Hkl. apply root_in_node_ids.
Qed.

Lemma update_clone (n : nat) (box : node) :
  update [n] show (renum n box) = shown (renum n box).
Proof.
  destruct box as [e ks]. rewrite renum_unfold. cbn [update shown set_nid nid].
  rewrite mem_single, Nat.eqb_refl. f_equal.
  apply map_id_Forall. apply Forall_forall. intros k Hk.
  apply update_fresh. intros i Hi [E|[]].
  assert (X : In i (forest_ids (renum_forest (S n) ks))) by (apply forest_ids_In; eauto).
  rewrite forest_ids_renum in X. apply in_seq in X. lia.
Qed.

Lemma node_ids_shown (t : node) : node_ids (shown t) = node_ids t.
Proof. destruct t. reflexivity. Qed.

Lemma node_ids_append_body (new : list node) (d : node) :
  node_ids (append_body new d) = node_ids d ++ forest_ids new.
Proof. unfold node_ids. rewrite elems_append_body, map_app. reflexivity. Qed.

Lemma find_app_r {A} (f : A -> bool) (l1 l2 : list A) :
  (forall x, In x l1 -> f x = false) -> List.find f (l1 ++ l2) = List.find f l2.
Proof.
  induction l1 as [|a l1 IH]; cbn [List.find app]; intros H; [reflexivity|].
  rewrite (H a) by (left; reflexivity). apply IH. intros x Hx. apply H. right. exact Hx.
Qed.

(** A copy that has just been appended to the body is hidden exactly
    when its source is. *)
Lemma is_hidden_clone (n : nat) (box : node) (d : node) :
  ~ In n (node_ids d) ->
  is_hidden n (append_body [renum n box] d) = negb (displayed (root box)).
Proof.
  intros H. unfold is_hidden, lookup. rewrite elems_append_body, find_app_r.
  - destruct box as [e ks]. rewrite renum_unfold. unfold forest_elems.
    cbn [flat_map elems app List.find set_nid nid]. rewrite Nat.eqb_refl. reflexivity.
  - intros x Hx. apply Nat.eqb_neq. intros E. apply H. rewrite <- E.
    unfold node_ids. apply in_map. exact Hx.
Qed.

(** One opening of the static popup on the trigger [t], whose next
    sibling is [box]. *)
Lemma nonAjaxPopup_step (t : nat) (box : node) (w : world) :
  wf_world w = true -> next [t] (doc w) = [box] ->
  doc (nonAjaxPopup [t] w) = append_body [shown (renum (next_id w) box)] (doc w) /\
  next_id (nonAjaxPopup [t] w) = next_id w + size box /\
  trace (nonAjaxPopup [t] w) =
    trace w ++ [EJCenter [next_id w]; EFadeIn [next_id w]] ++
    (if displayed (root box) then [EClosePopup [next_id w]] else []) /\
  tasks (nonAjaxPopup [t] w) =
    tasks w ++ (if displayed (root box) then [] else [KClosePopup [next_id w]]) /\
  wf_world (nonAjaxPopup [t] w) = true /\
  next [t] (doc (nonAjaxPopup [t] w)) = [box].
Proof.
  intros Hwf Hnext. pose proof Hwf as Hwf'.
  apply wf_world_spec in Hwf'. destruct Hwf' as [Hnd Hlt].
  assert (Hfresh : ~ In (next_id w) (node_ids (doc w))).
  { intros X. apply Hlt in X. lia. }
  assert (Hroots : roots (renum_forest (next_id w) [box]) = [next_id w]).
  { cbn [renum_forest roots map]. destruct box as [eb kb]. rewrite renum_unfold.
    reflexivity. }
  assert (Hw : nonAjaxPopup [t] w =
               bind_resize (RCenter [next_id w])
                 (fadeIn [next_id w] (Some (KClosePopup [next_id w]))
                    (emit (EJCenter [next_id w])
                       (on_doc (append_body [renum (next_id w) box])
                          (with_next_id (next_id w + size box) w))))).
  { unfold nonAjaxPopup, create, jCenter. rewrite Hnext, Hroots.
    cbn [renum_forest]. unfold forest_size. cbn [map].
    replace (list_sum [size box]) with (size box) by (simpl; lia). reflexivity. }
  assert (Hh : is_hidden (next_id w) (append_body [renum (next_id w) box] (doc w)) =
               negb (displayed (root box))) by (apply is_hidden_clone; exact Hfresh).
  assert (Hdoc : doc (nonAjaxPopup [t] w) =
                 append_body [shown (renum (next_id w) box)] (doc w)).
  { rewrite Hw, fadeIn_callback.
    cbn [doc tasks trace with_tasks emit with_trace on_doc with_doc with_next_id next_id
         with_resize_h bind_resize].
    destruct (doc w) as [e ks] eqn:D. cbn [append_body update].
    replace (mem (nid e) [next_id w]) with false.
    2:{ symmetry. apply mem_false. intros [E|[]].
        assert (nid e < next_id w) by (apply Hlt; unfold node_ids; simpl; auto). lia. }
    f_equal. rewrite map_app. cbn [map]. rewrite update_clone. f_equal.
    apply map_id_Forall. apply Forall_forall. intros k Hk. apply update_fresh.
    intros i Hi [E|[]].
    assert (i < next_id w) by (apply Hlt; eapply in_node_ids_kid; eauto). lia. }
  assert (Hn : next_id (nonAjaxPopup [t] w) = next_id w + size box).
  { rewrite Hw, fadeIn_callback. reflexivity. }
  assert (Hids : node_ids (doc (nonAjaxPopup [t] w)) =
                 node_ids (doc w) ++ seq (next_id w) (size box)).
  { rewrite Hdoc, node_ids_append_body, forest_ids_single, node_ids_shown,
      node_ids_renum. reflexivity. }
  split; [exact Hdoc|]. split; [exact Hn|].
  split; [|split; [|split]].
  - rewrite Hw, fadeIn_callback.
    cbn [doc tasks trace with_tasks emit with_trace on_doc with_doc with_next_id next_id
         with_resize_h bind_resize filter].
    rewrite Hh. rewrite <- app_assoc.
    destruct (displayed (root box)); reflexivity.
  - rewrite Hw, fadeIn_callback.
    cbn [doc tasks trace with_tasks emit with_trace on_doc with_doc with_next_id next_id
         with_resize_h bind_resize filter].
    rewrite Hh. destruct (displayed (root box)); reflexivity.
  - apply wf_world_spec. rewrite Hids, Hn. split.
    + apply NoDup_app; auto; [apply seq_NoDup|].
      intros a Ha Hs. apply Hlt in Ha. apply in_seq in Hs. lia.
    + intros i Hi. apply in_app_iff in Hi. destruct Hi as [Hi|Hi].
      * apply Hlt in Hi. lia.
      * apply in_seq in Hi. lia.
  - rewrite Hdoc. destruct (doc w) as [e ks] eqn:D. cbn [append_body].
    assert (Ht : In t (node_ids (Node e ks))).
    { destruct (in_dec Nat.eq_dec t (node_ids (Node e ks))) as [H|H]; auto.
      rewrite next_absent in Hnext by exact H. discriminate. }
    assert (Hx : forall k, In k [shown (renum (next_id w) box)] -> ~ In t (node_ids k)).
    { intros k [<-|[]]. rewrite node_ids_shown, node_ids_renum. intros Hs.
      apply in_seq in Hs. apply Hlt in Ht. lia. }
    destruct (exists_last (l := ks)) as [l [kl E]].
    { intros ->. rewrite next_unfold in Hnext. discriminate. }
    subst ks. destruct (Nat.eq_dec (nid (root kl)) t) as [Et|Et].
    + rewrite (next_last_child t e l kl Hnd Et) in Hnext. discriminate.
    + rewrite next_unfold in *. rewrite next_siblings_appended; auto.
Qed.

Lemma nonAjaxPopup_iter (t : nat) (box : node) (w : world) (N : nat) :
  wf_world w = true -> next [t] (doc w) = [box] ->
  wf_world (Nat.iter N (nonAjaxPopup [t]) w) = true /\
  next_id (Nat.iter N (nonAjaxPopup [t]) w) = next_id w + N * size box /\
  next [t] (doc (Nat.iter N (nonAjaxPopup [t]) w)) = [box] /\
  doc (Nat.iter N (nonAjaxPopup [t]) w) =
    Node (root (doc w))
         (kids (doc w) ++
          map (fun j => shown (renum (next_id w + j * size box) box)) (seq 0 N)) /\
  trace (Nat.iter N (nonAjaxPopup [t]) w) =
    trace w ++
    flat_map (fun j => [EJCenter [next_id w + j * size box];
                        EFadeIn [next_id w + j * size box]] ++
                       (if displayed (root box)
                        then [EClosePopup [next_id w + j * size box]] else []))
             (seq 0 N) /\
  tasks (Nat.iter N (nonAjaxPopup [t]) w) =
    tasks w ++
    flat_map (fun j => if displayed (root box) then []
                       else [KClosePopup [next_id w + j * size box]]) (seq 0 N).
Proof.
  intros Hwf Hnext. induction N as [|N [IHw [IHn [IHx [IHd [IHt IHk]]]]]].
  - cbn [Nat.iter nat_rect seq map flat_map]. rewrite !app_nil_r, Nat.add_0_r.
    destruct (doc w). repeat split; auto.
  - rewrite Nat.iter_succ.
    destruct (nonAjaxPopup_step t box _ IHw IHx) as [Hd [Hn [Ht [Hk [Hw Hx]]]]].
    rewrite IHn in *. rewrite seq_S, map_app, !flat_map_app. cbn [map flat_map].
    rewrite Nat.add_0_l, !app_nil_r.
    split; [exact Hw|]. split; [rewrite Hn; lia|]. split; [exact Hx|].
    split; [|split].
    + rewrite Hd, IHd. cbn [append_body]. rewrite <- app_assoc. reflexivity.
    + rewrite Ht, IHt, <- app_assoc. reflexivity.
    + rewrite Hk, IHk, <- app_assoc. reflexivity.
Qed.

(** C7.  After [N] openings of the static popup on a trigger whose
    next sibling is [box], that sibling is still [box], untouched, and
    the body has [N] more children: renumbered copies of [box], each
    with its own display switched on.  No two nodes of the document
    share an identity.  The flow has called [jCenter] and [fadeIn] on
    each copy, and [closePopup] on it when the fade-in had nothing to
    animate (a box that is displayed); for a hidden box the call of
    [closePopup] waits for the end of the animation.  No request was
    sent. *)
Theorem nonAjaxPopup_clones (t : nat) (box : node) (w : world) (N : nat) :
  wf_world w = true -> next [t] (doc w) = [box] ->
  next [t] (doc (Nat.iter N (nonAjaxPopup [t]) w)) = [box] /\
  doc (Nat.iter N (nonAjaxPopup [t]) w) =
    Node (root (doc w))
         (kids (doc w) ++
          map (fun j => shown (renum (next_id w + j * size box) box)) (seq 0 N)) /\
  NoDup (node_ids (doc (Nat.iter N (nonAjaxPopup [t]) w))) /\
  trace (Nat.iter N (nonAjaxPopup [t]) w) =
    trace w ++
    flat_map (fun j => [EJCenter [next_id w + j * size box];
                        EFadeIn [next_id w + j * size box]] ++
                       (if displayed (root box)
                        then [EClosePopup [next_id w + j * size box]] else []))
             (seq 0 N) /\
  filter is_network (trace (Nat.iter N (nonAjaxPopup [t]) w)) =
    filter is_network (trace w) /\
  tasks (Nat.iter N (nonAjaxPopup [t]) w) =
    tasks w ++
    flat_map (fun j => if displayed (root box) then []
                       else [KClosePopup [next_id w + j * size box]]) (seq 0 N).
Proof.
  intros Hwf Hnext.
  destruct (nonAjaxPopup_iter t box w N Hwf Hnext) as [Hw [_ [Hx [Hd [Ht Hk]]]]].
  split; [exact Hx|]. split; [exact Hd|]. split; [|split; [exact Ht|split; [|exact Hk]]].
  - apply wf_world_spec in Hw. apply Hw.
  - rewrite Ht, filter_app. clear.
    generalize (seq 0 N). intros l.
    match goal with
    | |- _ ++ filter is_network ?x = _ => replace (filter is_network x) with (@nil effect)
    end.
    + apply app_nil_r.
    + induction l as [|j l IH]; cbn [flat_map filter app is_network]; auto.
      destruct (displayed (root box)); cbn [filter app is_network]; exact IH.
Qed.

(** ** Further properties of the module *)

(** *** Window resizes (lines 93-95, 158-160, 165-168, 221-223) *)

Lemma resize_fold (l : list resize_handler) (w : world) :
  doc (fold_left (fun w h => run_resize h w) l w) = doc w /\
  next_id (fold_left (fun w h => run_resize h w) l w) = next_id w /\
  click_h (fold_left (fun w h => run_resize h w) l w) = click_h w /\
  deleg_h (fold_left (fun w h => run_resize h w) l w) = deleg_h w /\
  resize_h (fold_left (fun w h => run_resize h w) l w) = resize_h w /\
  tasks (fold_left (fun w h => run_resize h w) l w) = tasks w /\
  trace (fold_left (fun w h => run_resize h w) l w) =
    trace w ++
    map (fun h => EJCenter match h with
                           | RCenter x => x
                           | RCenterBoxes =>
                               ids_of (jq_all (by_class "more-info-box-js") (doc w))
                           end) l.
Proof.
  revert w. induction l as [|h l IH]; intros w; cbn [fold_left map].
  - rewrite app_nil_r. repeat split; reflexivity.
  - destruct (IH (run_resize h w)) as [Hd [Hn [Hc [Hg [Hr [Hk Ht]]]]]].
    rewrite Hd, Hn, Hc, Hg, Hr, Hk, Ht.
    destruct h; cbn [run_resize]; world_tac; rewrite <- app_assoc;
      repeat split; reflexivity.
Qed.

Lemma nonAjaxPopup_resize_h (t : nat) (box : node) (w : world) :
  next [t] (doc w) = [box] ->
  resize_h (nonAjaxPopup [t] w) = resize_h w ++ [RCenter [next_id w]].
Proof.
  intros Hnext. unfold nonAjaxPopup, create, jCenter, bind_resize.
  rewrite Hnext, fadeIn_callback.
  cbn [doc tasks trace with_tasks emit with_trace on_doc with_doc with_next_id next_id
       with_resize_h resize_h renum_forest roots map root].
  destruct box as [eb kb]. rewrite renum_unfold. reflexivity.
Qed.

(** X2.  The resize handlers of the static popup pile up: each opening
    registers one more, none is ever taken away, so after [N] openings
    a resize of the window centers each of the [N] copies again. *)
Theorem static_popup_resize_handlers (t : nat) (box : node) (w : world) (N : nat) :
  wf_world w = true -> next [t] (doc w) = [box] ->
  resize_h (Nat.iter N (nonAjaxPopup [t]) w) =
    resize_h w ++ map (fun j => RCenter [next_id w + j * size box]) (seq 0 N) /\
  (resize_h w = [] ->
   trace (resize (Nat.iter N (nonAjaxPopup [t]) w)) =
     trace (Nat.iter N (nonAjaxPopup [t]) w) ++
     map (fun j => EJCenter [next_id w + j * size box]) (seq 0 N)).
Proof.
  intros Hwf Hnext.
  assert (H : resize_h (Nat.iter N (nonAjaxPopup [t]) w) =
              resize_h w ++ map (fun j => RCenter [next_id w + j * size box]) (seq 0 N)).
  { induction N as [|N IH].
    - cbn [Nat.iter nat_rect seq map]. rewrite app_nil_r. reflexivity.
    - rewrite Nat.iter_succ.
      destruct (nonAjaxPopup_iter t box w N Hwf Hnext) as [_ [Hn [Hx _]]].
      rewrite (nonAjaxPopup_resize_h t box _ Hx), IH, Hn, seq_S, map_app.
      cbn [map]. rewrite Nat.add_0_l, <- app_assoc. reflexivity. }
  split; [exact H|]. intros Hr.
  destruct (resize_fold (resize_h (Nat.iter N (nonAjaxPopup [t]) w))
                        (Nat.iter N (nonAjaxPopup [t]) w)) as [_ [_ [_ [_ [_ [_ Ht]]]]]].
  unfold resize. rewrite Ht, H, Hr. cbn [app]. rewrite map_map. reflexivity.
Qed.

(** *** The static popup without a box (lines 87-96) *)

Lemma append_body_nil (d : node) : append_body [] d = d.
Proof. destruct d as [e ks]. cbn [append_body]. rewrite app_nil_r. reflexivity. Qed.

Lemma update_nil (f : elem -> elem) (d : node) : update [] f d = d.
Proof. apply update_fresh. intros i _ []. Qed.

(** X3.  When no element follows the trigger (it is the last child of its
    parent, or it is not in the document), the flow clones nothing:
    the document, the identities and the pending operations stay as
    they are.  [jCenter] and [fadeIn] are still called, on the empty
    set, and a resize handler for the empty set is registered. *)
Theorem nonAjaxPopup_nothing_follows (thisEl : list nat) (w : world) :
  next thisEl (doc w) = [] ->
  nonAjaxPopup thisEl w =
    bind_resize (RCenter []) (emit (EFadeIn []) (emit (EJCenter []) w)).
Proof.
  intros Hnext. unfold nonAjaxPopup, create, jCenter, fadeIn. rewrite Hnext.
  destruct w as [d n u c g r k tr].
  cbv [bind_resize with_tasks emit on_doc with_trace with_doc with_next_id with_resize_h
       doc next_id URL click_h deleg_h resize_h tasks trace].
  cbn [renum_forest roots map forest_size list_sum].
  rewrite append_body_nil, update_nil, Nat.add_0_r, app_nil_r. reflexivity.
Qed.

(** *** The dismissal of the static popup (lines 90-92) *)

(** X4.  The static popup wires its dismissal in the callback of the
    fade-in.  For a box that is hidden (as the boxes of the static
    triggers are until a copy is faded in), [closePopup] is called
    with the copy when the animation has ended, and not before; the
    end of the animation changes nothing in the document.  For a box
    that is displayed the fade-in has nothing to animate: [closePopup]
    is called inside the flow, and no operation is left pending. *)
Theorem static_popup_close_after_fade (t : nat) (box : node) (w : world) :
  wf_world w = true -> next [t] (doc w) = [box] ->
  (displayed (root box) = false ->
   trace (nonAjaxPopup [t] w) = trace w ++ [EJCenter [next_id w]; EFadeIn [next_id w]] /\
   filter (fun ef => match ef with EClosePopup _ => true | _ => false end)
          (trace (nonAjaxPopup [t] w)) =
     filter (fun ef => match ef with EClosePopup _ => true | _ => false end) (trace w) /\
   trace (complete (List.length (tasks w)) Finished (nonAjaxPopup [t] w)) =
     trace w ++ [EJCenter [next_id w]; EFadeIn [next_id w]; EClosePopup [next_id w]] /\
   doc (complete (List.length (tasks w)) Finished (nonAjaxPopup [t] w)) =
     doc (nonAjaxPopup [t] w)) /\
  (displayed (root box) = true ->
   trace (nonAjaxPopup [t] w) =
     trace w ++ [EJCenter [next_id w]; EFadeIn [next_id w]; EClosePopup [next_id w]] /\
   tasks (nonAjaxPopup [t] w) = tasks w).
Proof.
  intros Hwf Hnext.
  destruct (nonAjaxPopup_step t box w Hwf Hnext) as [_ [_ [Ht [Hk _]]]].
  split; intros Hb; rewrite Hb in Ht, Hk.
  - assert (T : nth_error (tasks (nonAjaxPopup [t] w)) (List.length (tasks w)) =
                Some (KClosePopup [next_id w])).
    { rewrite Hk, nth_error_app2 by lia. rewrite Nat.sub_diag. reflexivity. }
    split; [exact Ht|]. split; [|split].
    + rewrite Ht, filter_app. cbn [filter app]. apply app_nil_r.
    + unfold complete. rewrite T. unfold closePopup. world_tac. rewrite Ht, <- app_assoc.
      reflexivity.
    + unfold complete. rewrite T. reflexivity.
  - split; [exact Ht|]. rewrite Hk. apply app_nil_r.
Qed.

(** *** The revision check on small forms (lines 59-67) *)

(** X5.  A form with at most one revision field (in particular a form
    without any, or an empty set of forms) is never held back: the
    click handler leaves the event and the page as they are, whatever
    the field holds. *)
Theorem validate_click_needs_two_fields (formEl : list nat) (w : world) (prevented : bool) :
  List.length (rev formEl (doc w)) <= 1 ->
  validate_click formEl (w, prevented) = (w, prevented).
Proof.
  intros H. unfold validate_click.
  replace (partial_fill formEl (doc w)) with false; [reflexivity|].
  symmetry. unfold partial_fill, emptyRev.
  pose proof (filter_length_le (fun this => String.eqb (value this) EmptyString)
                               (rev formEl (doc w))) as Hle.
  apply andb_false_iff.
  destruct (List.length (filter (fun this => String.eqb (value this) EmptyString)
                                (rev formEl (doc w)))) as [|m] eqn:E.
  - left. reflexivity.
  - right. apply Nat.ltb_ge. lia.
Qed.

(** *** What the revision check leaves alone (lines 67-85) *)

Lemma find_update_map (ctx : list nat) (q : elem -> bool) (ids : list nat)
    (g : elem -> elem) (i h h' : bool) (t : node) :
  (forall e, q (g e) = q e) -> (forall e, nid (g e) = nid e) ->
  find ctx (fun _ => q) i h (update ids g t) =
  map (fun e => if mem (nid e) ids then g e else e) (find ctx (fun _ => q) i h' t).
Proof.
  intros Hq Hn. revert i h h'.
  induction t as [e ks IH] using node_ind. intros i h h'. simpl.
  rewrite map_app. f_equal.
  - destruct (mem (nid e) ids) eqn:M; rewrite ?Hq; destruct (i && q e); simpl;
      rewrite ?M; reflexivity.
  - replace (nid (if mem (nid e) ids then g e else e)) with (nid e)
      by (destruct (mem (nid e) ids); rewrite ?Hn; reflexivity).
    generalize (h || negb (displayed (if mem (nid e) ids then g e else e))).
    generalize (h' || negb (displayed e)). generalize (i || mem (nid e) ctx).
    intros i' b b'.
    induction IH as [|k r Hk Hr IHr]; simpl; auto.
    rewrite map_app, (Hk i' b' b), IHr. reflexivity.
Qed.

Lemma find_update_ids (ctx : list nat) (q : elem -> bool) (ids : list nat)
    (g : elem -> elem) (i h h' : bool) (t : node) :
  (forall e, q (g e) = q e) -> (forall e, nid (g e) = nid e) ->
  ids_of (find ctx (fun _ => q) i h (update ids g t)) =
  ids_of (find ctx (fun _ => q) i h' t).
Proof.
  intros Hq Hn. rewrite (find_update_map ctx q ids g i h h' t Hq Hn).
  unfold ids_of. rewrite map_map. apply map_ext.
  intros e. destruct (mem (nid e) ids); auto.
Qed.

Lemma mark_fields (e : elem) :
  tag (mark e) = tag e /\ attrs (mark e) = attrs e /\ itype (mark e) = itype e /\
  name (mark e) = name e /\ displayed (mark e) = displayed e.
Proof.
  unfold mark, addClass, removeClass.
  destruct (String.eqb (val e) EmptyString); [destruct (hasClass "not-valid" e)|];
    repeat split; reflexivity.
Qed.

(** X6.  The revision check never touches what the user typed: every
    element of the page is still there after the click, with its
    identity, tag, attributes, type, name and value.  Only class lists
    and displays change, and only a banner is added. *)
Theorem validate_click_keeps_fields (formEl : list nat) (w : world) (prevented : bool)
    (e : elem) :
  In e (elems (doc w)) ->
  exists e',
    In e' (elems (doc (fst (validate_click formEl (w, prevented))))) /\
    nid e' = nid e /\ tag e' = tag e /\ attrs e' = attrs e /\ itype e' = itype e /\
    name e' = name e /\ value e' = value e.
Proof.
  intros He. destruct (partial_fill formEl (doc w)) eqn:Hp.
  - destruct (validate_click_doc formEl w prevented Hp) as [l [-> _]].
    set (ids1 := ids_of (rev formEl (doc w))).
    set (d1 := update ids1 mark (doc w)).
    set (ids2 := ids_of (jq_find formEl (by_class "form-message") d1)).
    exists ((fun x => if mem (nid x) ids2 then hide x else x)
              ((fun x => if mem (nid x) ids1 then mark x else x) e)).
    split.
    + apply elems_insert_all_old. rewrite elems_update.
      apply (in_map (fun x => if mem (nid x) ids2 then hide x else x)).
      unfold d1. rewrite elems_update.
      apply (in_map (fun x => if mem (nid x) ids1 then mark x else x)). exact He.
    + destruct (mark_spec e) as [Mn [Mv _]].
      destruct (mark_fields e) as [Mt [Ma [Mi [Mm _]]]].
      cbv beta. destruct (mem (nid e) ids1).
      * destruct (mem (nid (mark e)) ids2); cbn [hide set_displayed nid tag attrs itype
                                                  name value]; repeat split; auto.
      * destruct (mem (nid e) ids2); repeat split; reflexivity.
  - exists e. unfold validate_click. rewrite Hp. repeat split; auto.
Qed.

(** X7.  On the error path the messages of the form are hidden: after the
    click every element that was a [.form-message] inside the form is
    not displayed, and every element that was not keeps its display. *)
Theorem validate_click_hides_messages (formEl : list nat) (w : world) (prevented : bool) :
  wf_world w = true -> partial_fill formEl (doc w) = true ->
  forall e', In e' (elems (doc (fst (validate_click formEl (w, prevented))))) ->
  (In (nid e') (ids_of (jq_find formEl (by_class "form-message") (doc w))) ->
   displayed e' = false) /\
  (In (nid e') (node_ids (doc w)) ->
   ~ In (nid e') (ids_of (jq_find formEl (by_class "form-message") (doc w))) ->
   exists e, In e (elems (doc w)) /\ nid e = nid e' /\ displayed e' = displayed e).
Proof.
  intros Hwf Hp e' He'. apply wf_world_spec in Hwf. destruct Hwf as [_ Hlt].
  destruct (validate_click_doc formEl w prevented Hp) as [l [E Hl]]. rewrite E in He'.
  set (ids1 := ids_of (rev formEl (doc w))) in *.
  set (d1 := update ids1 mark (doc w)) in *.
  assert (Hids : ids_of (jq_find formEl (by_class "form-message") d1) =
                 ids_of (jq_find formEl (by_class "form-message") (doc w))).
  { unfold d1, jq_find, by_class.
    apply (find_update_ids formEl (hasClass "form-message") ids1 mark false false false).
    - intros x. apply hasClass_mark_other. discriminate.
    - intros x. apply mark_spec. }
  rewrite Hids in He'.
  set (ids2 := ids_of (jq_find formEl (by_class "form-message") (doc w))) in *.
  assert (Hold : In (nid e') (node_ids (doc w)) ->
                 exists e0, In e0 (elems (doc w)) /\
                   e' = (if mem (nid (if mem (nid e0) ids1 then mark e0 else e0)) ids2
                         then hide (if mem (nid e0) ids1 then mark e0 else e0)
                         else (if mem (nid e0) ids1 then mark e0 else e0))).
  { intros Hin. apply elems_insert_all in He'. destruct He' as [He'|[p [Hp' He']]].
    - rewrite elems_update in He'. unfold d1 in He'. rewrite elems_update in He'.
      rewrite map_map in He'. apply in_map_iff in He'.
      destruct He' as [e0 [E0 He0]]. exists e0. split; auto.
    - exfalso. apply Hlt in Hin.
      assert (next_id w <= nid e').
      { eapply Hl; eauto. unfold forest_ids. apply in_map. exact He'. }
      lia. }
  assert (Hn : forall e0, nid (if mem (nid e0) ids1 then mark e0 else e0) = nid e0).
  { intros e0. destruct (mem (nid e0) ids1); auto. apply mark_spec. }
  split.
  - intros Hid.
    destruct Hold as [e0 [He0 ->]].
    { unfold ids2, ids_of in Hid. apply in_map_iff in Hid. destruct Hid as [x [Ex Hx]].
      rewrite <- Ex. unfold node_ids. apply in_map. eapply find_In_elems; eauto. }
    rewrite Hn in *.
    destruct (mem (nid e0) ids2) eqn:M; [reflexivity|].
    rewrite Hn in Hid. apply mem_In in Hid. congruence.
  - intros Hin Hid. destruct (Hold Hin) as [e0 [He0 ->]].
    rewrite Hn in *. exists e0. split; auto.
    destruct (mem (nid e0) ids2) eqn:M.
    + exfalso. apply Hid. cbn [hide set_displayed nid]. rewrite Hn. apply mem_In. exact M.
    + rewrite Hn. split; auto. destruct (mem (nid e0) ids1); auto. apply mark_fields.
Qed.

(** *** Addresses (lines 23-26 and 103-106) *)

Lemma append_empty_r (s : string) : s +++ EmptyString = s.
Proof. induction s as [|c s IH]; simpl; congruence. Qed.

(** X8.  A trigger without a [data-builderName] attribute asks for the
    builder named [undefined]: the result of [.attr()] is concatenated
    as it is. *)
Theorem pending_endpoint_without_builder (this : nat) (u : address) (w : world)
    (prevented : bool) :
  wf_address u = true -> URL w = serialize u ->
  jq_attr [this] "data-builderName" (doc w) = None ->
  run_handler HPending this (w, prevented) =
    (pendingJobs (a_scheme u +++ ":" +++ "//" +++ a_host u +++
                  "/json/buildqueue?builder=undefined") w, true).
Proof.
  intros Hu HU Hb. cbn [run_handler fst]. unfold buildqueue_url. rewrite Hb, HU.
  destruct (parse_serialize u Hu) as [Hp [Hh _]]. cbv zeta. rewrite Hp, Hh.
  cbn [js_concat_attr]. rewrite !append_assoc_s. reflexivity.
Qed.

Lemma actionUrl_serialize (u : address) :
  wf_address u = true ->
  actionUrl_of (serialize u) = a_scheme u +++ ":" +++ "//" +++ a_host u +++ a_path u.
Proof.
  intros Hu. unfold actionUrl_of. destruct (parse_serialize u Hu) as [Hp [Hh Hq]].
  cbv zeta. rewrite Hp, Hh, Hq, !append_assoc_s. reflexivity.
Qed.

(** X9.  For a page address with an authority the [actionUrl] is a fixed
    point: computed from a page at the [actionUrl] it is the same
    string.  Without user information the page address is the
    [actionUrl] followed by the query string and the hash. *)
Theorem actionUrl_fixed_point (u : address) :
  wf_address u = true -> a_slashes u = true ->
  actionUrl_of (actionUrl_of (serialize u)) = actionUrl_of (serialize u) /\
  (a_userinfo u = EmptyString ->
   serialize u = actionUrl_of (serialize u) +++ a_query u +++ a_fragment u).
Proof.
  intros Hu Hs. rewrite (actionUrl_serialize u Hu).
  set (u' := mkAddress (a_scheme u) true EmptyString (a_host u) (a_path u)
                       EmptyString EmptyString).
  assert (Hu' : wf_address u' = true).
  { unfold wf_address in *. rewrite Hs in Hu. cbn [a_scheme a_slashes a_userinfo a_host
      a_path a_query a_fragment u' no_char String.eqb orb andb].
    repeat (apply andb_true_iff in Hu; destruct Hu as [Hu ?]).
    repeat (apply andb_true_iff; split); auto. }
  assert (Hser : serialize u' = a_scheme u +++ ":" +++ "//" +++ a_host u +++ a_path u).
  { unfold serialize. cbn [a_scheme a_slashes a_userinfo a_host a_path a_query a_fragment u'
                           String.eqb].
    cbn [append]. rewrite append_empty_r. reflexivity. }
  split.
  - rewrite <- Hser. rewrite (actionUrl_serialize u' Hu'). symmetry. exact Hser.
  - intros Hi. unfold serialize. rewrite Hs, Hi. cbn [String.eqb append].
    rewrite !append_assoc_s. cbn [append]. rewrite !append_assoc_s. reflexivity.
Qed.

(** *** The Update button of the branch selector (lines 172-174) *)

Lemma NoDup_map_inj {A B} (f : A -> B) (l : list A) (x y : A) :
  NoDup (map f l) -> In x l -> In y l -> f x = f y -> x = y.
Proof.
  induction l as [|a l IH]; simpl; intros Hnd Hx Hy E; [contradiction|].
  inversion Hnd as [|? ? Hn Hl]; subst.
  destruct Hx as [->|Hx], Hy as [->|Hy]; auto.
  - exfalso. apply Hn. rewrite E. apply in_map; auto.
  - exfalso. apply Hn. rewrite <- E. apply in_map; auto.
Qed.

Lemma jq_all_class (c : string) (d : node) :
  jq_all (by_class c) d = filter (hasClass c) (elems d).
Proof. unfold jq_all, by_class. apply find_inside. Qed.

(** *** The external fragment on its arrival (lines 208-228) *)

Lemma find_no_ctx (p : selector) (h : bool) (t : node) : find [] p false h t = [].
Proof.
  revert h. induction t as [e ks IH] using node_ind. intros h. simpl.
  generalize (h || negb (displayed e)). intros b.
  induction IH as [|k r Hk Hr IHr]; simpl; auto.
  rewrite Hk, IHr. reflexivity.
Qed.

Lemma jq_id_none (i : string) (d : node) :
  (forall e, In e (elems d) -> has_id i e = false) -> jq_id i d = [].
Proof.
  intros H. unfold jq_id, jq_all, by_id. rewrite find_inside, filter_none; auto.
Qed.

Lemma external_done_doc (preloader mib : list nat) (contentType : option string)
    (data : string) (markup : list node) (w : world) :
  jq_string data = Some markup ->
  doc (externalContentPopup_done preloader mib contentType data w) =
    update mib show
      (append_into (ids_of (jq_id "content1" (doc w)))
                   (renum_forest (next_id w) markup)
                   (remove preloader (doc w))).
Proof.
  intros Hj. unfold externalContentPopup_done. rewrite Hj.
  unfold create, jCenter, fadeIn, closePopup, bind_resize.
  cbn [doc on_doc with_doc next_id with_next_id].
  destruct (js_is contentType "form"); reflexivity.
Qed.

(** X11.  When the answer is markup and the document has no element
    with the id [content1] as it arrives, the fragment is dropped: the
    preloader goes, the frame is shown as it is, and for a form no
    control gets the revision check ([setFullName] and [validateForm]
    are called on empty sets).  The identities of the fragment are
    used up. *)
Theorem external_without_slot (preloader mib : list nat) (contentType : option string)
    (data : string) (markup : list node) (w : world) :
  jq_string data = Some markup ->
  (forall e, In e (elems (doc w)) -> has_id "content1" e = false) ->
  doc (externalContentPopup_done preloader mib contentType data w) =
    update mib show (remove preloader (doc w)) /\
  click_h (externalContentPopup_done preloader mib contentType data w) = click_h w /\
  next_id (externalContentPopup_done preloader mib contentType data w) =
    next_id w + forest_size markup /\
  trace (externalContentPopup_done preloader mib contentType data w) =
    trace w ++
    (if js_is contentType "form" then [ESetFullName []; EValidateForm []] else []) ++
    [EJCenter mib; EFadeIn mib; EClosePopup mib].
Proof.
  intros Hj H. apply jq_id_none in H.
  split; [rewrite (external_done_doc _ _ _ _ markup), H by exact Hj; reflexivity|].
  unfold externalContentPopup_done. rewrite Hj.
  unfold create, jCenter, fadeIn, closePopup, bind_resize, setFullName, validateForm.
  rewrite H. cbn [ids_of map append_into].
  unfold jq_find. rewrite !find_no_ctx. cbn [ids_of map]. rewrite ?find_no_ctx.
  destruct (js_is contentType "form");
    cbv [bind_click emit on_doc with_doc with_next_id with_click_h with_resize_h
         with_tasks with_trace doc next_id URL click_h deleg_h resize_h tasks trace];
    cbn [map app]; rewrite ?app_nil_r, <- ?app_assoc; repeat split; reflexivity.
Qed.

Lemma remove_appended_mid (x y : list node) (d : node) :
  (forall i, In i (node_ids d) -> ~ In i (roots x)) ->
  (forall i, In i (forest_ids y) -> ~ In i (roots x)) ->
  remove (roots x) (append_body (x ++ y) d) = append_body y d.
Proof.
  intros Hd Hy. destruct d as [e ks]. cbn [append_body remove]. f_equal.
  rewrite !flat_map_app.
  assert (Hx : flat_map (fun k => if mem (nid (root k)) (roots x) then []
                                  else [remove (roots x) k]) x = []).
  { apply remove_listed. intros k Hk. unfold roots.
    apply (in_map (fun k => nid (root k))). exact Hk. }
  rewrite Hx. cbn [app]. f_equal.
  - assert (R : remove (roots x) (Node e ks) = Node e ks) by (apply remove_fresh; exact Hd).
    cbn [remove] in R. injection R as R. exact R.
  - assert (R : remove (roots x) (Node e y) = Node e y).
    { apply remove_fresh. intros i Hi. unfold node_ids in Hi. cbn [elems map] in Hi.
      destruct Hi as [Hi|Hi].
      - apply Hd. unfold node_ids. cbn [elems map]. left. exact Hi.
      - apply Hy. exact Hi. }
    cbn [remove] in R. injection R as R. exact R.
Qed.

Lemma elems_append_In (i : nat) (new : list node) (t : node) (e : elem) :
  In e (elems (append_to i new t)) -> In e (elems t) \/ In e (forest_elems new).
Proof.
  induction t as [e0 ks IH] using node_ind. cbn [append_to elems].
  intros [H|H]; [left; left; exact H|].
  rewrite flat_map_app in H. apply in_app_iff in H. destruct H as [H|H].
  - rewrite flat_map_map in H. apply in_flat_map in H. destruct H as [k [Hk He]].
    rewrite Forall_forall in IH. destruct (IH k Hk He) as [H|H]; [|right; exact H].
    left. right. apply in_flat_map. exists k. auto.
  - destruct (Nat.eqb (nid e0) i); [right; exact H|destruct H].
Qed.

(** X12.  The external-fragment flow on success: when the answer is
    markup, the document is the page it started from with the frame
    appended and shown, and with the fragment appended to the first
    element that carried the id [content1] when the answer came; no
    node of the preloader is left in it. *)
Theorem external_success_document (thisEl : list nat) (data : string)
    (markup : list node) (w : world) :
  wf_world w = true ->
  jq_string data = Some markup ->
  let preloader := renum_forest (next_id w) (parseHTML (render preloader_context)) in
  let mib := renum_forest (next_id w + forest_size (parseHTML (render preloader_context)))
               (parseHTML (render (popupOuter_context
                  (js_of_attr (jq_attr thisEl "data-popuptitle" (doc w)))))) in
  let w1 := externalContentPopup thisEl w in
  let fragment := renum_forest (next_id w1) markup in
  let slot := ids_of (jq_id "content1" (doc w1)) in
  let w2 := complete (List.length (tasks w)) (Text data) w1 in
  doc w1 = append_body (preloader ++ mib) (doc w) /\
  doc w2 = update (roots mib) show (append_into slot fragment (append_body mib (doc w))) /\
  (forall i, In i (forest_ids preloader) -> ~ In i (node_ids (doc w2))).
Proof.
  intros Hwf Hj preloader mib w1 fragment slot w2.
  pose proof Hwf as Hwf'. apply wf_world_spec in Hwf'. destruct Hwf' as [_ Hlt].
  assert (H1 : doc w1 = append_body (preloader ++ mib) (doc w)).
  { unfold w1, externalContentPopup, create, request. world_tac.
    fold preloader. fold mib. destruct (doc w) as [e ks]. cbn [append_body].
    rewrite <- app_assoc. reflexivity. }
  assert (Hn1 : next_id w1 = next_id w + forest_size (parseHTML (render preloader_context)) +
                  forest_size (parseHTML (render (popupOuter_context
                     (js_of_attr (jq_attr thisEl "data-popuptitle" (doc w))))))).
  { unfold w1, externalContentPopup, create, request. world_tac. reflexivity. }
  assert (H2 : doc w2 =
               update (roots mib) show (append_into slot fragment (append_body mib (doc w)))).
  { unfold w2, complete.
    assert (T : nth_error (tasks w1) (List.length (tasks w)) =
                Some (KExternal (roots preloader) (roots mib)
                                (jq_attr thisEl "data-contenttype" (doc w)))).
    { unfold w1, externalContentPopup, create, request. world_tac.
      rewrite nth_error_app2 by lia. rewrite Nat.sub_diag. reflexivity. }
    rewrite T. rewrite (external_done_doc _ _ _ _ markup) by exact Hj.
    cbn [doc next_id with_tasks].
    fold slot. fold fragment. rewrite H1. rewrite remove_appended_mid.
    - reflexivity.
    - intros i Hi Hr. apply roots_incl in Hr.
      eapply wf_fresh_roots; eauto.
    - intros i Hi Hr. apply roots_incl in Hr. unfold preloader, mib in *.
      rewrite forest_ids_renum in *. apply in_seq in Hi. apply in_seq in Hr. lia. }
  split; [exact H1|]. split; [exact H2|].
  intros i Hi Hin. rewrite H2 in Hin. rewrite node_ids_update in Hin by reflexivity.
  unfold preloader in Hi. rewrite forest_ids_renum in Hi. apply in_seq in Hi.
  assert (Hb : In i (node_ids (append_body mib (doc w))) -> False).
  { intros Hb. rewrite node_ids_append_body in Hb. apply in_app_iff in Hb.
    destruct Hb as [Hb|Hb].
    - apply Hlt in Hb. lia.
    - unfold mib in Hb. rewrite forest_ids_renum in Hb. apply in_seq in Hb. lia. }
  destruct slot as [|c sl]; cbn [append_into] in Hin; [exact (Hb Hin)|].
  unfold node_ids in Hin. apply in_map_iff in Hin. destruct Hin as [e [En He]].
  apply elems_append_In in He. destruct He as [He|He].
  - apply Hb. rewrite <- En. unfold node_ids. apply in_map. exact He.
  - assert (Hf : In i (forest_ids fragment)).
    { rewrite <- En. unfold forest_ids. apply in_map. exact He. }
    unfold fragment in Hf. rewrite forest_ids_renum in Hf. apply in_seq in Hf. lia.
Qed.

(** *** The branch selector on the arrival of its form (lines 141-177) *)

Lemma assoc_set_same (k v : string) (l : list (string * string)) :
  assoc k (assoc_set k v l) = Some v.
Proof.
  induction l as [|[k0 v0] r IH]; cbn [assoc_set assoc].
  - rewrite String.eqb_refl. reflexivity.
  - destruct (String.eqb k k0) eqn:E; cbn [assoc].
    + rewrite String.eqb_refl. reflexivity.
    + rewrite E. exact IH.
Qed.

Lemma assoc_set_other (k k' v : string) (l : list (string * string)) :
  k <> k' -> assoc k (assoc_set k' v l) = assoc k l.
Proof.
  intros Hk. apply String.eqb_neq in Hk.
  induction l as [|[k0 v0] r IH]; cbn [assoc_set assoc].
  - rewrite Hk. reflexivity.
  - destruct (String.eqb k' k0) eqn:E; cbn [assoc].
    + apply String.eqb_eq in E. subst k0. rewrite Hk. reflexivity.
    + rewrite IH. reflexivity.
Qed.

Lemma has_id_set_attr (i k v : string) (e : elem) :
  k <> "id" -> has_id i (set_attr k v e) = has_id i e.
Proof.
  intros Hk. unfold has_id, attr, set_attr. cbn [attrs set_attrs].
  rewrite assoc_set_other; auto.
Qed.

Lemma jq_id_update (i : string) (ids : list nat) (g : elem -> elem) (d : node) :
  (forall e, has_id i (g e) = has_id i e) -> (forall e, nid (g e) = nid e) ->
  jq_id i (update ids g d) = map (fun e => if mem (nid e) ids then g e else e) (jq_id i d).
Proof.
  intros Hq Hn. unfold jq_id, jq_all, by_id.
  rewrite <- firstn_map. f_equal.
  apply (find_update_map [] (has_id i) ids g true false false d Hq Hn).
Qed.

Lemma cnt_zero_inv {A} (q : A -> bool) (l1 l2 : list A) :
  cnt q (l1 ++ l2) = 0 -> cnt q l1 = 0 /\ cnt q l2 = 0.
Proof. rewrite cnt_app. lia. Qed.

Lemma find_nodes_none (p : elem -> bool) (t : node) :
  cnt p (elems t) = 0 -> find_nodes p false t = [].
Proof.
  induction t as [e ks IH] using node_ind. cbn [elems find_nodes negb andb].
  rewrite cnt_cons. intros H.
  destruct (p e); [discriminate|]. cbn [app] in *. cbn [Nat.add] in H.
  induction IH as [|k r Hk Hr IHr]; cbn [flat_map] in *; auto.
  apply cnt_zero_inv in H. destruct H as [H1 H2].
  rewrite Hk, IHr; auto.
Qed.

Lemma flat_find_nodes_none (p : elem -> bool) (f : list node) :
  cnt p (forest_elems f) = 0 -> flat_map (find_nodes p false) f = [].
Proof.
  unfold forest_elems. induction f as [|k r IH]; cbn [flat_map]; auto.
  intros H. apply cnt_zero_inv in H. destruct H as [H1 H2].
  rewrite find_nodes_none, IH; auto.
Qed.

Lemma find_nodes_top_none (p : elem -> bool) (n : nat) (f : list node) :
  (forall k e, p (set_nid k e) = p e) ->
  cnt p (flat_map (fun t => forest_elems (kids t)) f) = 0 ->
  flat_map (find_nodes p true) (renum_forest n f) = [].
Proof.
  intros Hp. revert n. induction f as [|t r IH]; intros n; cbn [flat_map renum_forest]; auto.
  intros H. apply cnt_zero_inv in H. destruct H as [H1 H2].
  rewrite IH by exact H2. rewrite app_nil_r.
  destruct t as [e ks]. rewrite renum_unfold. cbn [find_nodes negb andb app kids] in *.
  apply flat_find_nodes_none. rewrite cnt_renum_forest; auto.
Qed.

Lemma append_to_nil (i : nat) (t : node) : append_to i [] t = t.
Proof.
  induction t as [e ks IH] using node_ind. cbn [append_to].
  destruct (Nat.eqb (nid e) i); rewrite app_nil_r; f_equal; apply map_id_Forall; exact IH.
Qed.

Lemma append_into_nil (target : list nat) (d : node) : append_into target [] d = d.
Proof. destruct target; cbn [append_into]; auto. apply append_to_nil. Qed.

Lemma concat_map_single {A B} (y : B) (l : list A) :
  List.concat (map (fun _ => [y]) l) = map (fun _ => y) l.
Proof. induction l as [|a l IH]; cbn [map List.concat app]; congruence. Qed.

Lemma parseHTML_some (data : string) (markup : list node) :
  jq_string data = Some markup -> parseHTML data = markup.
Proof. unfold parseHTML. intros ->. reflexivity. Qed.

(** A string from which nodes are built is one that [$] accepts. *)
Lemma parseHTML_built (data : string) (k : node) (r : list node) :
  parseHTML data = k :: r -> jq_string data = Some (k :: r).
Proof. unfold parseHTML. destruct (jq_string data); [congruence|discriminate]. Qed.

Lemma insert_all_nil (f : list node) : map (insert_all []) f = f.
Proof. induction f as [|k r IH]; cbn [map]; [reflexivity|]. rewrite IH. reflexivity. Qed.

(** The world after the done callback of the branch selector, for an
    answer that [$] accepts. *)
Lemma codebases_done_world (preloader mib : list nat) (data : string)
    (markup : list node) (w : world) :
  jq_string data = Some markup ->
  let parsed := renum_forest (next_id w) markup in
  let fw0 := flat_map (find_nodes (has_id "formWrapper") true) parsed in
  let getForm := ids_of (children (has_id "getForm") fw0) in
  let button := renum_forest (next_id w + forest_size markup)
                             (parseHTML update_button_markup) in
  let ln := copies getForm button
                   (next_id w + forest_size markup +
                    forest_size (parseHTML update_button_markup)) in
  let fw := flat_map (find_nodes (has_id "formWrapper") true)
                     (map (insert_all (fst ln)) parsed) in
  let d3 := append_into (ids_of (jq_id "content1" (doc w)))
                        (map (remove (roots fw)) fw) (remove preloader (doc w)) in
  let d4 := update mib show d3 in
  let d5 := update (ids_of (jq_id "getForm" d4)) (set_attr "action" (URL w)) d4 in
  codebasesBranches_done preloader mib data w =
    mkWorld d5
            (match getForm with
             | [] => next_id w + forest_size markup
             | _ :: _ => snd ln
             end)
            (URL w)
            (click_h w ++ map (fun i => (i, HHideBoxes)) (ids_of (getForm_buttons true d5)))
            (deleg_h w)
            (resize_h w ++ [RCenter mib])
            (tasks w ++ map (fun _ => KFocus) (filter (fun i => is_hidden i d3) mib) ++
             [KSelectors])
            (trace w ++ [EJCenter mib; EFadeIn mib] ++
             map (fun _ => EFocus (ids_of (getForm_buttons false d4)))
                 (filter (fun i => negb (is_hidden i d3)) mib) ++
             [ERequire "selectors"; EClosePopup mib]).
Proof.
  intros Hj parsed fw0 getForm button ln fw d3 d4 d5.
  unfold codebasesBranches_done. rewrite Hj. unfold create, jCenter.
  cbn [doc on_doc with_doc next_id with_next_id].
  fold parsed. fold fw0. fold getForm.
  destruct getForm as [|g0 gs] eqn:G.
  - assert (Hfw : fw = fw0).
    { unfold fw, ln. cbn [copies fst]. rewrite insert_all_nil. reflexivity. }
    rewrite fadeIn_callback, concat_map_single.
    cbv [bind_click bind_resize closePopup emit on_doc with_doc with_next_id with_click_h
         with_resize_h with_tasks with_trace doc next_id URL click_h deleg_h resize_h
         tasks trace].
    unfold d5, d4, d3. rewrite Hfw.
    rewrite <- !app_assoc. reflexivity.
  - fold button. fold ln. destruct ln as [l n] eqn:E.
    rewrite fadeIn_callback, concat_map_single.
    cbv [bind_click bind_resize closePopup emit on_doc with_doc with_next_id with_click_h
         with_resize_h with_tasks with_trace doc next_id URL click_h deleg_h resize_h
         tasks trace fst snd].
    unfold d5, d4, d3, fw. cbn [fst].
    rewrite <- !app_assoc. reflexivity.
Qed.

Lemma codebases_done_doc (preloader mib : list nat) (data : string)
    (markup : list node) (w : world) :
  jq_string data = Some markup ->
  exists new,
    doc (codebasesBranches_done preloader mib data w) =
      update (ids_of (jq_id "getForm"
                        (update mib show
                           (append_into (ids_of (jq_id "content1" (doc w))) new
                                        (remove preloader (doc w))))))
             (set_attr "action" (URL w))
             (update mib show
                (append_into (ids_of (jq_id "content1" (doc w))) new
                             (remove preloader (doc w)))) /\
    (cnt (has_id "formWrapper")
         (flat_map (fun t => forest_elems (kids t)) markup) = 0 -> new = []).
Proof.
  intros Hj. rewrite (codebases_done_world preloader mib data markup w Hj).
  cbv zeta. cbn [doc]. eexists. split; [reflexivity|].
  intros H.
  rewrite find_nodes_top_none by (auto; reflexivity).
  cbn [children flat_map ids_of map copies fst]. rewrite insert_all_nil.
  rewrite find_nodes_top_none by (auto; reflexivity). reflexivity.
Qed.

(** X13.  When the answer is markup that holds no element with the id
    [formWrapper] below its top-level nodes (none at all, or only at
    the top level, where [.find()] does not look), nothing of it
    enters the document: the preloader goes and the frame is shown
    empty.  The Update button is not built: only the identities of
    the answer are used up. *)
Theorem codebases_without_wrapper (preloader mib : list nat) (data : string)
    (markup : list node) (w : world) :
  jq_string data = Some markup ->
  cnt (has_id "formWrapper")
      (flat_map (fun t => forest_elems (kids t)) markup) = 0 ->
  doc (codebasesBranches_done preloader mib data w) =
    update (ids_of (jq_id "getForm" (update mib show (remove preloader (doc w)))))
           (set_attr "action" (URL w))
           (update mib show (remove preloader (doc w))) /\
  next_id (codebasesBranches_done preloader mib data w) = next_id w + forest_size markup.
Proof.
  intros Hj H. split.
  - destruct (codebases_done_doc preloader mib data markup w Hj) as [new [E Hn]].
    rewrite E, (Hn H), append_into_nil. reflexivity.
  - rewrite (codebases_done_world preloader mib data markup w Hj).
    cbv zeta. cbn [next_id].
    rewrite find_nodes_top_none by (auto; reflexivity). reflexivity.
Qed.

(** X14.  After the arrival of an answer that is markup, the element
    that [$('#getForm')] finds, if there is one, submits to the address
    of the page: its [action] attribute is [window.location.href]. *)
Theorem codebases_form_action (preloader mib : list nat) (data : string)
    (markup : list node) (w : world) (e : elem) :
  jq_string data = Some markup ->
  In e (jq_id "getForm" (doc (codebasesBranches_done preloader mib data w))) ->
  attr "action" e = Some (URL w).
Proof.
  intros Hj.
  destruct (codebases_done_doc preloader mib data markup w Hj) as [new [E _]]. rewrite E.
  set (d5 := update mib show _).
  rewrite jq_id_update.
  - intros H. apply in_map_iff in H. destruct H as [x [Ex Hx]].
    assert (M : mem (nid x) (ids_of (jq_id "getForm" d5)) = true).
    { apply mem_In. unfold ids_of. apply in_map. exact Hx. }
    rewrite M in Ex. subst e. unfold attr, set_attr. cbn [attrs set_attrs].
    apply assoc_set_same.
  - intros x. apply has_id_set_attr. discriminate.
  - reflexivity.
Qed.

(** *** Clicks after init (lines 7-50) *)

Lemma direct_handlers (w : world) (c : nat) :
  flat_map (fun b => if Nat.eqb (fst b) c then [(snd b, c)] else []) (click_h w) =
  map (fun h => (h, c)) (bound_on c w).
Proof.
  unfold bound_on. induction (click_h w) as [|b l IH]; cbn [flat_map filter map]; auto.
  destruct (Nat.eqb (fst b) c); cbn [map app]; rewrite IH; reflexivity.
Qed.

Lemma delegated_none (w : world) (bl : list nat) (c : nat) :
  ~ In c (delegation_roots w) ->
  flat_map (fun cur =>
              flat_map (fun d => match d with
                                 | (r, cls, h) =>
                                     if Nat.eqb r c && matches cls cur (doc w)
                                     then [(h, cur)] else []
                                 end) (deleg_h w)) bl = [].
Proof.
  unfold delegation_roots. intros Hd.
  induction bl as [|cur bl IH]; cbn [flat_map]; auto. rewrite IH, app_nil_r.
  clear IH. induction (deleg_h w) as [|[[r cls] h] l IH]; cbn [flat_map map fst] in *; auto.
  destruct (Nat.eqb r c) eqn:E.
  - apply Nat.eqb_eq in E. exfalso. apply Hd. left. exact E.
  - cbn [andb app]. apply IH. intros H. apply Hd. right. exact H.
Qed.

Lemma handlers_at_none (w : world) (bl : list nat) (c : nat) :
  bound_on c w = [] -> ~ In c (delegation_roots w) -> handlers_at w bl c = [].
Proof.
  intros Hc Hd. unfold handlers_at.
  rewrite direct_handlers, Hc, delegated_none; auto.
Qed.

Lemma bubble_app (p1 p2 below : list nat) (s : world * bool) :
  bubble below (p1 ++ p2) s = bubble (below ++ p1) p2 (bubble below p1 s).
Proof.
  revert below s. induction p1 as [|c p1 IH]; intros below s; cbn [app bubble].
  - rewrite app_nil_r. reflexivity.
  - rewrite IH, <- app_assoc. reflexivity.
Qed.

Lemma in_firstn {A} (n : nat) (l : list A) (x : A) : In x (firstn n l) -> In x l.
Proof.
  revert l. induction n as [|n IH]; intros [|a l]; cbn [firstn]; auto.
  - intros [].
  - intros [H|H]; [left; exact H|right; apply IH; exact H].
Qed.

Lemma jq_all_class_In (c : string) (d : node) (i : nat) :
  In i (ids_of (jq_all (by_class c) d)) ->
  exists e, In e (elems d) /\ nid e = i /\ hasClass c e = true.
Proof.
  rewrite jq_all_class. unfold ids_of. intros H. apply in_map_iff in H.
  destruct H as [e [E He]]. apply filter_In in He. exists e. tauto.
Qed.

Lemma jq_id_In (i : string) (d : node) (c : nat) :
  In c (ids_of (jq_id i d)) ->
  exists e, In e (elems d) /\ nid e = c /\ has_id i e = true.
Proof.
  unfold ids_of, jq_id, jq_all, by_id. intros H. apply in_map_iff in H.
  destruct H as [e [E He]]. apply in_firstn in He. rewrite find_inside in He.
  apply filter_In in He. exists e. tauto.
Qed.

Lemma init_fields (w : world) :
  doc (init w) = doc w /\ next_id (init w) = next_id w /\ tasks (init w) = tasks w /\
  trace (init w) = trace w /\ resize_h (init w) = resize_h w /\ URL (init w) = URL w /\
  click_h (init w) =
    click_h w ++
    map (fun i => (i, HStatic)) (ids_of (jq_all (by_class "popup-btn-js-2") (doc w))) ++
    map (fun i => (i, HGetBtn)) (ids_of (jq_id "getBtn" (doc w))) ++
    map (fun i => (i, HAjaxBtn)) (ids_of (jq_all (by_class "ajaxbtn") (doc w))) /\
  deleg_h (init w) =
    deleg_h w ++
    map (fun i => (i, "popup-btn-js-2", HStatic)) (ids_of (jq_id "tablesorterRt" (doc w))) ++
    map (fun i => (i, "popup-btn-js", HPending)) (ids_of (jq_id "tablesorterRt" (doc w))).
Proof.
  unfold init. world_tac. rewrite <- !app_assoc. repeat split; reflexivity.
Qed.

Lemma bound_on_nil (c : nat) (w : world) :
  ~ In c (map fst (click_h w)) -> bound_on c w = [].
Proof.
  unfold bound_on. induction (click_h w) as [|b l IH]; cbn [filter map]; auto.
  intros H. destruct (Nat.eqb (fst b) c) eqn:E.
  - apply Nat.eqb_eq in E. exfalso. apply H. left. exact E.
  - apply IH. intros Hl. apply H. right. exact Hl.
Qed.

Lemma map_fst_pair {A B} (h : B) (l : list A) : map fst (map (fun i => (i, h)) l) = l.
Proof. rewrite map_map. apply map_id. Qed.

(** X16.  [init] binds by the page as it is when it runs.  Afterwards a
    click does nothing when no element on its way up to the body was,
    at that time, a static trigger, an ajax trigger, the [#getBtn] or
    the [#tablesorterRt] table: a trigger added later outside the table
    is dead, whatever class it carries. *)
Theorem click_after_init_unbound (w0 wl : world) (t : nat) :
  click_h w0 = [] -> deleg_h w0 = [] ->
  click_h wl = click_h (init w0) -> deleg_h wl = deleg_h (init w0) ->
  (forall c e, In c (path_to t (doc wl)) -> In e (elems (doc w0)) -> nid e = c ->
     hasClass "popup-btn-js-2" e = false /\ hasClass "ajaxbtn" e = false /\
     has_id "getBtn" e = false /\ has_id "tablesorterRt" e = false) ->
  click t wl = (wl, false).
Proof.
  intros Hc0 Hd0 Hc Hd H.
  destruct (init_fields w0) as [_ [_ [_ [_ [_ [_ [Ic Id]]]]]]].
  rewrite Hc0 in Ic. rewrite Hd0 in Id. cbn [app] in Ic, Id.
  unfold click. apply bubble_idle. cbn [fst]. intros c bl Hin.
  apply handlers_at_none.
  - apply bound_on_nil. rewrite Hc, Ic, !map_app, !map_fst_pair. intros Hx.
    apply in_app_iff in Hx. destruct Hx as [Hx|Hx].
    { apply jq_all_class_In in Hx. destruct Hx as [e [He [En Hq]]].
      destruct (H c e Hin He En) as [H1 _]. congruence. }
    apply in_app_iff in Hx. destruct Hx as [Hx|Hx].
    { apply jq_id_In in Hx. destruct Hx as [e [He [En Hq]]].
      destruct (H c e Hin He En) as [_ [_ [H1 _]]]. congruence. }
    apply jq_all_class_In in Hx. destruct Hx as [e [He [En Hq]]].
    destruct (H c e Hin He En) as [_ [H1 _]]. congruence.
  - unfold delegation_roots. rewrite Hd, Id, map_app, !map_map. cbn [fst].
    rewrite map_id. intros Hx. apply in_app_iff in Hx.
    assert (Hx' : In c (ids_of (jq_id "tablesorterRt" (doc w0)))) by tauto.
    apply jq_id_In in Hx'. destruct Hx' as [e [He [En Hq]]].
    destruct (H c e Hin He En) as [_ [_ [_ H1]]]. congruence.
Qed.

Lemma path_to_In (i c : nat) (t : node) : In c (path_to i t) -> In c (node_ids t).
Proof.
  intros H. apply (count_occ_In Nat.eq_dec) in H.
  apply (count_occ_In Nat.eq_dec). pose proof (path_to_count i c t). lia.
Qed.

Lemma path_to_NoDup (i : nat) (t : node) : NoDup (node_ids t) -> NoDup (path_to i t).
Proof.
  intros H. apply (NoDup_count_occ Nat.eq_dec). intros x.
  pose proof (path_to_count i x t).
  pose proof (proj1 (NoDup_count_occ Nat.eq_dec _) H x). lia.
Qed.

Lemma flat_map_nil {A B} (f : A -> list B) (l : list A) :
  (forall x, In x l -> f x = []) -> flat_map f l = [].
Proof.
  induction l as [|a l IH]; cbn [flat_map]; auto. intros H.
  rewrite (H a), IH; auto.
  - intros x Hx. apply H. right. exact Hx.
  - left. reflexivity.
Qed.

Lemma handlers_at_table (w : world) (r0 : nat) (bl : list nat) :
  deleg_h w = [(r0, "popup-btn-js-2", HStatic); (r0, "popup-btn-js", HPending)] ->
  bound_on r0 w = [] ->
  handlers_at w bl r0 =
  flat_map (fun cur =>
              (if matches "popup-btn-js-2" cur (doc w) then [(HStatic, cur)] else []) ++
              (if matches "popup-btn-js" cur (doc w) then [(HPending, cur)] else [])) bl.
Proof.
  intros Hd Hb. unfold handlers_at. rewrite direct_handlers, Hb, Hd. cbn [map].
  rewrite app_nil_r. apply flat_map_ext. intros cur. cbn [flat_map].
  rewrite Nat.eqb_refl. cbn [andb]. rewrite app_nil_r. reflexivity.
Qed.

Lemma init_table (w0 : world) (e0 : elem) :
  deleg_h w0 = [] -> jq_id "tablesorterRt" (doc w0) = [e0] ->
  deleg_h (init w0) =
    [(nid e0, "popup-btn-js-2", HStatic); (nid e0, "popup-btn-js", HPending)].
Proof.
  intros Hd Ht. destruct (init_fields w0) as [_ [_ [_ [_ [_ [_ [_ Id]]]]]]].
  rewrite Id, Hd, Ht. reflexivity.
Qed.

Lemma pendingJobs_handlers (url : string) (w : world) :
  click_h (pendingJobs url w) = click_h w /\ deleg_h (pendingJobs url w) = deleg_h w.
Proof. unfold pendingJobs, create, request. world_tac. split; reflexivity. Qed.

Lemma nonAjaxPopup_handlers (thisEl : list nat) (w : world) :
  click_h (nonAjaxPopup thisEl w) = click_h w /\ deleg_h (nonAjaxPopup thisEl w) = deleg_h w.
Proof.
  unfold nonAjaxPopup, create, jCenter, bind_resize. rewrite fadeIn_callback.
  world_tac. split; reflexivity.
Qed.

Lemma bound_on_same (c : nat) (w w' : world) :
  click_h w' = click_h w -> bound_on c w' = bound_on c w.
Proof. unfold bound_on. intros ->. reflexivity. Qed.

Lemma delegation_roots_same (w w' : world) :
  deleg_h w' = deleg_h w -> delegation_roots w' = delegation_roots w.
Proof. unfold delegation_roots. intros ->. reflexivity. Qed.

(** X17.  The pending-jobs trigger works by delegation to the table, so it
    also works for links added after [init]: a click on an element of
    class [popup-btn-js] below the table that was there when [init]
    ran starts the pending-jobs flow once, with the endpoint computed
    from the page address and the trigger's [data-builderName], and
    prevents the default action. *)
Theorem delegated_pending_click (w0 wl : world) (e0 : elem) (t : nat)
    (below above : list nat) :
  deleg_h w0 = [] -> jq_id "tablesorterRt" (doc w0) = [e0] ->
  deleg_h wl = deleg_h (init w0) ->
  NoDup (node_ids (doc wl)) ->
  path_to t (doc wl) = t :: below ++ nid e0 :: above ->
  (forall c, In c (path_to t (doc wl)) -> bound_on c wl = []) ->
  matches "popup-btn-js" t (doc wl) = true ->
  matches "popup-btn-js-2" t (doc wl) = false ->
  (forall c, In c below -> matches "popup-btn-js" c (doc wl) = false /\
                           matches "popup-btn-js-2" c (doc wl) = false) ->
  click t wl =
    (pendingJobs (buildqueue_url (URL wl) (jq_attr [t] "data-builderName" (doc wl))) wl,
     true).
Proof.
  intros Hd0 Ht Hd Hnd Hpath Hb Hp Hs Hbelow.
  pose proof (init_table w0 e0 Hd0 Ht) as Id. rewrite <- Hd in Id.
  pose proof (path_to_NoDup t (doc wl) Hnd) as Hpn. rewrite Hpath in Hpn.
  change (t :: below ++ nid e0 :: above) with ((t :: below) ++ nid e0 :: above) in Hpn.
  assert (Hr1 : ~ In (nid e0) (t :: below)).
  { intros Hin. apply (NoDup_app_disjoint _ _ _ Hpn Hin). left. reflexivity. }
  assert (Hr2 : ~ In (nid e0) above).
  { apply NoDup_app_remove_l in Hpn. inversion Hpn; auto. }
  assert (Hroots : forall w', deleg_h w' = deleg_h wl -> forall c,
             c <> nid e0 -> ~ In c (delegation_roots w')).
  { intros w' E c Hc. unfold delegation_roots. rewrite E, Id. cbn [map fst].
    intros [H|[H|[]]]; congruence. }
  unfold click. rewrite Hpath.
  change (t :: below ++ nid e0 :: above) with ((t :: below) ++ nid e0 :: above).
  rewrite bubble_app. cbn [app].
  rewrite (bubble_idle (t :: below) [] (wl, false)).
  2:{ cbn [fst]. intros c bl Hc. apply handlers_at_none.
      - apply Hb. rewrite Hpath. change (In c ((t :: below) ++ nid e0 :: above)).
        apply in_app_iff. left. exact Hc.
      - apply (Hroots wl eq_refl). intros ->. contradiction. }
  cbn [bubble fst].
  rewrite (handlers_at_table wl (nid e0) (t :: below) Id).
  2:{ apply Hb. rewrite Hpath. change (In (nid e0) ((t :: below) ++ nid e0 :: above)).
      apply in_app_iff. right. left. reflexivity. }
  cbn [flat_map]. rewrite Hp, Hs. rewrite flat_map_nil.
  2:{ intros c Hc. destruct (Hbelow c Hc) as [-> ->]. reflexivity. }
  cbn [app run_handlers fold_left fst snd run_handler].
  apply bubble_idle. cbn [fst]. intros c bl Hc.
  destruct (pendingJobs_handlers
              (buildqueue_url (URL wl) (jq_attr [t] "data-builderName" (doc wl))) wl)
    as [Pc Pd].
  apply handlers_at_none.
  - rewrite (bound_on_same c wl _ Pc). apply Hb. rewrite Hpath.
    change (In c ((t :: below) ++ nid e0 :: above)).
    apply in_app_iff. right. right. exact Hc.
  - apply (Hroots _ Pd). intros ->. contradiction.
Qed.

Lemma find_app_l {A} (f : A -> bool) (l1 l2 : list A) :
  (exists x, In x l1 /\ f x = true) -> List.find f (l1 ++ l2) = List.find f l1.
Proof.
  induction l1 as [|a l1 IH]; cbn [List.find app]; intros [x [Hx Hf]]; [destruct Hx|].
  destruct (f a) eqn:E; [reflexivity|].
  apply IH. destruct Hx as [->|Hx]; [congruence|]. exists x. auto.
Qed.

Lemma lookup_append_body (i : nat) (new : list node) (d : node) :
  In i (node_ids d) -> lookup i (append_body new d) = lookup i d.
Proof.
  intros H. unfold lookup. rewrite elems_append_body. apply find_app_l.
  unfold node_ids in H. apply in_map_iff in H. destruct H as [e [E He]].
  exists e. split; auto. apply Nat.eqb_eq. exact E.
Qed.

Lemma matches_nonAjaxPopup (cls : string) (c t : nat) (box : node) (w : world) :
  wf_world w = true -> next [t] (doc w) = [box] -> In c (node_ids (doc w)) ->
  matches cls c (doc (nonAjaxPopup [t] w)) = matches cls c (doc w).
Proof.
  intros Hwf Hnext Hc. destruct (nonAjaxPopup_step t box w Hwf Hnext) as [Hd _].
  unfold matches. rewrite Hd, lookup_append_body; auto.
Qed.

(** X18.  A static trigger inside the table that was there when [init]
    ran is bound twice, on itself and by delegation to the table: one
    click on it runs the static popup flow twice, so two copies of its
    box are appended to the body. *)
Theorem static_trigger_in_table_opens_twice (w0 wl : world) (e0 : elem) (t : nat)
    (below above : list nat) (box : node) :
  deleg_h w0 = [] -> jq_id "tablesorterRt" (doc w0) = [e0] ->
  deleg_h wl = deleg_h (init w0) ->
  wf_world wl = true ->
  path_to t (doc wl) = t :: below ++ nid e0 :: above ->
  bound_on t wl = [HStatic] ->
  (forall c, In c (below ++ nid e0 :: above) -> bound_on c wl = []) ->
  matches "popup-btn-js-2" t (doc wl) = true ->
  matches "popup-btn-js" t (doc wl) = false ->
  (forall c, In c below -> matches "popup-btn-js" c (doc wl) = false /\
                           matches "popup-btn-js-2" c (doc wl) = false) ->
  next [t] (doc wl) = [box] ->
  click t wl = (nonAjaxPopup [t] (nonAjaxPopup [t] wl), true) /\
  kids (doc (fst (click t wl))) =
    kids (doc wl) ++ [shown (renum (next_id wl) box);
                      shown (renum (next_id wl + size box) box)].
Proof.
  intros Hd0 Ht Hd Hwf Hpath Hbt Hb Hs Hp Hbelow Hnext.
  pose proof (init_table w0 e0 Hd0 Ht) as Id. rewrite <- Hd in Id.
  pose proof Hwf as Hwf'. apply wf_world_spec in Hwf'. destruct Hwf' as [Hnd _].
  pose proof (path_to_NoDup t (doc wl) Hnd) as Hpn. rewrite Hpath in Hpn.
  change (t :: below ++ nid e0 :: above) with ((t :: below) ++ nid e0 :: above) in Hpn.
  assert (Hr1 : ~ In (nid e0) (t :: below)).
  { intros Hin. apply (NoDup_app_disjoint _ _ _ Hpn Hin). left. reflexivity. }
  assert (Hr2 : ~ In (nid e0) above).
  { apply NoDup_app_remove_l in Hpn. inversion Hpn; auto. }
  assert (Hin : forall c, In c (t :: below ++ nid e0 :: above) -> In c (node_ids (doc wl))).
  { intros c Hc. apply (path_to_In t). rewrite Hpath. exact Hc. }
  assert (Hroots : forall w', deleg_h w' = deleg_h wl -> forall c,
             c <> nid e0 -> ~ In c (delegation_roots w')).
  { intros w' E c Hc. unfold delegation_roots. rewrite E, Id. cbn [map fst].
    intros [H|[H|[]]]; congruence. }
  set (w1 := nonAjaxPopup [t] wl).
  destruct (nonAjaxPopup_handlers [t] wl) as [C1 D1]. fold w1 in C1, D1.
  destruct (nonAjaxPopup_handlers [t] w1) as [C2 D2].
  assert (E : click t wl = (nonAjaxPopup [t] w1, true)).
  { unfold click. rewrite Hpath. cbn [bubble app fst].
    unfold handlers_at at 1. cbn [flat_map app]. rewrite direct_handlers, Hbt.
    cbn [map run_handlers fold_left fst snd run_handler]. fold w1.
    rewrite bubble_app.
    rewrite (bubble_idle below [t] (w1, true)).
    2:{ cbn [fst]. intros c bl Hc. apply handlers_at_none.
        - rewrite (bound_on_same c wl w1 C1). apply Hb. apply in_app_iff. left. exact Hc.
        - apply (Hroots w1 D1). intros ->. apply Hr1. right. exact Hc. }
    cbn [bubble fst app].
    rewrite (handlers_at_table w1 (nid e0) (t :: below)).
    2:{ rewrite D1. exact Id. }
    2:{ rewrite (bound_on_same _ wl w1 C1). apply Hb. apply in_app_iff. right. left.
        reflexivity. }
    cbn [flat_map].
    rewrite !(matches_nonAjaxPopup _ t t box wl Hwf Hnext) by (apply Hin; left; reflexivity).
    rewrite Hp, Hs. rewrite flat_map_nil.
    2:{ intros c Hc.
        rewrite !(matches_nonAjaxPopup _ c t box wl Hwf Hnext)
          by (apply Hin; right; apply in_app_iff; left; exact Hc).
        destruct (Hbelow c Hc) as [-> ->]. reflexivity. }
    cbn [app run_handlers fold_left fst snd run_handler].
    apply bubble_idle. cbn [fst]. intros c bl Hc. apply handlers_at_none.
    - rewrite (bound_on_same c w1 _ C2), (bound_on_same c wl w1 C1).
      apply Hb. apply in_app_iff. right. right. exact Hc.
    - apply (Hroots _ (eq_trans D2 D1)). intros ->. contradiction. }
  split; [exact E|]. rewrite E. cbn [fst].
  destruct (nonAjaxPopup_iter t box wl 2 Hwf Hnext) as [_ [_ [_ [H2 _]]]].
  cbn [Nat.iter nat_rect] in H2. fold w1 in H2. rewrite H2.
  cbn [kids seq map]. rewrite Nat.mul_0_l, Nat.add_0_r, Nat.mul_1_l. reflexivity.
Qed.

Lemma NoDup_map_filter {A B} (f : A -> B) (q : A -> bool) (l : list A) :
  NoDup (map f l) -> NoDup (map f (filter q l)).
Proof.
  induction l as [|a l IH]; cbn [map filter]; auto.
  intros H. inversion H as [|? ? Hn Hl]; subst.
  destruct (q a); cbn [map]; auto. constructor; auto.
  intros Hin. apply Hn. apply in_map_iff in Hin. destruct Hin as [x [E Hx]].
  apply filter_In in Hx. rewrite <- E. apply in_map. tauto.
Qed.

Lemma bound_on_app (c : nat) (w : world) (l1 l2 : list (nat * handler)) :
  click_h w = l1 ++ l2 ->
  bound_on c w = map snd (filter (fun b => Nat.eqb (fst b) c) l1) ++
                 map snd (filter (fun b => Nat.eqb (fst b) c) l2).
Proof. unfold bound_on. intros ->. rewrite filter_app, map_app. reflexivity. Qed.

Lemma bound_pairs_none (c : nat) (h : handler) (l : list nat) :
  ~ In c l -> map snd (filter (fun b => Nat.eqb (fst b) c) (map (fun i => (i, h)) l)) = [].
Proof.
  induction l as [|a l IH]; cbn [map filter fst]; auto. intros H.
  destruct (Nat.eqb a c) eqn:E.
  - apply Nat.eqb_eq in E. exfalso. apply H. left. exact E.
  - apply IH. intros Hl. apply H. right. exact Hl.
Qed.

Lemma bound_pairs_once (c : nat) (h : handler) (l : list nat) :
  NoDup l -> In c l ->
  map snd (filter (fun b => Nat.eqb (fst b) c) (map (fun i => (i, h)) l)) = [h].
Proof.
  induction l as [|a l IH]; cbn [map filter fst]; intros Hnd Hin; [destruct Hin|].
  inversion Hnd as [|? ? Hn Hl]; subst. destruct (Nat.eqb a c) eqn:E.
  - apply Nat.eqb_eq in E. subst a. cbn [map snd]. rewrite bound_pairs_none; auto.
  - apply Nat.eqb_neq in E. destruct Hin as [Hin|Hin]; [contradiction|]. auto.
Qed.

Lemma click_single (w : world) (t : nat) (up : list nat) (h : handler) :
  path_to t (doc w) = t :: up ->
  bound_on t w = [h] ->
  (forall c, In c up -> bound_on c w = []) ->
  (forall c, In c (t :: up) -> ~ In c (delegation_roots w)) ->
  click_h (fst (run_handler h t (w, false))) = click_h w ->
  deleg_h (fst (run_handler h t (w, false))) = deleg_h w ->
  click t w = run_handler h t (w, false).
Proof.
  intros Hpath Hbt Hb Hr Hc Hd. unfold click. rewrite Hpath. cbn [bubble app fst].
  unfold handlers_at. rewrite delegated_none by (apply Hr; left; reflexivity).
  rewrite direct_handlers, Hbt. cbn [map app run_handlers fold_left fst snd].
  apply bubble_idle. intros c bl Hin. apply handlers_at_none.
  - rewrite (bound_on_same c w _ Hc). apply Hb. exact Hin.
  - rewrite (delegation_roots_same w _ Hd). apply Hr. right. exact Hin.
Qed.

(** X19.  The triggers bound on themselves.  On a page with distinct
    identities, straight after [init], a click on an element of class
    [ajaxbtn] starts the external-fragment flow for that element, and a
    click on the element [$('#getBtn')] finds starts the branch
    selector; either prevents the default action.  This holds when
    nothing else is bound on the way up: the trigger is no static
    trigger, and nothing above it was a trigger or the table. *)
Theorem init_direct_triggers (w0 : world) (t : nat) (e : elem) (up : list nat) :
  click_h w0 = [] -> deleg_h w0 = [] -> wf_world w0 = true ->
  In e (elems (doc w0)) -> nid e = t -> hasClass "popup-btn-js-2" e = false ->
  path_to t (doc w0) = t :: up ->
  ~ In t (ids_of (jq_id "tablesorterRt" (doc w0))) ->
  (forall c e', In c up -> In e' (elems (doc w0)) -> nid e' = c ->
     hasClass "popup-btn-js-2" e' = false /\ hasClass "ajaxbtn" e' = false /\
     has_id "getBtn" e' = false /\ has_id "tablesorterRt" e' = false) ->
  (hasClass "ajaxbtn" e = true -> ~ In t (ids_of (jq_id "getBtn" (doc w0))) ->
   click t (init w0) = (externalContentPopup [t] (init w0), true)) /\
  (hasClass "ajaxbtn" e = false -> ids_of (jq_id "getBtn" (doc w0)) = [t] ->
   click t (init w0) = (codebasesBranches (init w0), true)).
Proof.
  intros Hc0 Hd0 Hwf He En Hs Hpath Htab Hup.
  apply wf_world_spec in Hwf. destruct Hwf as [Hnd _].
  destruct (init_fields w0) as [Idoc [_ [_ [_ [_ [_ [Ic Id]]]]]]].
  rewrite Hc0 in Ic. rewrite Hd0 in Id. cbn [app] in Ic, Id.
  assert (Hcls : forall k, In t (ids_of (jq_all (by_class k) (doc w0))) ->
                           hasClass k e = true).
  { intros k H. apply jq_all_class_In in H. destruct H as [x [Hx [Ex Hq]]].
    rewrite (NoDup_map_inj nid (elems (doc w0)) e x Hnd He Hx); auto. congruence. }
  assert (Hupb : forall c, In c up -> bound_on c (init w0) = []).
  { intros c Hin. apply bound_on_nil. rewrite Ic, !map_app, !map_fst_pair. intros Hx.
    apply in_app_iff in Hx. destruct Hx as [Hx|Hx].
    { apply jq_all_class_In in Hx. destruct Hx as [x [Hx [Ex Hq]]].
      destruct (Hup c x Hin Hx Ex) as [H1 _]. congruence. }
    apply in_app_iff in Hx. destruct Hx as [Hx|Hx].
    { apply jq_id_In in Hx. destruct Hx as [x [Hx [Ex Hq]]].
      destruct (Hup c x Hin Hx Ex) as [_ [_ [H1 _]]]. congruence. }
    apply jq_all_class_In in Hx. destruct Hx as [x [Hx [Ex Hq]]].
    destruct (Hup c x Hin Hx Ex) as [_ [H1 _]]. congruence. }
  assert (Hroots : forall c, In c (t :: up) -> ~ In c (delegation_roots (init w0))).
  { intros c Hin. unfold delegation_roots. rewrite Id, map_app, !map_map. cbn [fst].
    rewrite map_id. intros Hx. apply in_app_iff in Hx.
    assert (Hx' : In c (ids_of (jq_id "tablesorterRt" (doc w0)))) by tauto.
    destruct Hin as [<-|Hin]; [contradiction|].
    apply jq_id_In in Hx'. destruct Hx' as [x [Hx' [Ex Hq]]].
    destruct (Hup c x Hin Hx' Ex) as [_ [_ [_ H1]]]. congruence. }
  assert (Hstat : map snd (filter (fun b => Nat.eqb (fst b) t)
                     (map (fun i => (i, HStatic))
                          (ids_of (jq_all (by_class "popup-btn-js-2") (doc w0))))) = []).
  { apply bound_pairs_none. intros H. apply Hcls in H. congruence. }
  rewrite <- Idoc in Hpath.
  split.
  - intros Ha Hg.
    apply (click_single (init w0) t up HAjaxBtn Hpath); auto.
    + rewrite (bound_on_app t (init w0) _ _ Ic), Hstat. cbn [app].
      rewrite filter_app, map_app, bound_pairs_none by exact Hg. cbn [app].
      apply bound_pairs_once.
      * rewrite jq_all_class. unfold ids_of. apply NoDup_map_filter. exact Hnd.
      * rewrite jq_all_class. unfold ids_of. rewrite <- En.
        apply in_map. apply filter_In. auto.
  - intros Ha Hg.
    apply (click_single (init w0) t up HGetBtn Hpath); auto.
    + rewrite (bound_on_app t (init w0) _ _ Ic), Hstat. cbn [app].
      rewrite filter_app, map_app, Hg. cbn [map filter fst]. rewrite Nat.eqb_refl.
      cbn [map snd app]. rewrite bound_pairs_none; auto.
      intros H. apply Hcls in H. congruence.
Qed.

(** *** The tabs (lines 179-192) *)

Lemma elems_tmap (F : elem -> elem) (t : node) : elems (tmap F t) = map F (elems t).
Proof.
  induction t as [e ks IH] using node_ind. cbn [tmap elems map]. f_equal.
  induction IH as [|k r Hk Hr IHr]; cbn [map flat_map]; auto.
  rewrite map_app, Hk, IHr. reflexivity.
Qed.

Lemma update_tmap (ids : list nat) (g : elem -> elem) (t : node) :
  update ids g t = tmap (fun e => if mem (nid e) ids then g e else e) t.
Proof.
  induction t as [e ks IH] using node_ind. cbn [update tmap]. f_equal.
  induction IH as [|k r Hk Hr IHr]; cbn [map]; auto. rewrite Hk, IHr. reflexivity.
Qed.

Lemma tmap_tmap (F G : elem -> elem) (t : node) :
  tmap F (tmap G t) = tmap (fun e => F (G e)) t.
Proof.
  induction t as [e ks IH] using node_ind. cbn [tmap]. f_equal.
  rewrite map_map. induction IH as [|k r Hk Hr IHr]; cbn [map]; auto.
  rewrite Hk, IHr. reflexivity.
Qed.

Lemma tmap_ext (F G : elem -> elem) (t : node) :
  (forall e, F e = G e) -> tmap F t = tmap G t.
Proof.
  intros H. induction t as [e ks IH] using node_ind. cbn [tmap]. rewrite H. f_equal.
  induction IH as [|k r Hk Hr IHr]; cbn [map]; auto. rewrite Hk, IHr. reflexivity.
Qed.

Lemma root_tmap (F : elem -> elem) (t : node) : root (tmap F t) = F (root t).
Proof. destruct t. reflexivity. Qed.

Lemma parent_tmap (F : elem -> elem) (ids : list nat) (t : node) :
  (forall e, nid (F e) = nid e) -> parent ids (tmap F t) = parent ids t.
Proof.
  intros Hn. induction t as [e ks IH] using node_ind. cbn [tmap parent].
  rewrite Hn. f_equal.
  - replace (existsb (fun k => mem (nid (root k)) ids) (map (tmap F) ks))
      with (existsb (fun k => mem (nid (root k)) ids) ks); [reflexivity|].
    clear IH. induction ks as [|k r IHr]; cbn [map existsb]; auto.
    rewrite root_tmap, Hn, IHr. reflexivity.
  - rewrite flat_map_map. apply flat_map_ext_Forall. exact IH.
Qed.

Lemma position_tmap (F : elem -> elem) (i : nat) (ks : list node) :
  (forall e, nid (F e) = nid e) -> position i (map (tmap F) ks) = position i ks.
Proof.
  intros Hn. induction ks as [|k r IH]; cbn [map position]; auto.
  rewrite root_tmap, Hn, IH. reflexivity.
Qed.

Lemma jq_index_tmap (F : elem -> elem) (i : nat) (t : node) :
  (forall e, nid (F e) = nid e) -> jq_index i (tmap F t) = jq_index i t.
Proof.
  intros Hn. induction t as [e ks IH] using node_ind. cbn [tmap jq_index].
  rewrite position_tmap by exact Hn. destruct (position i ks); [reflexivity|].
  induction IH as [|k r Hk Hr IHr]; cbn [map fold_right]; auto.
  rewrite Hk, IHr. reflexivity.
Qed.

Lemma find_tmap (ctx : list nat) (q : elem -> bool) (F : elem -> elem) (i h h' : bool)
    (t : node) :
  (forall e, q (F e) = q e) -> (forall e, nid (F e) = nid e) ->
  find ctx (fun _ => q) i h (tmap F t) = map F (find ctx (fun _ => q) i h' t).
Proof.
  intros Hq Hn. revert i h h'.
  induction t as [e ks IH] using node_ind. intros i h h'. cbn [tmap find].
  rewrite map_app, Hq, Hn. f_equal.
  - destruct (i && q e); reflexivity.
  - generalize (h || negb (displayed (F e))). generalize (h' || negb (displayed e)).
    generalize (i || mem (nid e) ctx). intros i' b b'.
    induction IH as [|k r Hk Hr IHr]; cbn [map flat_map]; auto.
    rewrite map_app, (Hk i' b' b), IHr. reflexivity.
Qed.

Lemma jq_child_tmap (pp pc : elem -> bool) (F : elem -> elem) (t : node) :
  (forall e, pp (F e) = pp e) -> (forall e, pc (F e) = pc e) ->
  jq_child pp pc (tmap F t) = map F (jq_child pp pc t).
Proof.
  intros Hp Hc. induction t as [e ks IH] using node_ind. cbn [tmap jq_child].
  rewrite Hp. induction IH as [|k r Hk Hr IHr]; cbn [map flat_map]; auto.
  rewrite !map_app, root_tmap, Hc, Hk, IHr.
  destruct (pp e && pc (root k)); reflexivity.
Qed.

Lemma ids_of_map (F : elem -> elem) (l : list elem) :
  (forall e, nid (F e) = nid e) -> ids_of (map F l) = ids_of l.
Proof. intros Hn. unfold ids_of. rewrite map_map. apply map_ext. exact Hn. Qed.

Lemma nid_addClass (c : string) (e : elem) : nid (addClass c e) = nid e.
Proof. unfold addClass. destruct (hasClass c e); reflexivity. Qed.

Lemma customTabs_elem_flat (items : list nat) (this : nat) (blocks : list nat)
    (same : nat -> bool) (e : elem) :
  customTabs_elem items this blocks same e =
  (if mem (nid e) blocks
   then set_displayed (same (nid e))
   else fun x => x)
    ((if Nat.eqb (nid e) this then addClass "selected" else fun x => x)
       ((if mem (nid e) items then removeClass "selected" else fun x => x) e)).
Proof.
  unfold customTabs_elem. cbv zeta.
  destruct (mem (nid e) items); cbn [nid removeClass set_classes];
    rewrite mem_single; destruct (Nat.eqb (nid e) this);
    rewrite ?nid_addClass; cbn [nid removeClass set_classes];
    destruct (mem (nid e) blocks); try reflexivity;
    destruct (same (nid e)); reflexivity.
Qed.

Lemma addClass_fields (c : string) (e : elem) :
  nid (addClass c e) = nid e /\ tag (addClass c e) = tag e /\
  attrs (addClass c e) = attrs e /\ itype (addClass c e) = itype e /\
  name (addClass c e) = name e /\ value (addClass c e) = value e /\
  displayed (addClass c e) = displayed e.
Proof. unfold addClass. destruct (hasClass c e); repeat split; reflexivity. Qed.

Lemma customTabs_elem_fields (items : list nat) (this : nat) (blocks : list nat)
    (same : nat -> bool) (e : elem) :
  nid (customTabs_elem items this blocks same e) = nid e /\
  tag (customTabs_elem items this blocks same e) = tag e /\
  attrs (customTabs_elem items this blocks same e) = attrs e /\
  itype (customTabs_elem items this blocks same e) = itype e /\
  name (customTabs_elem items this blocks same e) = name e /\
  value (customTabs_elem items this blocks same e) = value e /\
  forall k, k <> "selected" ->
            hasClass k (customTabs_elem items this blocks same e) = hasClass k e.
Proof.
  rewrite customTabs_elem_flat.
  set (y := (if mem (nid e) items then removeClass "selected" else fun x => x) e).
  assert (Hy : nid y = nid e /\ tag y = tag e /\ attrs y = attrs e /\ itype y = itype e /\
               name y = name e /\ value y = value e /\
               forall k, k <> "selected" -> hasClass k y = hasClass k e).
  { unfold y. destruct (mem (nid e) items); repeat split; try reflexivity.
    intros k Hk. apply hasClass_removeClass_other. exact Hk. }
  set (x := (if Nat.eqb (nid e) this then addClass "selected" else fun x => x) y).
  assert (Hx : nid x = nid e /\ tag x = tag e /\ attrs x = attrs e /\ itype x = itype e /\
               name x = name e /\ value x = value e /\
               forall k, k <> "selected" -> hasClass k x = hasClass k e).
  { unfold x. destruct (Nat.eqb (nid e) this); [|exact Hy].
    destruct (addClass_fields "selected" y) as [A1 [A2 [A3 [A4 [A5 [A6 _]]]]]].
    destruct Hy as [Y1 [Y2 [Y3 [Y4 [Y5 [Y6 Y7]]]]]].
    rewrite A1, A2, A3, A4, A5, A6. repeat split; auto.
    intros k Hk. rewrite hasClass_addClass_other; auto. }
  destruct (mem (nid e) blocks); exact Hx.
Qed.

Lemma customTabs_click_tmap (this : nat) (d : node) :
  customTabs_click this d =
  tmap (customTabs_elem (ids_of (jq_find (parent [this] d) (by_tag "li") d)) this
          (ids_of (jq_child (hasClass "content-blocks") (is_tag "div") d))
          (fun i => Z.eqb (jq_index i d) (jq_index this d))) d.
Proof.
  unfold customTabs_click. cbv zeta.
  set (items := ids_of (jq_find (parent [this] d) (by_tag "li") d)).
  set (d2 := update [this] (addClass "selected") (update items (removeClass "selected") d)).
  assert (E2 : d2 = tmap (fun e => (fun x => if mem (nid x) [this]
                                             then addClass "selected" x else x)
                                     ((fun x => if mem (nid x) items
                                                then removeClass "selected" x else x) e)) d).
  { unfold d2. rewrite !update_tmap, tmap_tmap. reflexivity. }
  assert (Hn : forall e, nid ((fun x => if mem (nid x) [this]
                                        then addClass "selected" x else x)
                                ((fun x => if mem (nid x) items
                                           then removeClass "selected" x else x) e)) = nid e).
  { intros e. cbv beta. destruct (mem (nid e) items); cbn [nid removeClass set_classes];
      destruct (mem (nid e) [this]); rewrite ?nid_addClass; reflexivity. }
  assert (Hidx : forall i, jq_index i d2 = jq_index i d).
  { intros i. rewrite E2. apply jq_index_tmap. exact Hn. }
  assert (Hb : ids_of (jq_child (hasClass "content-blocks") (is_tag "div") d2) =
               ids_of (jq_child (hasClass "content-blocks") (is_tag "div") d)).
  { rewrite E2, jq_child_tmap.
    - apply ids_of_map. exact Hn.
    - intros e. cbv beta. destruct (mem (nid e) items); cbn [nid removeClass set_classes];
        destruct (mem (nid e) [this]);
        rewrite ?hasClass_addClass_other, ?hasClass_removeClass_other;
        auto; discriminate.
    - intros e. cbv beta. destruct (mem (nid e) items); cbn [nid removeClass set_classes];
        destruct (mem (nid e) [this]); unfold addClass;
        try destruct (hasClass "selected" _); reflexivity. }
  rewrite Hb, update_tmap.
  transitivity
    (tmap (fun e =>
             if mem (nid e) (ids_of (jq_child (hasClass "content-blocks") (is_tag "div") d))
             then (if negb (Z.eqb (jq_index (nid e) d) (jq_index this d))
                   then hide e else show e)
             else e) d2).
  { apply tmap_ext. intros e. rewrite Hidx. reflexivity. }
  rewrite E2, tmap_tmap. apply tmap_ext. intros e. reflexivity.
Qed.

(** X20.  The handler of the tabs, run for the item [this], selects
    that item alone among the list items below its parent: afterwards
    the item carries the class [selected] and no other item below that
    parent does.  The classes of the other elements of the page stay
    as they are. *)
Theorem customTabs_click_selects (this : nat) (d : node) (e' : elem) :
  In this (customTabs d) ->
  In e' (elems (customTabs_click this d)) ->
  (nid e' = this -> hasClass "selected" e' = true) /\
  (nid e' <> this ->
   In (nid e') (ids_of (jq_find (parent [this] d) (by_tag "li") d)) ->
   hasClass "selected" e' = false) /\
  (nid e' <> this ->
   ~ In (nid e') (ids_of (jq_find (parent [this] d) (by_tag "li") d)) ->
   exists e, In e (elems d) /\ nid e = nid e' /\ classes e' = classes e).
Proof.
  intros _. rewrite customTabs_click_tmap, elems_tmap. intros H. apply in_map_iff in H.
  destruct H as [e [E He]]. subst e'.
  destruct (customTabs_elem_fields
              (ids_of (jq_find (parent [this] d) (by_tag "li") d)) this
              (ids_of (jq_child (hasClass "content-blocks") (is_tag "div") d))
              (fun i => Z.eqb (jq_index i d) (jq_index this d)) e) as [Hn _].
  rewrite Hn. rewrite customTabs_elem_flat.
  set (items := ids_of (jq_find (parent [this] d) (by_tag "li") d)).
  assert (Hd : forall x, hasClass "selected"
                 ((if mem (nid e) (ids_of (jq_child (hasClass "content-blocks")
                                                    (is_tag "div") d))
                   then set_displayed (Z.eqb (jq_index (nid e) d) (jq_index this d))
                   else fun y => y) x) = hasClass "selected" x).
  { intros x. destruct (mem (nid e) _); reflexivity. }
  assert (Hc : forall x, classes
                 ((if mem (nid e) (ids_of (jq_child (hasClass "content-blocks")
                                                    (is_tag "div") d))
                   then set_displayed (Z.eqb (jq_index (nid e) d) (jq_index this d))
                   else fun y => y) x) = classes x).
  { intros x. destruct (mem (nid e) _); reflexivity. }
  split; [|split].
  - intros En. rewrite Hd. apply Nat.eqb_eq in En. rewrite En. apply hasClass_addClass.
  - intros En Hin. rewrite Hd. apply Nat.eqb_neq in En. rewrite En.
    apply mem_In in Hin. rewrite Hin. apply hasClass_removeClass.
  - intros En Hin. exists e. split; [exact He|]. split; [reflexivity|].
    rewrite Hc. apply Nat.eqb_neq in En. rewrite En.
    apply mem_false in Hin. rewrite Hin. reflexivity.
Qed.

(** X21.  The handler of the tabs, run for the item [this], shows the
    block that has the index of the item and hides the others:
    afterwards a [div] child of an element of class [content-blocks],
    anywhere in the page, is displayed exactly when its index among
    its siblings is the index of the item.  The display of the other
    elements stays as it is. *)
Theorem customTabs_click_blocks (this : nat) (d : node) (e' : elem) :
  In this (customTabs d) ->
  In e' (elems (customTabs_click this d)) ->
  (In (nid e') (ids_of (jq_child (hasClass "content-blocks") (is_tag "div") d)) ->
   (displayed e' = true <-> jq_index (nid e') d = jq_index this d)) /\
  (~ In (nid e') (ids_of (jq_child (hasClass "content-blocks") (is_tag "div") d)) ->
   exists e, In e (elems d) /\ nid e = nid e' /\ displayed e' = displayed e).
Proof.
  intros _. rewrite customTabs_click_tmap, elems_tmap. intros H. apply in_map_iff in H.
  destruct H as [e [E He]]. subst e'.
  destruct (customTabs_elem_fields
              (ids_of (jq_find (parent [this] d) (by_tag "li") d)) this
              (ids_of (jq_child (hasClass "content-blocks") (is_tag "div") d))
              (fun i => Z.eqb (jq_index i d) (jq_index this d)) e) as [Hn _].
  rewrite Hn. rewrite customTabs_elem_flat.
  split.
  - intros Hin. apply mem_In in Hin. rewrite Hin. cbn [displayed set_displayed].
    apply Z.eqb_eq.
  - intros Hin. exists e. split; [exact He|]. split; [reflexivity|].
    apply mem_false in Hin. rewrite Hin. clear Hin.
    destruct (Nat.eqb (nid e) this),
      (mem (nid e) (ids_of (jq_find (parent [this] d) (by_tag "li") d)));
      rewrite ?(proj2 (proj2 (proj2 (proj2 (proj2 (proj2 (addClass_fields _ _)))))));
      reflexivity.
Qed.

Lemma filter_not_twice (c : string) (l : list string) :
  filter (fun c' => negb (String.eqb c c')) (filter (fun c' => negb (String.eqb c c')) l) =
  filter (fun c' => negb (String.eqb c c')) l.
Proof.
  induction l as [|a l IH]; cbn [filter]; auto.
  destruct (negb (String.eqb c a)) eqn:E; cbn [filter]; rewrite ?E, IH; reflexivity.
Qed.

Lemma filter_not_snoc (c : string) (l : list string) :
  filter (fun c' => negb (String.eqb c c')) (l ++ [c]) =
  filter (fun c' => negb (String.eqb c c')) l.
Proof.
  rewrite filter_app. cbn [filter]. rewrite String.eqb_refl. cbn [negb].
  apply app_nil_r.
Qed.

Lemma removeClass_twice (c : string) (e : elem) :
  removeClass c (removeClass c e) = removeClass c e.
Proof.
  destruct e. unfold removeClass. cbn [classes set_classes nid tag attrs itype name value
                                       displayed].
  rewrite filter_not_twice. reflexivity.
Qed.

Lemma removeClass_addClass (c : string) (e : elem) :
  removeClass c (addClass c e) = removeClass c e.
Proof.
  unfold addClass. destruct (hasClass c e); [reflexivity|].
  destruct e. unfold removeClass. cbn [classes set_classes nid tag attrs itype name value
                                       displayed].
  rewrite filter_not_snoc. reflexivity.
Qed.

Lemma addClass_twice (c : string) (e : elem) : addClass c (addClass c e) = addClass c e.
Proof. unfold addClass at 1. rewrite hasClass_addClass. reflexivity. Qed.

Lemma removeClass_displayed (c : string) (b : bool) (e : elem) :
  removeClass c (set_displayed b e) = set_displayed b (removeClass c e).
Proof. destruct e. reflexivity. Qed.

Lemma addClass_displayed (c : string) (b : bool) (e : elem) :
  addClass c (set_displayed b e) = set_displayed b (addClass c e).
Proof.
  unfold addClass. change (hasClass c (set_displayed b e)) with (hasClass c e).
  destruct (hasClass c e); destruct e; reflexivity.
Qed.

Lemma set_displayed_twice (b b' : bool) (e : elem) :
  set_displayed b (set_displayed b' e) = set_displayed b e.
Proof. destruct e. reflexivity. Qed.

Lemma customTabs_elem_twice (items : list nat) (i j : nat) (blocks : list nat)
    (si sj : nat -> bool) (e : elem) :
  In i items \/ i = j ->
  customTabs_elem items j blocks sj (customTabs_elem items i blocks si e) =
  customTabs_elem items j blocks sj e.
Proof.
  intros H.
  rewrite (customTabs_elem_flat items j blocks sj (customTabs_elem items i blocks si e)).
  rewrite (proj1 (customTabs_elem_fields items i blocks si e)).
  rewrite !customTabs_elem_flat.
  assert (Hi : Nat.eqb (nid e) i = true ->
               mem (nid e) items = true \/ Nat.eqb (nid e) j = true).
  { intros E. apply Nat.eqb_eq in E. rewrite E. destruct H as [H| ->].
    - left. apply mem_In. exact H.
    - right. apply Nat.eqb_refl. }
  destruct (mem (nid e) blocks), (mem (nid e) items), (Nat.eqb (nid e) i),
    (Nat.eqb (nid e) j);
    try (destruct Hi as [Hi|Hi]; [reflexivity|discriminate|discriminate]);
    cbv beta;
    rewrite ?removeClass_displayed, ?addClass_displayed, ?removeClass_displayed,
      ?set_displayed_twice, ?removeClass_addClass, ?removeClass_twice, ?addClass_twice;
    reflexivity.
Qed.

Lemma customTabs_click_same_sets (this : nat) (d : node) :
  (forall ids, parent ids (customTabs_click this d) = parent ids d) /\
  (forall ctx, ids_of (jq_find ctx (by_tag "li") (customTabs_click this d)) =
               ids_of (jq_find ctx (by_tag "li") d)) /\
  ids_of (jq_child (hasClass "content-blocks") (is_tag "div") (customTabs_click this d)) =
    ids_of (jq_child (hasClass "content-blocks") (is_tag "div") d) /\
  (forall i, jq_index i (customTabs_click this d) = jq_index i d).
Proof.
  rewrite customTabs_click_tmap.
  set (F := customTabs_elem _ _ _ _).
  assert (HF : forall e, nid (F e) = nid e /\ tag (F e) = tag e /\
                         hasClass "content-blocks" (F e) = hasClass "content-blocks" e).
  { intros e. unfold F.
    match goal with |- context [customTabs_elem ?a ?b ?c ?f e] =>
      destruct (customTabs_elem_fields a b c f e) as [H1 [H2 [_ [_ [_ [_ H7]]]]]] end.
    split; [exact H1|]. split; [exact H2|]. apply H7. discriminate. }
  split; [|split; [|split]].
  - intros ids. apply parent_tmap. intros e. apply HF.
  - intros ctx. unfold jq_find.
    change (by_tag "li") with (fun _ : bool => is_tag "li").
    rewrite (find_tmap ctx (is_tag "li") F false false false d).
    + apply ids_of_map. intros e. apply HF.
    + intros e. unfold is_tag. rewrite (proj1 (proj2 (HF e))). reflexivity.
    + intros e. apply HF.
  - rewrite jq_child_tmap.
    + apply ids_of_map. intros e. apply HF.
    + intros e. apply HF.
    + intros e. unfold is_tag. rewrite (proj1 (proj2 (HF e))). reflexivity.
  - intros i. apply jq_index_tmap. intros e. apply HF.
Qed.

Lemma find_mono_sel (c1 c2 : list nat) (p : selector) (i1 i2 h : bool) (t : node)
    (e : elem) :
  (forall x, In x c1 -> In x c2) -> (i1 = true -> i2 = true) ->
  In e (find c1 p i1 h t) -> In e (find c2 p i2 h t).
Proof.
  intros Hc. revert i1 i2 h.
  induction t as [e0 ks IH] using node_ind. intros i1 i2 h Hi. cbn [find].
  intros H. apply in_app_iff in H. apply in_app_iff. destruct H as [H|H].
  - left. destruct i1; cbn [andb] in H; [|destruct H].
    rewrite (Hi eq_refl). exact H.
  - right. apply in_flat_map in H. destruct H as [k [Hk He]]. apply in_flat_map.
    exists k. split; [exact Hk|]. rewrite Forall_forall in IH.
    apply (IH k Hk (i1 || mem (nid e0) c1) (i2 || mem (nid e0) c2)
              (h || negb (displayed e0))); [|exact He].
    intros E. apply orb_true_iff in E. apply orb_true_iff. destruct E as [E|E].
    + left. apply Hi. exact E.
    + right. apply mem_In. apply Hc. apply mem_In. exact E.
Qed.

Lemma find_sat (ctx : list nat) (q : elem -> bool) (i h : bool) (t : node) (e : elem) :
  In e (find ctx (fun _ => q) i h t) -> q e = true.
Proof.
  revert i h. induction t as [e0 ks IH] using node_ind. intros i h. cbn [find].
  intros H. apply in_app_iff in H. destruct H as [H|H].
  - destruct (i && q e0) eqn:E; [|destruct H]. destruct H as [<-|[]].
    apply andb_true_iff in E. apply E.
  - apply in_flat_map in H. destruct H as [k [Hk He]]. rewrite Forall_forall in IH.
    eapply IH; eauto.
Qed.

Lemma below_parent (q : elem -> bool) (t : node) (e : elem) (h : bool) :
  In e (forest_elems (kids t)) -> q e = true ->
  In e (find (parent [nid e] t) (fun _ => q) false h t).
Proof.
  revert h. induction t as [e0 ks IH] using node_ind. intros h He Hq.
  cbn [kids] in He. unfold forest_elems in He. apply in_flat_map in He.
  destruct He as [k [Hk He]]. cbn [find andb app]. apply in_flat_map.
  exists k. split; [exact Hk|]. destruct k as [ek kks]. cbn [elems] in He.
  destruct He as [He|He].
  - subst ek. cbn [find].
    replace (mem (nid e0) (parent [nid e] (Node e0 ks))) with true.
    + cbn [orb andb]. rewrite Hq. left. reflexivity.
    + symmetry. apply mem_In. cbn [parent]. apply in_app_iff. left.
      replace (existsb (fun k => mem (nid (root k)) [nid e]) ks) with true;
        [left; reflexivity|].
      symmetry. apply existsb_exists. exists (Node e kks). split; [exact Hk|].
      cbn [root]. rewrite mem_single. apply Nat.eqb_refl.
  - rewrite Forall_forall in IH.
    apply (find_mono_sel (parent [nid e] (Node ek kks)) (parent [nid e] (Node e0 ks))
             (fun _ => q) false (false || mem (nid e0) (parent [nid e] (Node e0 ks)))
             (h || negb (displayed e0))).
    + intros x Hx. cbn [parent]. apply in_app_iff. right. apply in_flat_map.
      exists (Node ek kks). split; [exact Hk|exact Hx].
    + discriminate.
    + apply (IH _ Hk). exact He. exact Hq.
Qed.

Lemma customTabs_item (i : nat) (d : node) :
  In i (customTabs d) -> In i (ids_of (jq_find (parent [i] d) (by_tag "li") d)).
Proof.
  unfold customTabs, ids_of, jq_find. intros H. apply in_map_iff in H.
  destruct H as [e [E He]]. subst i. apply in_map.
  change (by_tag "li") with (fun _ : bool => is_tag "li") in *.
  apply below_parent.
  - destruct d as [e0 ks]. cbn [find andb app] in He. cbn [kids]. unfold forest_elems.
    apply in_flat_map in He. destruct He as [k [Hk He]]. apply in_flat_map.
    exists k. split; [exact Hk|]. eapply find_In_elems; eauto.
  - eapply find_sat; eauto.
Qed.

(** X22.  The last click wins: running the handler for an item [i]
    and then for an item [j] with the same parent (both bound by
    [customTabs]) leaves the page as running it for [j] alone would; in
    particular, running it twice for the same item changes nothing the
    second time. *)
Theorem customTabs_click_last_wins (i j : nat) (d : node) :
  In i (customTabs d) -> In j (customTabs d) ->
  parent [i] d = parent [j] d ->
  customTabs_click j (customTabs_click i d) = customTabs_click j d.
Proof.
  intros Hi _ Hp.
  destruct (customTabs_click_same_sets i d) as [S1 [S2 [S3 S4]]].
  rewrite (customTabs_click_tmap j (customTabs_click i d)).
  rewrite S1, S2, S3.
  rewrite (tmap_ext _ (customTabs_elem
                         (ids_of (jq_find (parent [j] d) (by_tag "li") d)) j
                         (ids_of (jq_child (hasClass "content-blocks") (is_tag "div") d))
                         (fun k => Z.eqb (jq_index k d) (jq_index j d)))).
  2:{ intros e. unfold customTabs_elem. cbv zeta. rewrite !S4. reflexivity. }
  rewrite (customTabs_click_tmap i d), tmap_tmap, (customTabs_click_tmap j d).
  apply tmap_ext. intros e. rewrite Hp. apply customTabs_elem_twice.
  rewrite <- Hp. left. apply customTabs_item. exact Hi.
Qed.

(** *** Several forms in one container (lines 53-67) *)

Lemma rev_mono (f : nat) (formEl : list nat) (d : node) (e : elem) :
  In f formEl -> In e (rev [f] d) -> In e (rev formEl d).
Proof.
  intros Hf He. apply rev_spec in He. apply rev_spec. destruct He as [He Hc].
  split; [|exact Hc]. unfold jq_find in *.
  apply (find_mono_sel [f] formEl _ false false false d e); auto.
  intros x [<-|[]]. exact Hf.
Qed.

(** X23.  The forms of one container are checked together: the handler of
    every button counts the revision fields of all the forms.  So an
    empty revision field in one form and a filled one in another (or
    in the same) form hold back the click on the button of either
    form. *)
Theorem validate_click_forms_together (formEl : list nat) (f1 f2 : nat) (w : world)
    (prevented : bool) (e1 e2 : elem) :
  In f1 formEl -> In f2 formEl ->
  In e1 (rev [f1] (doc w)) -> value e1 = EmptyString ->
  In e2 (rev [f2] (doc w)) -> value e2 <> EmptyString ->
  snd (validate_click formEl (w, prevented)) = true.
Proof.
  intros H1 H2 He1 Hv1 He2 Hv2. unfold validate_click.
  rewrite partial_fill_true; [reflexivity| |].
  - exists e1. split; [exact (rev_mono f1 formEl (doc w) e1 H1 He1)|exact Hv1].
  - exists e2. split; [exact (rev_mono f2 formEl (doc w) e2 H2 He2)|exact Hv2].
Qed.

(** *** Static triggers added to the table later (lines 15-19) *)

(** X24.  A static trigger inside the table that was added after [init]
    ran is reached by delegation only: a click on it runs the static
    popup flow once, for that trigger, and prevents the default
    action. *)
Theorem delegated_static_click (w0 wl : world) (e0 : elem) (t : nat)
    (below above : list nat) :
  deleg_h w0 = [] -> jq_id "tablesorterRt" (doc w0) = [e0] ->
  deleg_h wl = deleg_h (init w0) ->
  NoDup (node_ids (doc wl)) ->
  path_to t (doc wl) = t :: below ++ nid e0 :: above ->
  (forall c, In c (path_to t (doc wl)) -> bound_on c wl = []) ->
  matches "popup-btn-js-2" t (doc wl) = true ->
  matches "popup-btn-js" t (doc wl) = false ->
  (forall c, In c below -> matches "popup-btn-js" c (doc wl) = false /\
                           matches "popup-btn-js-2" c (doc wl) = false) ->
  click t wl = (nonAjaxPopup [t] wl, true).
Proof.
  intros Hd0 Ht Hd Hnd Hpath Hb Hs Hp Hbelow.
  pose proof (init_table w0 e0 Hd0 Ht) as Id. rewrite <- Hd in Id.
  pose proof (path_to_NoDup t (doc wl) Hnd) as Hpn. rewrite Hpath in Hpn.
  change (t :: below ++ nid e0 :: above) with ((t :: below) ++ nid e0 :: above) in Hpn.
  assert (Hr1 : ~ In (nid e0) (t :: below)).
  { intros Hin. apply (NoDup_app_disjoint _ _ _ Hpn Hin). left. reflexivity. }
  assert (Hr2 : ~ In (nid e0) above).
  { apply NoDup_app_remove_l in Hpn. inversion Hpn; auto. }
  assert (Hroots : forall w', deleg_h w' = deleg_h wl -> forall c,
             c <> nid e0 -> ~ In c (delegation_roots w')).
  { intros w' E c Hc. unfold delegation_roots. rewrite E, Id. cbn [map fst].
    intros [H|[H|[]]]; congruence. }
  unfold click. rewrite Hpath.
  change (t :: below ++ nid e0 :: above) with ((t :: below) ++ nid e0 :: above).
  rewrite bubble_app. cbn [app].
  rewrite (bubble_idle (t :: below) [] (wl, false)).
  2:{ cbn [fst]. intros c bl Hc. apply handlers_at_none.
      - apply Hb. rewrite Hpath. change (In c ((t :: below) ++ nid e0 :: above)).
        apply in_app_iff. left. exact Hc.
      - apply (Hroots wl eq_refl). intros ->. contradiction. }
  cbn [bubble fst].
  rewrite (handlers_at_table wl (nid e0) (t :: below) Id).
  2:{ apply Hb. rewrite Hpath. change (In (nid e0) ((t :: below) ++ nid e0 :: above)).
      apply in_app_iff. right. left. reflexivity. }
  cbn [flat_map]. rewrite Hp, Hs. rewrite flat_map_nil.
  2:{ intros c Hc. destruct (Hbelow c Hc) as [-> ->]. reflexivity. }
  cbn [app run_handlers fold_left fst snd run_handler].
  apply bubble_idle. cbn [fst]. intros c bl Hc.
  destruct (nonAjaxPopup_handlers [t] wl) as [Pc Pd].
  apply handlers_at_none.
  - rewrite (bound_on_same c wl _ Pc). apply Hb. rewrite Hpath.
    change (In c ((t :: below) ++ nid e0 :: above)).
    apply in_app_iff. right. right. exact Hc.
  - apply (Hroots _ Pd). intros ->. contradiction.
Qed.

(** *** The branch selector on success (lines 125-178) *)

Lemma elems_remove_In (ids : list nat) (t : node) (e : elem) :
  In e (elems (remove ids t)) -> In e (elems t).
Proof.
  induction t as [e0 ks IH] using node_ind. cbn [remove elems].
  intros [H|H]; [left; exact H|right].
  apply in_flat_map in H. destruct H as [k' [Hk' He]].
  apply in_flat_map in Hk'. destruct Hk' as [k [Hk Hk']].
  destruct (mem (nid (root k)) ids); [destruct Hk'|].
  destruct Hk' as [<-|[]]. apply in_flat_map. exists k. split; [exact Hk|].
  rewrite Forall_forall in IH. apply IH; auto.
Qed.

Lemma find_nodes_elems (p : elem -> bool) (b : bool) (t k : node) (e : elem) :
  In k (find_nodes p b t) -> In e (elems k) -> In e (elems t).
Proof.
  revert b. induction t as [e0 ks IH] using node_ind. intros b. cbn [find_nodes].
  intros H He. apply in_app_iff in H. destruct H as [H|H].
  - destruct (negb b && p e0); [|destruct H]. destruct H as [<-|[]]. exact He.
  - cbn [elems]. right. apply in_flat_map in H. destruct H as [k0 [Hk0 H]].
    apply in_flat_map. exists k0. split; [exact Hk0|].
    rewrite Forall_forall in IH. eapply IH; eauto.
Qed.

Lemma codebases_done_fresh (preloader mib : list nat) (data : string)
    (markup : list node) (w : world) :
  jq_string data = Some markup ->
  exists new,
    codebasesBranches_done preloader mib data w =
      mkWorld
        (update (ids_of (jq_id "getForm"
                           (update mib show
                              (append_into (ids_of (jq_id "content1" (doc w))) new
                                           (remove preloader (doc w))))))
                (set_attr "action" (URL w))
                (update mib show
                   (append_into (ids_of (jq_id "content1" (doc w))) new
                                (remove preloader (doc w)))))
        (next_id (codebasesBranches_done preloader mib data w))
        (URL w)
        (click_h (codebasesBranches_done preloader mib data w))
        (deleg_h w)
        (resize_h w ++ [RCenter mib])
        (tasks w ++
         map (fun _ => KFocus)
             (filter (fun i => is_hidden i
                                 (append_into (ids_of (jq_id "content1" (doc w))) new
                                              (remove preloader (doc w)))) mib) ++
         [KSelectors])
        (trace w ++ [EJCenter mib; EFadeIn mib] ++
         map (fun _ => EFocus
                         (ids_of (getForm_buttons false
                                    (update mib show
                                       (append_into (ids_of (jq_id "content1" (doc w)))
                                                    new (remove preloader (doc w)))))))
             (filter (fun i => negb (is_hidden i
                                       (append_into (ids_of (jq_id "content1" (doc w)))
                                                    new (remove preloader (doc w)))))
                     mib) ++
         [ERequire "selectors"; EClosePopup mib]) /\
    (forall i, In i (forest_ids new) -> next_id w <= i).
Proof.
  intros Hj. rewrite (codebases_done_world preloader mib data markup w Hj).
  cbv zeta. cbn [next_id click_h].
  destruct (copies _ _ _) as [l n] eqn:E. cbn [fst snd].
  eexists. split; [reflexivity|].
  intros i Hi. unfold forest_ids, forest_elems in Hi. apply in_map_iff in Hi.
  destruct Hi as [e [En He]]. subst i.
  apply in_flat_map in He. destruct He as [k' [Hk' He]].
  apply in_map_iff in Hk'. destruct Hk' as [k [<- Hk]].
  apply elems_remove_In in He.
  apply in_flat_map in Hk. destruct Hk as [t [Ht Hk]].
  pose proof (find_nodes_elems _ _ _ _ _ Hk He) as Het.
  apply in_map_iff in Ht. destruct Ht as [t0 [<- Ht0]].
  apply elems_insert_all in Het. destruct Het as [Het|[p [Hp Het]]].
  - assert (Hin : In (nid e) (forest_ids (renum_forest (next_id w) markup))).
    { unfold forest_ids, forest_elems. apply in_map. apply in_flat_map.
      exists t0. auto. }
    rewrite forest_ids_renum in Hin. apply in_seq in Hin. lia.
  - eapply (copies_fresh (next_id w)); [| |rewrite E; exact Hp|].
    + intros i Hi. rewrite forest_ids_renum in Hi. apply in_seq in Hi. lia.
    + lia.
    + unfold forest_ids. apply in_map. exact Het.
Qed.

(** The branch selector up to its request, and the page its answer
    finds once the preloader is removed. *)
Lemma codebasesBranches_sent (w : world) :
  wf_world w = true ->
  let preloader := renum_forest (next_id w) (parseHTML (render preloader_context)) in
  let mib := renum_forest (next_id w + forest_size (parseHTML (render preloader_context)))
               (parseHTML (render (popupOuter_context (JStr "Select branches")))) in
  let w1 := codebasesBranches w in
  doc w1 = show_body (append_body (preloader ++ mib) (doc w)) /\
  next_id w1 = next_id w + forest_size (parseHTML (render preloader_context)) +
               forest_size (parseHTML (render (popupOuter_context
                                                 (JStr "Select branches")))) /\
  nth_error (tasks w1) (List.length (tasks w)) =
    Some (KCodebases (roots preloader) (roots mib)) /\
  remove (roots preloader) (doc w1) = show_body (append_body mib (doc w)) /\
  URL w1 = URL w /\ resize_h w1 = resize_h w /\ deleg_h w1 = deleg_h w /\
  click_h w1 = click_h w.
Proof.
  intros Hwf preloader mib w1.
  assert (H1 : doc w1 = show_body (append_body (preloader ++ mib) (doc w))).
  { unfold w1, codebasesBranches, create, request. world_tac.
    fold preloader. fold mib. destruct (doc w) as [e ks]. cbn [append_body show_body].
    rewrite <- app_assoc. reflexivity. }
  split; [exact H1|]. split; [|split; [|split]].
  - unfold w1, codebasesBranches, create, request. world_tac. reflexivity.
  - unfold w1, codebasesBranches, create, request. world_tac.
    rewrite nth_error_app2 by lia. rewrite Nat.sub_diag. reflexivity.
  - rewrite H1, remove_show_body, remove_appended_mid; auto.
    + intros i Hi Hr. apply roots_incl in Hr. eapply wf_fresh_roots; eauto.
    + intros i Hi Hr. apply roots_incl in Hr. unfold preloader, mib in *.
      rewrite forest_ids_renum in *. apply in_seq in Hi. apply in_seq in Hr. lia.
  - unfold w1, codebasesBranches, create, request. world_tac. repeat split.
Qed.

(** X25.  The branch selector on success: when the answer is markup,
    no node of the preloader is left in the document once it has
    arrived, and the frame is a child of the body with its top-level
    elements displayed. *)
Theorem codebases_success_document (data : string) (markup : list node) (w : world) :
  wf_world w = true ->
  jq_string data = Some markup ->
  let preloader := renum_forest (next_id w) (parseHTML (render preloader_context)) in
  let mib := renum_forest (next_id w + forest_size (parseHTML (render preloader_context)))
               (parseHTML (render (popupOuter_context (JStr "Select branches")))) in
  let w1 := codebasesBranches w in
  let w2 := complete (List.length (tasks w)) (Text data) w1 in
  doc w1 = show_body (append_body (preloader ++ mib) (doc w)) /\
  (forall i, In i (forest_ids preloader) -> ~ In i (node_ids (doc w2))) /\
  attached (roots mib) (doc w2) /\
  (forall e', In e' (elems (doc w2)) -> In (nid e') (roots mib) -> displayed e' = true).
Proof.
  intros Hwf Hj preloader mib w1 w2.
  pose proof Hwf as Hwf'. apply wf_world_spec in Hwf'. destruct Hwf' as [_ Hlt].
  destruct (codebasesBranches_sent w Hwf) as [H1 [Hn1 [T [Hrem [HU _]]]]].
  fold preloader in H1, T, Hrem. fold mib in H1, T, Hrem. fold w1 in H1, Hn1, T, Hrem, HU.
  destruct (codebases_done_fresh (roots preloader) (roots mib) data markup
              (with_tasks (set_nth (List.length (tasks w)) KOver (tasks w1)) w1) Hj)
    as [new [E Hnew]].
  cbn [doc next_id URL with_tasks] in E, Hnew.
  assert (H2 : doc w2 =
    update (ids_of (jq_id "getForm"
                      (update (roots mib) show
                         (append_into (ids_of (jq_id "content1" (doc w1))) new
                                      (show_body (append_body mib (doc w)))))))
           (set_attr "action" (URL w1))
           (update (roots mib) show
              (append_into (ids_of (jq_id "content1" (doc w1))) new
                           (show_body (append_body mib (doc w)))))).
  { unfold w2, complete. rewrite T. rewrite E. cbn [doc]. rewrite Hrem. reflexivity. }
  split; [exact H1|]. split; [|split].
  - intros i Hi Hin. rewrite H2 in Hin.
    rewrite !node_ids_update in Hin by reflexivity.
    unfold preloader in Hi. rewrite forest_ids_renum in Hi. apply in_seq in Hi.
    assert (Hb : In i (node_ids (show_body (append_body mib (doc w)))) -> False).
    { intros Hb. unfold node_ids in Hb. rewrite elems_show_body in Hb.
      fold (node_ids (append_body mib (doc w))) in Hb.
      rewrite node_ids_append_body in Hb. apply in_app_iff in Hb.
      destruct Hb as [Hb|Hb].
      - apply Hlt in Hb. lia.
      - unfold mib in Hb. rewrite forest_ids_renum in Hb. apply in_seq in Hb. lia. }
    destruct (ids_of (jq_id "content1" (doc w1))) as [|c sl];
      cbn [append_into] in Hin; [exact (Hb Hin)|].
    unfold node_ids in Hin. apply in_map_iff in Hin. destruct Hin as [e [En He]].
    apply elems_append_In in He. destruct He as [He|He].
    + apply Hb. rewrite <- En. unfold node_ids. apply in_map. exact He.
    + assert (Hf : next_id w1 <= i).
      { apply Hnew. rewrite <- En. unfold forest_ids. apply in_map. exact He. }
      lia.
  - rewrite H2. apply attached_update; [reflexivity|].
    apply attached_update; [reflexivity|]. apply attached_append_into.
    apply attached_show_body. apply attached_new.
  - intros e' He' Hm. rewrite H2 in He'. rewrite !elems_update, map_map in He'.
    apply in_map_iff in He'. destruct He' as [y [Ey Hy]]. subst e'.
    set (y1 := if mem (nid y) (roots mib) then show y else y) in *.
    match type of Hm with context [mem (nid y1) ?g] => set (G := g) in * end.
    assert (Hny : nid y1 = nid y).
    { unfold y1. destruct (mem (nid y) (roots mib)); reflexivity. }
    assert (Hn2 : nid (if mem (nid y1) G then set_attr "action" (URL w1) y1 else y1) =
                  nid y).
    { destruct (mem (nid y1) G); exact Hny. }
    rewrite Hn2 in Hm. apply mem_In in Hm.
    assert (D1 : displayed y1 = true) by (unfold y1; rewrite Hm; reflexivity).
    destruct (mem (nid y1) G); exact D1.
Qed.

Lemma find_hd_filter {A} (f : A -> bool) (l : list A) :
  List.find f l = hd_error (filter f l).
Proof.
  induction l as [|a l IH]; cbn [List.find filter]; [reflexivity|].
  destruct (f a); [reflexivity|exact IH].
Qed.

Lemma filter_elems_append_to (q : elem -> bool) (c : nat) (new : list node) (t : node) :
  (forall e, In e (forest_elems new) -> q e = false) ->
  filter q (elems (append_to c new t)) = filter q (elems t).
Proof.
  intros Hnew. induction t as [e ks IH] using node_ind.
  cbn [append_to elems filter]. rewrite flat_map_app, filter_app.
  assert (Hn : filter q (flat_map elems (if Nat.eqb (nid e) c then new else [])) = []).
  { destruct (Nat.eqb (nid e) c); [|reflexivity]. apply filter_none. exact Hnew. }
  rewrite Hn, app_nil_r.
  assert (Hk : filter q (flat_map elems (map (append_to c new) ks)) =
               filter q (flat_map elems ks)).
  { induction IH as [|k r Hk Hr IHr]; cbn [map flat_map]; [reflexivity|].
    rewrite !filter_app, Hk, IHr. reflexivity. }
  rewrite Hk. reflexivity.
Qed.

(** Nodes with other identities that are appended somewhere do not
    change what an identity stands for. *)
Lemma is_hidden_append_into (i : nat) (target : list nat) (new : list node) (d : node) :
  (forall j, In j (forest_ids new) -> j <> i) ->
  is_hidden i (append_into target new d) = is_hidden i d.
Proof.
  intros Hnew. destruct target as [|c r]; cbn [append_into]; [reflexivity|].
  unfold is_hidden, lookup. rewrite !find_hd_filter, filter_elems_append_to; [reflexivity|].
  intros e He. apply Nat.eqb_neq. apply Hnew. unfold forest_ids. apply in_map. exact He.
Qed.

Lemma lookup_NoDup (d : node) (e : elem) :
  NoDup (node_ids d) -> In e (elems d) -> lookup (nid e) d = Some e.
Proof.
  unfold node_ids, lookup. generalize (elems d). intros l.
  induction l as [|a l IH]; cbn [map List.find]; intros Hnd Hin; [destruct Hin|].
  inversion Hnd as [|? ? Hn Hl]; subst. destruct Hin as [->|Hin].
  - rewrite Nat.eqb_refl. reflexivity.
  - destruct (Nat.eqb (nid a) (nid e)) eqn:E.
    + apply Nat.eqb_eq in E. exfalso. apply Hn. rewrite E. apply in_map. exact Hin.
    + apply IH; assumption.
Qed.

Lemma renum_forest_In (n : nat) (f : list node) (k' : node) :
  In k' (renum_forest n f) -> exists k j, In k f /\ k' = renum j k.
Proof.
  revert n. induction f as [|k r IH]; intros n; cbn [renum_forest]; [intros []|].
  intros [<-|H].
  - exists k, n. split; [left|]; reflexivity.
  - destruct (IH _ H) as [k0 [j [Hk E]]]. exists k0, j. split; [right|]; assumption.
Qed.

(** A frame that has just been appended to the body: each of its
    top-level nodes is hidden exactly when the template renders it
    hidden. *)
Lemma is_hidden_frame (w : world) (n : nat) (frame : list node) (m : nat) :
  wf_world w = true -> next_id w <= n ->
  In m (roots (renum_forest n frame)) ->
  exists k, In k frame /\
    is_hidden m (show_body (append_body (renum_forest n frame) (doc w))) =
      negb (displayed (root k)).
Proof.
  intros Hwf Hn Hm. apply wf_world_spec in Hwf. destruct Hwf as [Hnd Hlt].
  unfold roots in Hm. apply in_map_iff in Hm. destruct Hm as [k' [Em Hk']].
  destruct (renum_forest_In n frame k' Hk') as [k [j [Hk Ek]]].
  exists k. split; [exact Hk|].
  assert (HND : NoDup (node_ids (show_body (append_body (renum_forest n frame) (doc w))))).
  { unfold node_ids. rewrite elems_show_body.
    fold (node_ids (append_body (renum_forest n frame) (doc w))).
    rewrite node_ids_append_body, forest_ids_renum.
    apply NoDup_app; auto; [apply seq_NoDup|].
    intros a Ha Hs. apply Hlt in Ha. apply in_seq in Hs. lia. }
  assert (Hin : exists e', In e' (elems (show_body (append_body (renum_forest n frame)
                                                               (doc w)))) /\
                           nid e' = m /\ displayed e' = displayed (root k)).
  { exists (root k'). split; [|split].
    - destruct (doc w) as [e0 ks]. cbn [append_body show_body elems]. right.
      rewrite flat_map_app. apply in_app_iff. right. apply in_flat_map.
      exists k'. split; [exact Hk'|]. destruct k'. left. reflexivity.
    - exact Em.
    - rewrite Ek. destruct k. reflexivity. }
  destruct Hin as [e' [He' [En Ed]]].
  unfold is_hidden. rewrite <- En, (lookup_NoDup _ e' HND He'), Ed. reflexivity.
Qed.

Lemma attr_set_attr_other (k k' v : string) (e : elem) :
  k <> k' -> attr k (set_attr k' v e) = attr k e.
Proof.
  intros H. unfold attr, set_attr. cbn [attrs set_attrs]. apply assoc_set_other. exact H.
Qed.

(** The buttons of [#getForm] are the same elements whatever the
    [action] of the form is. *)
Lemma getForm_buttons_action (b : bool) (ids : list nat) (u : string) (d : node) :
  ids_of (getForm_buttons b (update ids (set_attr "action" u) d)) =
  ids_of (getForm_buttons b d).
Proof.
  unfold getForm_buttons, jq_all, jq_find, by_id.
  rewrite (find_update_ids [] (has_id "getForm") ids (set_attr "action" u) true false false).
  - apply find_update_ids.
    + intros e. unfold hasClass. cbn [classes set_attr set_attrs].
      rewrite attr_set_attr_other by discriminate. reflexivity.
    + reflexivity.
  - intros e. apply has_id_set_attr. discriminate.
  - reflexivity.
Qed.

(** X15.  The calls of the branch selector when its answer is markup.
    The frame is centered and faded in, the selectors module is
    required, and [closePopup] is wired last; one resize handler for
    the frame is registered.  When the template renders the frame
    hidden, the focus on the buttons of the form waits for the end of
    the fade-in (once per top-level node of the frame); when it renders
    the frame displayed, the fade-in has nothing to animate and the
    focus is set inside the callback, before the selectors module is
    required.  The combo boxes and one more resize handler wait for
    the selectors module. *)
Theorem codebases_done_calls (data : string) (markup : list node) (w : world) :
  wf_world w = true ->
  jq_string data = Some markup ->
  let frame := parseHTML (render (popupOuter_context (JStr "Select branches"))) in
  let mib := roots (renum_forest
                      (next_id w + forest_size (parseHTML (render preloader_context)))
                      frame) in
  let w1 := codebasesBranches w in
  let w2 := complete (List.length (tasks w)) (Text data) w1 in
  let pending := set_nth (List.length (tasks w)) KOver (tasks w1) in
  resize_h w2 = resize_h w1 ++ [RCenter mib] /\
  deleg_h w2 = deleg_h w1 /\
  ((forall k, In k frame -> displayed (root k) = false) ->
   trace w2 =
     trace w1 ++ [EJCenter mib; EFadeIn mib; ERequire "selectors"; EClosePopup mib] /\
   tasks w2 = pending ++ map (fun _ => KFocus) mib ++ [KSelectors]) /\
  ((forall k, In k frame -> displayed (root k) = true) ->
   trace w2 =
     trace w1 ++ [EJCenter mib; EFadeIn mib] ++
     map (fun _ => EFocus (ids_of (getForm_buttons false (doc w2)))) mib ++
     [ERequire "selectors"; EClosePopup mib] /\
   tasks w2 = pending ++ [KSelectors]) /\
  (forall j w',
     nth_error (tasks w') j = Some KFocus ->
     doc (complete j Finished w') = doc w' /\
     trace (complete j Finished w') =
       trace w' ++ [EFocus (ids_of (getForm_buttons false (doc w')))]) /\
  (forall j w',
     nth_error (tasks w') j = Some KSelectors ->
     doc (complete j Finished w') = doc w' /\
     trace (complete j Finished w') =
       trace w' ++ [EComboBox "#formWrapper .select-tools-js"; ESelectorsInit] /\
     resize_h (complete j Finished w') = resize_h w' ++ [RCenterBoxes]).
Proof.
  intros Hwf Hj frame mib w1 w2 pending.
  destruct (codebasesBranches_sent w Hwf) as [H1 [Hn1 [T [Hrem _]]]].
  fold frame in H1, Hn1, T, Hrem. fold w1 in H1, Hn1, T, Hrem.
  set (preloader := renum_forest (next_id w) (parseHTML (render preloader_context))) in *.
  set (n := next_id w + forest_size (parseHTML (render preloader_context))) in *.
  fold mib in T.
  destruct (codebases_done_fresh (roots preloader) mib data markup
              (with_tasks pending w1) Hj) as [new [E Hnew]].
  cbn [doc next_id URL with_tasks tasks trace resize_h deleg_h] in E, Hnew.
  rewrite Hrem in E.
  assert (W2 : w2 = codebasesBranches_done (roots preloader) mib data
                      (with_tasks pending w1)).
  { unfold w2, complete. rewrite T. reflexivity. }
  set (D := show_body (append_body (renum_forest n frame) (doc w))) in *.
  set (slot := ids_of (jq_id "content1" (doc w1))) in *.
  assert (Hh : forall m, In m mib ->
                 exists k, In k frame /\
                   is_hidden m (append_into slot new D) = negb (displayed (root k))).
  { intros m Hm.
    destruct (is_hidden_frame w n frame m Hwf) as [k [Hk Ek]]; [unfold n; lia|exact Hm|].
    exists k. split; [exact Hk|]. rewrite is_hidden_append_into; [exact Ek|].
    intros j Hjn ->. apply Hnew in Hjn. apply roots_incl in Hm.
    rewrite forest_ids_renum in Hm. apply in_seq in Hm. unfold n in *. lia. }
  rewrite W2, E. cbn [resize_h deleg_h trace tasks doc].
  split; [reflexivity|]. split; [reflexivity|]. split; [|split; [|split]].
  - intros Hf.
    assert (Fh : filter (fun i => is_hidden i (append_into slot new D)) mib = mib).
    { apply filter_all. intros m Hm. destruct (Hh m Hm) as [k [Hk ->]].
      rewrite (Hf k Hk). reflexivity. }
    assert (Fn : filter (fun i => negb (is_hidden i (append_into slot new D))) mib = []).
    { apply filter_none. intros m Hm. destruct (Hh m Hm) as [k [Hk ->]].
      rewrite (Hf k Hk). reflexivity. }
    rewrite Fh, Fn. cbn [map app]. split; reflexivity.
  - intros Hf.
    assert (Fh : filter (fun i => is_hidden i (append_into slot new D)) mib = []).
    { apply filter_none. intros m Hm. destruct (Hh m Hm) as [k [Hk ->]].
      rewrite (Hf k Hk). reflexivity. }
    assert (Fn : filter (fun i => negb (is_hidden i (append_into slot new D))) mib = mib).
    { apply filter_all. intros m Hm. destruct (Hh m Hm) as [k [Hk ->]].
      rewrite (Hf k Hk). reflexivity. }
    rewrite Fh, Fn. cbn [map app]. rewrite getForm_buttons_action. split; reflexivity.
  - intros j w' H. unfold complete. rewrite H. world_tac. split; reflexivity.
  - intros j w' H. unfold complete. rewrite H. world_tac.
    rewrite <- app_assoc. repeat split; reflexivity.
Qed.

(** *** The form of the branch selector (lines 146-152) *)

Lemma prepend_to_fresh (i : nat) (new : list node) (t : node) :
  ~ In i (node_ids t) -> prepend_to i new t = t.
Proof.
  induction t as [e ks IH] using node_ind. intros H. cbn [prepend_to].
  assert (He : Nat.eqb (nid e) i = false).
  { apply Nat.eqb_neq. intros E. apply H. unfold node_ids. cbn [elems map]. left. exact E. }
  rewrite He. cbn [app]. f_equal. apply map_id_Forall.
  rewrite Forall_forall in *. intros k Hk. apply IH; auto.
  intros Hi. apply H. eapply in_node_ids_kid; eauto.
Qed.

Lemma codebases_done_explicit (preloader mib : list nat) (data : string)
    (markup : list node) (w : world) :
  jq_string data = Some markup ->
  doc (codebasesBranches_done preloader mib data w) =
    let parsed := renum_forest (next_id w) markup in
    let button := renum_forest (next_id w + forest_size markup)
                               (parseHTML update_button_markup) in
    let fw0 := flat_map (find_nodes (has_id "formWrapper") true) parsed in
    let l := fst (copies (ids_of (children (has_id "getForm") fw0)) button
                         (next_id w + forest_size markup +
                          forest_size (parseHTML update_button_markup))) in
    let fw := flat_map (find_nodes (has_id "formWrapper") true)
                       (map (insert_all l) parsed) in
    let d4 := update mib show
                (append_into (ids_of (jq_id "content1" (doc w)))
                             (map (remove (roots fw)) fw) (remove preloader (doc w))) in
    update (ids_of (jq_id "getForm" d4)) (set_attr "action" (URL w)) d4.
Proof.
  intros Hj. rewrite (codebases_done_world preloader mib data markup w Hj). reflexivity.
Qed.

(** What the done callback moves into the content slot when the
    answer is one element that holds the [#formWrapper], which holds
    the [#getForm]: the wrapper, with the Update button in front of the
    children of the form. *)
Lemma codebases_form_new (n : nat) (markup : list node)
    (e0 fwE gfE : elem) (gks : list node) :
  markup = [Node e0 [Node fwE [Node gfE gks]]] ->
  has_id "formWrapper" fwE = true -> has_id "getForm" gfE = true ->
  cnt (has_id "formWrapper")
      (gfE :: forest_elems gks ++ forest_elems (parseHTML update_button_markup)) = 0 ->
  let button := renum_forest (n + 3 + forest_size gks) (parseHTML update_button_markup) in
  let form := Node (set_nid (n + 2) gfE) (button ++ renum_forest (n + 3) gks) in
  let wrapper := Node (set_nid (n + 1) fwE) [form] in
  let parsed := renum_forest n markup in
  let fw0 := flat_map (find_nodes (has_id "formWrapper") true) parsed in
  let getForm := ids_of (children (has_id "getForm") fw0) in
  let ln := copies getForm
                   (renum_forest (n + forest_size markup) (parseHTML update_button_markup))
                   (n + forest_size markup +
                    forest_size (parseHTML update_button_markup)) in
  let fw := flat_map (find_nodes (has_id "formWrapper") true)
                     (map (insert_all (fst ln)) parsed) in
  getForm = [n + 2] /\ map (remove (roots fw)) fw = [wrapper].
Proof.
  intros HP Hfw Hgf Hno button form wrapper parsed fw0 getForm ln fw.
  rewrite cnt_cons in Hno.
  destruct (has_id "formWrapper" gfE) eqn:Hg0; [discriminate|]. cbn [Nat.add] in Hno.
  apply cnt_zero_inv in Hno. destruct Hno as [Hn1 Hn2].
  fold (forest_elems gks) in Hn1.
  assert (Hsize : forest_size markup = 3 + forest_size gks).
  { rewrite HP. unfold forest_size. simpl. lia. }
  assert (Hparsed : parsed =
                    [Node (set_nid n e0)
                          [Node (set_nid (n + 1) fwE)
                                [Node (set_nid (n + 2) gfE) (renum_forest (n + 3) gks)]]]).
  { unfold parsed. rewrite HP. cbn [renum_forest]. rewrite renum_unfold.
    cbn [renum_forest].
    rewrite renum_unfold. cbn [renum_forest]. rewrite renum_unfold.
    replace (S n) with (n + 1) by lia. replace (S (n + 1)) with (n + 2) by lia.
    replace (S (n + 2)) with (n + 3) by lia. reflexivity. }
  assert (Hgks : cnt (has_id "formWrapper") (forest_elems (renum_forest (n + 3) gks)) = 0).
  { rewrite cnt_renum_forest; auto. }
  assert (Hbut : cnt (has_id "formWrapper") (forest_elems button) = 0).
  { unfold button. rewrite cnt_renum_forest; auto. }
  assert (Hfw0 : fw0 =
                 [Node (set_nid (n + 1) fwE)
                       [Node (set_nid (n + 2) gfE) (renum_forest (n + 3) gks)]]).
  { unfold fw0. rewrite Hparsed. cbn [flat_map find_nodes negb andb app].
    change (has_id "formWrapper" (set_nid (n + 1) fwE)) with (has_id "formWrapper" fwE).
    change (has_id "formWrapper" (set_nid (n + 2) gfE)) with (has_id "formWrapper" gfE).
    rewrite Hfw, Hg0, flat_find_nodes_none by exact Hgks. reflexivity. }
  assert (Hg : getForm = [n + 2]).
  { unfold getForm. rewrite Hfw0. cbn [children flat_map kids map root filter].
    change (has_id "getForm" (set_nid (n + 2) gfE)) with (has_id "getForm" gfE).
    rewrite Hgf. reflexivity. }
  split; [exact Hg|].
  assert (Hl : fst ln = [(n + 2, button)]).
  { unfold ln. rewrite Hg, Hsize.
    replace (n + (3 + forest_size gks)) with (n + 3 + forest_size gks) by lia.
    reflexivity. }
  assert (Hfresh : forall k, In k (renum_forest (n + 3) gks) ->
                             forall i, In i (node_ids k) -> n + 3 <= i).
  { intros k Hk i Hi.
    assert (H : In i (forest_ids (renum_forest (n + 3) gks))).
    { apply forest_ids_In. exists k. auto. }
    rewrite forest_ids_renum in H. apply in_seq in H. lia. }
  assert (Hins : map (insert_all (fst ln)) parsed = [Node (set_nid n e0) [wrapper]]).
  { rewrite Hl, Hparsed.
    unfold insert_all. cbn [map fold_left fst snd prepend_to nid set_nid].
    replace (Nat.eqb n (n + 2)) with false by (symmetry; apply Nat.eqb_neq; lia).
    replace (Nat.eqb (n + 1) (n + 2)) with false by (symmetry; apply Nat.eqb_neq; lia).
    rewrite Nat.eqb_refl. cbn [app]. unfold wrapper, form. do 7 f_equal.
    apply map_id_Forall. apply Forall_forall. intros k Hk. apply prepend_to_fresh.
    intros Hi. apply (Hfresh k Hk) in Hi. lia. }
  assert (Hfw1 : fw = [wrapper]).
  { unfold fw. rewrite Hins.
    unfold wrapper, form. cbn [flat_map find_nodes negb andb app].
    change (has_id "formWrapper" (set_nid (n + 1) fwE)) with (has_id "formWrapper" fwE).
    change (has_id "formWrapper" (set_nid (n + 2) gfE)) with (has_id "formWrapper" gfE).
    rewrite Hfw, Hg0, flat_find_nodes_none; [reflexivity|].
    unfold forest_elems. rewrite flat_map_app, cnt_app.
    unfold forest_elems in Hbut, Hgks. rewrite Hbut, Hgks. reflexivity. }
  rewrite Hfw1.
  unfold wrapper. cbn [map roots root nid set_nid].
  change (remove [n + 1] (Node (set_nid (n + 1) fwE) [form]))
    with (Node (set_nid (n + 1) fwE)
               ((if mem (nid (root form)) [n + 1] then [] else [remove [n + 1] form])
                ++ [])).
  replace (mem (nid (root form)) [n + 1]) with false
    by (symmetry; apply mem_false; intros [H|[]]; cbn in H; lia).
  cbn [app]. rewrite remove_fresh; [reflexivity|].
  intros i Hi [H|[]]. subst i. unfold form, node_ids in Hi.
  cbn [elems map nid set_nid] in Hi.
  destruct Hi as [Hi|Hi]; [lia|].
  fold (forest_elems (button ++ renum_forest (n + 3) gks)) in Hi.
  fold (forest_ids (button ++ renum_forest (n + 3) gks)) in Hi.
  rewrite forest_ids_app in Hi. unfold button in Hi. rewrite !forest_ids_renum in Hi.
  apply in_app_iff in Hi. destruct Hi as [Hi|Hi]; apply in_seq in Hi; lia.
Qed.

(** X26.  When the answer is one element that holds the
    [#formWrapper], which holds the [#getForm], and no other wrapper
    lies inside, what goes into the content slot is the wrapper itself,
    taken out of the element around it, and the children of the form
    are preceded by the Update button. *)
Theorem codebases_form_inserted (preloader mib : list nat) (data : string) (w : world)
    (e0 fwE gfE : elem) (gks : list node) :
  parseHTML data = [Node e0 [Node fwE [Node gfE gks]]] ->
  has_id "formWrapper" fwE = true -> has_id "getForm" gfE = true ->
  cnt (has_id "formWrapper")
      (gfE :: forest_elems gks ++ forest_elems (parseHTML update_button_markup)) = 0 ->
  let n := next_id w in
  let button := renum_forest (n + 3 + forest_size gks) (parseHTML update_button_markup) in
  let form := Node (set_nid (n + 2) gfE) (button ++ renum_forest (n + 3) gks) in
  let wrapper := Node (set_nid (n + 1) fwE) [form] in
  let inserted := update mib show
                    (append_into (ids_of (jq_id "content1" (doc w))) [wrapper]
                                 (remove preloader (doc w))) in
  doc (codebasesBranches_done preloader mib data w) =
    update (ids_of (jq_id "getForm" inserted)) (set_attr "action" (URL w)) inserted.
Proof.
  intros HP Hfw Hgf Hno n button form wrapper inserted.
  assert (Hj : jq_string data = Some (parseHTML data)).
  { rewrite HP. apply parseHTML_built. exact HP. }
  rewrite (codebases_done_explicit preloader mib data (parseHTML data) w Hj).
  destruct (codebases_form_new n (parseHTML data) e0 fwE gfE gks HP Hfw Hgf Hno)
    as [_ Hnew].
  cbv zeta in Hnew |- *. fold n. rewrite Hnew. reflexivity.
Qed.

(** *** The buttons of an arriving form (lines 211-218) *)

Lemma find_hid_irrelevant (ctx : list nat) (q : elem -> bool) (i h h' : bool) (t : node) :
  find ctx (fun _ => q) i h t = find ctx (fun _ => q) i h' t.
Proof.
  pose proof (find_update_map ctx q [] (fun e => e) i h h' t
                (fun e => eq_refl) (fun e => eq_refl)) as H.
  rewrite update_nil in H. rewrite H. apply map_id.
Qed.

Lemma find_in_appended (ctx : list nat) (q : elem -> bool) (c : nat) (new : list node)
    (t k : node) (b : elem) (i h h' : bool) :
  In c (node_ids t) -> In k new ->
  In b (find ctx (fun _ => q) false h k) ->
  In b (find ctx (fun _ => q) i h' (append_to c new t)).
Proof.
  intros Hc Hk Hb. revert i h' Hc.
  induction t as [e ks IH] using node_ind. intros i h' Hc.
  cbn [append_to find]. apply in_app_iff. right. rewrite flat_map_app. apply in_app_iff.
  destruct (Nat.eqb (nid e) c) eqn:E.
  - right. apply in_flat_map. exists k. split; [exact Hk|].
    rewrite (find_hid_irrelevant ctx q _ _ h k).
    apply (find_mono_sel ctx ctx (fun _ => q) false _ h k b); auto. discriminate.
  - left. apply Nat.eqb_neq in E. unfold node_ids in Hc. cbn [elems map] in Hc.
    destruct Hc as [Hc|Hc]; [contradiction|].
    rewrite map_flat_map in Hc. apply in_flat_map in Hc. destruct Hc as [k0 [Hk0 Hc]].
    rewrite flat_map_map. apply in_flat_map. exists k0. split; [exact Hk0|].
    rewrite Forall_forall in IH. apply IH; auto.
Qed.

Lemma external_done_click_h (preloader mib : list nat) (data : string) (w : world) :
  jq_string data = Some (parseHTML data) ->
  click_h (externalContentPopup_done preloader mib (Some "form") data w) =
    click_h w ++
    map (fun i =>
           (i, HValidate
                 (ids_of (jq_find (ids_of (jq_id "content1" (doc w)))
                            (by_class "command_forcebuild")
                            (append_into (ids_of (jq_id "content1" (doc w)))
                               (renum_forest (next_id w) (parseHTML data))
                               (remove preloader (doc w)))))))
        (ids_of (jq_find
                   (ids_of (jq_find (ids_of (jq_id "content1" (doc w)))
                              (by_class "command_forcebuild")
                              (append_into (ids_of (jq_id "content1" (doc w)))
                                 (renum_forest (next_id w) (parseHTML data))
                                 (remove preloader (doc w)))))
                   (by_class "grey-btn")
                   (append_into (ids_of (jq_id "content1" (doc w)))
                      (renum_forest (next_id w) (parseHTML data))
                      (remove preloader (doc w))))).
Proof.
  intros Hj. unfold externalContentPopup_done. rewrite Hj.
  unfold create, jCenter, fadeIn, closePopup, bind_resize, setFullName, validateForm.
  cbn [js_is String.eqb Ascii.eqb Bool.eqb].
  cbv [bind_click emit on_doc with_doc with_next_id with_click_h with_resize_h
       with_tasks with_trace doc next_id URL click_h deleg_h resize_h tasks trace].
  reflexivity.
Qed.

(** X27.  For a fragment of content type [form] that lands in the
    content slot, the revision check is bound on the buttons of the
    fragment: a [.grey-btn] below a [.command_forcebuild] form of the
    fragment gets the handler of [validateForm], and the form is among
    the forms that the handler checks. *)
Theorem external_form_buttons_bound (preloader mib : list nat) (data : string) (w : world)
    (c : nat) (k : node) (f b : elem) :
  ids_of (jq_id "content1" (doc w)) = [c] ->
  In c (node_ids (remove preloader (doc w))) ->
  In k (renum_forest (next_id w) (parseHTML data)) ->
  In f (elems k) -> hasClass "command_forcebuild" f = true ->
  In b (jq_find [nid f] (by_class "grey-btn") k) ->
  exists formEl,
    In (nid f) formEl /\
    In (nid b, HValidate formEl)
       (click_h (externalContentPopup_done preloader mib (Some "form") data w)).
Proof.
  intros Hslot Hc Hk Hf Hcf Hb.
  assert (Hj : jq_string data = Some (parseHTML data)).
  { destruct (parseHTML data) as [|k0 r] eqn:HP; [destruct Hk|].
    apply parseHTML_built. exact HP. }
  rewrite (external_done_click_h preloader mib data w Hj), Hslot. cbn [append_into].
  set (D := append_to c (renum_forest (next_id w) (parseHTML data))
                      (remove preloader (doc w))).
  set (formEl := ids_of (jq_find [c] (by_class "command_forcebuild") D)).
  assert (HfIn : In (nid f) formEl).
  { unfold formEl, ids_of. apply in_map. unfold jq_find, D.
    apply (find_append_In c (hasClass "command_forcebuild")); auto.
    unfold forest_elems. apply in_flat_map. exists k. auto. }
  exists formEl. split; [exact HfIn|].
  apply in_app_iff. right.
  apply (in_map (fun i => (i, HValidate formEl))). unfold ids_of. apply in_map.
  unfold jq_find, D.
  apply (find_in_appended formEl (hasClass "grey-btn") c _ _ k b false false false);
    auto.
  unfold jq_find in Hb.
  apply (find_mono_sel [nid f] formEl (by_class "grey-btn") false false false k b); auto.
  intros x [<-|[]]. exact HfIn.
Qed.

(** *** The Update button of the branch selector (lines 148-152 and 172-174) *)

Lemma getForm_buttons_show (b : bool) (ids : list nat) (d : node) :
  ids_of (getForm_buttons b (update ids show d)) = ids_of (getForm_buttons b d).
Proof.
  unfold getForm_buttons, jq_all, jq_find, by_id.
  rewrite (find_update_ids [] (has_id "getForm") ids show true false false);
    try reflexivity.
  apply find_update_ids; reflexivity.
Qed.

Lemma elems_append_to_new (c : nat) (new : list node) (t : node) (e : elem) :
  In c (node_ids t) -> In e (forest_elems new) -> In e (elems (append_to c new t)).
Proof.
  intros Hc He.
  apply (find_In_elems [c] (fun _ _ => true) false false).
  apply (find_append_In c (fun _ => true)); auto.
Qed.

(** The handler of the Update button hides every info box and nothing
    else. *)
Lemma hide_boxes_spec (this : nat) (w : world) (prevented : bool) :
  wf_world w = true ->
  snd (run_handler HHideBoxes this (w, prevented)) = prevented /\
  trace (fst (run_handler HHideBoxes this (w, prevented))) = trace w /\
  tasks (fst (run_handler HHideBoxes this (w, prevented))) = tasks w /\
  node_ids (doc (fst (run_handler HHideBoxes this (w, prevented)))) = node_ids (doc w) /\
  (forall e', In e' (elems (doc (fst (run_handler HHideBoxes this (w, prevented))))) ->
              hasClass "more-info-box-js" e' = true -> displayed e' = false) /\
  (forall e, In e (elems (doc w)) -> hasClass "more-info-box-js" e = false ->
             In e (elems (doc (fst (run_handler HHideBoxes this (w, prevented)))))).
Proof.
  intros Hwf. apply wf_world_spec in Hwf. destruct Hwf as [Hnd _].
  cbn [run_handler fst snd on_doc with_doc doc trace tasks].
  set (ids := ids_of (jq_all (by_class "more-info-box-js") (doc w))).
  split; [reflexivity|]. split; [reflexivity|]. split; [reflexivity|].
  split; [apply node_ids_update; reflexivity|].
  assert (Hids : forall e, In e (elems (doc w)) ->
                           (mem (nid e) ids = true <-> hasClass "more-info-box-js" e = true)).
  { intros e He. rewrite mem_In. unfold ids, ids_of. rewrite jq_all_class. split.
    - intros H. apply in_map_iff in H. destruct H as [x [Ex Hx]].
      apply filter_In in Hx. destruct Hx as [Hx Hc].
      rewrite <- (NoDup_map_inj nid (elems (doc w)) x e Hnd Hx He Ex). exact Hc.
    - intros H. apply in_map. apply filter_In. auto. }
  split.
  - intros e' He' Hc. rewrite elems_update in He'. apply in_map_iff in He'.
    destruct He' as [e [E He]]. destruct (mem (nid e) ids) eqn:M.
    + subst e'. reflexivity.
    + subst e'. apply (Hids e He) in Hc. congruence.
  - intros e He Hc. rewrite elems_update.
    replace e with ((fun x => if mem (nid x) ids then hide x else x) e) at 1.
    + apply (in_map (fun x => if mem (nid x) ids then hide x else x)). exact He.
    + cbv beta. destruct (mem (nid e) ids) eqn:M; auto.
      apply (Hids e He) in M. congruence.
Qed.

(** X10.  The Update button.  When the answer of the branch selector
    is one element that holds the [#formWrapper], which holds the
    [#getForm], and the content slot is in the document, the done
    callback binds a click handler on the Update button it has put in
    front of the form.  A click on that button (with nothing else
    bound on the way up) hides every info box of the document, the open
    popups and the boxes of the static triggers alike; it changes no
    other element, calls nothing and lets the form be submitted. *)
Theorem hide_boxes_click (preloader mib : list nat) (data : string) (w : world)
    (e0 fwE gfE : elem) (gks : list node) (dv bt : elem) (c : nat) (up : list nat) :
  parseHTML data = [Node e0 [Node fwE [Node gfE gks]]] ->
  has_id "formWrapper" fwE = true -> has_id "getForm" gfE = true ->
  cnt (has_id "formWrapper")
      (gfE :: forest_elems gks ++ forest_elems (parseHTML update_button_markup)) = 0 ->
  parseHTML update_button_markup = [Node dv [Node bt []]] ->
  hasClass "blue-btn" bt = true -> attr "type" bt = Some "submit" ->
  ids_of (jq_id "content1" (doc w)) = [c] ->
  In c (node_ids (remove preloader (doc w))) ->
  let w2 := codebasesBranches_done preloader mib data w in
  let b := next_id w + 3 + forest_size gks + 1 in
  In (b, HHideBoxes) (click_h w2) /\
  (wf_world w2 = true ->
   path_to b (doc w2) = b :: up ->
   bound_on b w2 = [HHideBoxes] ->
   (forall a, In a up -> bound_on a w2 = []) ->
   (forall a, In a (b :: up) -> ~ In a (delegation_roots w2)) ->
   snd (click b w2) = false /\
   trace (fst (click b w2)) = trace w2 /\
   tasks (fst (click b w2)) = tasks w2 /\
   node_ids (doc (fst (click b w2))) = node_ids (doc w2) /\
   (forall e', In e' (elems (doc (fst (click b w2)))) ->
               hasClass "more-info-box-js" e' = true -> displayed e' = false) /\
   (forall e, In e (elems (doc w2)) -> hasClass "more-info-box-js" e = false ->
              In e (elems (doc (fst (click b w2)))))).
Proof.
  intros HP Hfw Hgf Hno HB Hcls Hty Hslot Hc w2 b.
  assert (Hj : jq_string data = Some (parseHTML data)).
  { rewrite HP. apply parseHTML_built. exact HP. }
  split.
  - unfold w2. rewrite (codebases_done_world preloader mib data (parseHTML data) w Hj).
    cbv zeta. cbn [click_h]. apply in_app_iff. right.
    apply (in_map (fun i => (i, HHideBoxes))).
    rewrite getForm_buttons_action, getForm_buttons_show.
    destruct (codebases_form_new (next_id w) (parseHTML data) e0 fwE gfE gks HP Hfw Hgf Hno)
      as [_ Hnew].
    cbv zeta in Hnew. rewrite Hnew, Hslot. cbn [append_into].
    rewrite HB. cbn [renum_forest]. rewrite !renum_unfold. cbn [renum_forest app].
    set (n := next_id w). set (N := n + 3 + forest_size gks).
    set (bt' := set_nid (S N) bt). set (dv' := set_nid N dv).
    set (form := Node (set_nid (n + 2) gfE)
                      (Node dv' [Node bt' []] :: renum_forest (n + 3) gks)).
    set (wrapper := Node (set_nid (n + 1) fwE) [form]).
    set (d := append_to c [wrapper] (remove preloader (doc w))).
    assert (Hb : b = nid bt') by (unfold b, bt', N, n; cbn [nid set_nid]; lia).
    rewrite Hb. unfold ids_of. apply in_map. unfold getForm_buttons, jq_find.
    set (ctx := ids_of (jq_all (by_id "getForm") d)).
    assert (Hctx : mem (n + 2) ctx = true).
    { apply mem_In. unfold ctx, ids_of, jq_all, by_id.
      rewrite find_inside.
      apply (in_map nid _ (set_nid (n + 2) gfE)). apply filter_In. split.
      - unfold d. apply elems_append_to_new; [exact Hc|].
        unfold forest_elems, wrapper, form. cbn [flat_map elems]. right. left. reflexivity.
      - exact Hgf. }
    unfold d.
    apply (find_in_appended ctx _ c [wrapper] _ wrapper bt' false false false);
      [exact Hc|left; reflexivity|].
    unfold wrapper, form. cbn [find flat_map nid set_nid andb orb app].
    rewrite Hctx. rewrite !orb_true_r. cbn [orb andb app flat_map].
    assert (Hq : hasClass "blue-btn" bt' &&
                 (negb true || match attr "type" bt' with
                               | Some t => String.eqb t "submit"
                               | None => false
                               end) = true).
    { unfold bt'.
      change (hasClass "blue-btn" (set_nid (S N) bt)) with (hasClass "blue-btn" bt).
      change (attr "type" (set_nid (S N) bt)) with (attr "type" bt).
      rewrite Hcls, Hty. reflexivity. }
    rewrite Hq. rewrite !in_app_iff. cbn [In]. tauto.
  - intros Hwf Hpath Hbt Hup Hdel.
    assert (Hclick : click b w2 = run_handler HHideBoxes b (w2, false)).
    { apply (click_single w2 b up HHideBoxes); auto. }
    rewrite Hclick. apply (hide_boxes_spec b w2 false Hwf).
Qed.

(** *** Answers that are no markup (lines 146 and 211) *)

(** X28.  When [$] throws on the answer of the branch selector or of
    the external-fragment flow (an answer that is neither markup nor a
    selector, such as the text of an error), the done callback ends
    after the removal of the preloader.  The frame stays in the body
    as the template rendered it: it is never centered, faded in or
    given a dismissal, no handler is bound, and no call leaves the
    module. *)
Theorem rejected_answer_leaves_frame (thisEl : list nat) (data : string) (w : world) :
  wf_world w = true ->
  jq_string data = None ->
  let preloader := renum_forest (next_id w) (parseHTML (render preloader_context)) in
  let n := next_id w + forest_size (parseHTML (render preloader_context)) in
  let mibE := renum_forest n (parseHTML (render (popupOuter_context
                (js_of_attr (jq_attr thisEl "data-popuptitle" (doc w)))))) in
  let mibC := renum_forest n (parseHTML (render (popupOuter_context
                (JStr "Select branches")))) in
  let wE := externalContentPopup thisEl w in
  let wC := codebasesBranches w in
  let wE' := complete (List.length (tasks w)) (Text data) wE in
  let wC' := complete (List.length (tasks w)) (Text data) wC in
  (doc wE' = append_body mibE (doc w) /\
   trace wE' = trace wE /\ click_h wE' = click_h wE /\ resize_h wE' = resize_h wE /\
   tasks wE' = set_nth (List.length (tasks w)) KOver (tasks wE)) /\
  (doc wC' = show_body (append_body mibC (doc w)) /\
   trace wC' = trace wC /\ click_h wC' = click_h wC /\ resize_h wC' = resize_h wC /\
   tasks wC' = set_nth (List.length (tasks w)) KOver (tasks wC)).
Proof.
  intros Hwf Hj preloader n mibE mibC wE wC wE' wC'.
  split.
  - assert (T : nth_error (tasks wE) (List.length (tasks w)) =
                Some (KExternal (roots preloader) (roots mibE)
                                (jq_attr thisEl "data-contenttype" (doc w)))).
    { unfold wE, externalContentPopup, create, request. world_tac.
      rewrite nth_error_app2 by lia. rewrite Nat.sub_diag. reflexivity. }
    assert (H1 : doc wE = append_body (preloader ++ mibE) (doc w)).
    { unfold wE, externalContentPopup, create, request. world_tac.
      fold preloader. fold n. fold mibE. destruct (doc w) as [e ks]. cbn [append_body].
      rewrite <- app_assoc. reflexivity. }
    unfold wE', complete. rewrite T. unfold externalContentPopup_done. rewrite Hj.
    cbn [doc on_doc with_doc with_tasks trace click_h resize_h tasks].
    split; [|repeat split].
    rewrite H1. apply remove_appended_mid.
    + intros i Hi Hr. apply roots_incl in Hr. eapply wf_fresh_roots; eauto.
    + intros i Hi Hr. apply roots_incl in Hr. unfold preloader, mibE, n in *.
      rewrite forest_ids_renum in *. apply in_seq in Hi. apply in_seq in Hr. lia.
  - destruct (codebasesBranches_sent w Hwf) as [_ [_ [T [Hrem _]]]].
    fold preloader in T, Hrem. fold n in T, Hrem. fold mibC in T, Hrem. fold wC in T, Hrem.
    unfold wC', complete. rewrite T. unfold codebasesBranches_done. rewrite Hj.
    cbn [doc on_doc with_doc with_tasks trace click_h resize_h tasks].
    split; [exact Hrem|repeat split].
Qed.

(** *** A click after validateForm (lines 52-86) *)

Lemma find_cnt_le (q : elem -> bool) (ctx : list nat) (p : selector) (i h : bool)
    (t : node) :
  cnt q (find ctx p i h t) <= cnt q (elems t).
Proof.
  revert i h. induction t as [e ks IH] using node_ind. intros i h.
  cbn [find elems]. rewrite cnt_app, cnt_cons.
  assert (H1 : cnt q (if i && p (h || negb (displayed e)) e then [e] else []) <=
               (if q e then 1 else 0)).
  { destruct (i && p (h || negb (displayed e)) e).
    - rewrite cnt_cons. unfold cnt. cbn [filter List.length]. lia.
    - unfold cnt. cbn [filter List.length]. lia. }
  assert (H2 : cnt q (flat_map (find ctx p (i || mem (nid e) ctx)
                                     (h || negb (displayed e))) ks) <=
               cnt q (flat_map elems ks)).
  { generalize (i || mem (nid e) ctx) (h || negb (displayed e)). intros i' h'.
    induction IH as [|k r Hk Hr IHr]; cbn [flat_map]; [lia|].
    rewrite !cnt_app. specialize (Hk i' h'). lia. }
  lia.
Qed.

(** A selection holds an element once. *)
Lemma NoDup_find (ctx : list nat) (p : selector) (i h : bool) (t : node) :
  NoDup (node_ids t) -> NoDup (ids_of (find ctx p i h t)).
Proof.
  unfold node_ids, ids_of. rewrite !NoDup_cnt. intros H j.
  pose proof (find_cnt_le (has_nid j) ctx p i h t). specialize (H j). lia.
Qed.

(** C1, as the code has it.  The handler that [validateForm] binds on
    the primary action controls reads the revision fields of all the
    force-build forms of the container together: the inputs below
    these forms that are no button, not hidden, no checkbox and no
    submit control, and whose name contains [revision].  After
    [validateForm], a click on one of the controls (with nothing else
    bound on the way up) prevents the default action when some but not
    all of these fields are empty, and leaves the event and the page as
    it found them when all of them or none of them are empty. *)
Theorem validateForm_click_partial_fill (formContainer : list nat) (w : world)
    (b : nat) (up : list nat) :
  let formEl := ids_of (jq_find formContainer (by_class "command_forcebuild") (doc w)) in
  let w1 := validateForm formContainer w in
  (forall e,
     In e (rev formEl (doc w)) <->
     In e (jq_find formEl (sel_and (by_tag "input") (sel_not excludeFields)) (doc w)) /\
     contains (name e) "revision") /\
  (wf_world w = true ->
   In b (ids_of (jq_find formEl (by_class "grey-btn") (doc w))) ->
   path_to b (doc w) = b :: up ->
   bound_on b w = [] ->
   (forall a, In a up -> bound_on a w1 = []) ->
   (forall a, In a (b :: up) -> ~ In a (delegation_roots w)) ->
   bound_on b w1 = [HValidate formEl] /\
   ((exists e, In e (rev formEl (doc w)) /\ value e = EmptyString) ->
    (exists e, In e (rev formEl (doc w)) /\ value e <> EmptyString) ->
    snd (click b w1) = true) /\
   ((forall e, In e (rev formEl (doc w)) -> value e = EmptyString) \/
    (forall e, In e (rev formEl (doc w)) -> value e <> EmptyString) ->
    click b w1 = (w1, false))).
Proof.
  intros formEl w1. split; [intros e; apply rev_spec|].
  intros Hwf Hb Hpath Hb0 Hup Hdel.
  apply wf_world_spec in Hwf. destruct Hwf as [Hnd _].
  assert (Hdoc : doc w1 = doc w) by reflexivity.
  assert (Hbound : bound_on b w1 = [HValidate formEl]).
  { rewrite (bound_on_app b w1 (click_h w)
               (map (fun i => (i, HValidate formEl))
                    (ids_of (jq_find formEl (by_class "grey-btn") (doc w)))))
      by reflexivity.
    fold (bound_on b w). rewrite Hb0. cbn [app].
    apply bound_pairs_once; [|exact Hb]. apply NoDup_find. exact Hnd. }
  assert (Hclick : click b w1 = validate_click formEl (w1, false)).
  { apply (click_single w1 b up (HValidate formEl)); auto.
    - apply (validate_click_handlers formEl (w1, false)).
    - apply (validate_click_handlers formEl (w1, false)). }
  split; [exact Hbound|]. rewrite Hclick. unfold validate_click. rewrite Hdoc. split.
  - intros H1 H2. rewrite (partial_fill_true formEl (doc w) H1 H2). reflexivity.
  - intros H. rewrite (partial_fill_false formEl (doc w) H). reflexivity.
Qed.

End Popup.

(** ** The statements on the sample pages *)

(** C1 on the force-build popup: after [validateForm] on the content
    slot, a click on the button of the form is blocked with one
    revision field empty, and left alone with both filled. *)
Lemma validateForm_click_partial_fill_witness :
  snd (click sample_render sample_parse 8
             (validateForm [2] (form_world EmptyString "4f2a" []))) = true /\
  click sample_render sample_parse 8 (validateForm [2] (form_world "12" "4f2a" [])) =
    (validateForm [2] (form_world "12" "4f2a" []), false).
Proof.
  split.
  - destruct (proj2 (validateForm_click_partial_fill sample_render sample_parse [2]
                       (form_world EmptyString "4f2a" []) 8 [3; 2; 1; 0]))
      as [_ [H _]].
    + reflexivity.
    + vm_compute. tauto.
    + reflexivity.
    + reflexivity.
    + intros a Ha. vm_compute in Ha.
      destruct Ha as [<-|[<-|[<-|[<-|[]]]]]; reflexivity.
    + intros a Ha. vm_compute. tauto.
    + apply H.
      * eexists. split; [vm_compute; left; reflexivity|reflexivity].
      * eexists. split; [vm_compute; right; left; reflexivity|vm_compute; discriminate].
  - destruct (proj2 (validateForm_click_partial_fill sample_render sample_parse [2]
                       (form_world "12" "4f2a" []) 8 [3; 2; 1; 0]))
      as [_ [_ H]].
    + reflexivity.
    + vm_compute. tauto.
    + reflexivity.
    + reflexivity.
    + intros a Ha. vm_compute in Ha.
      destruct Ha as [<-|[<-|[<-|[<-|[]]]]]; reflexivity.
    + intros a Ha. vm_compute. tauto.
    + apply H. right. intros e He. vm_compute in He.
      destruct He as [<-|[<-|[]]]; vm_compute; discriminate.
Defined.

(** C1 fails on a container with two force-build forms.  The form of
    the clicked button has one revision field, which is empty, so all
    of its revision fields are empty; the click is prevented all the
    same, because the handler counts the filled revision field of the
    other form as well. *)
Lemma validate_click_pools_forms :
  ids_of (jq_find [2] (by_class "grey-btn") (doc two_forms_world)) = [5] /\
  ids_of (rev [2] (doc two_forms_world)) = [4] /\
  (forall e, In e (rev [2] (doc two_forms_world)) -> value e = EmptyString) /\
  snd (click sample_render sample_parse 5 (validateForm [1] two_forms_world)) = true.
Proof.
  split; [reflexivity|]. split; [reflexivity|]. split; [|reflexivity].
  intros e He. vm_compute in He. destruct He as [<-|[]]. reflexivity.
Qed.

(** C2 fails on a page whose body is hidden: the flow shows the body. *)
Lemma pendingJobs_shows_hidden_body :
  doc (run sample_render sample_parse [Complete 0 Failed]
           (pendingJobs sample_render sample_parse "http://build.example:8010/json/buildqueue?builder=b1"
                        hidden_world)) <>
  append_body (renum_forest (next_id hidden_world)
                            (parseHTML sample_parse (sample_render preloader_context)))
              (doc hidden_world).
Proof. vm_compute. discriminate. Qed.

Lemma pendingJobs_request_fails_witness :
  displayed (root (doc sample_world)) = true /\
  doc (run sample_render sample_parse (map (fun i => Complete i Failed) [0; 0])
           (pendingJobs sample_render sample_parse "http://build.example:8010/json/buildqueue?builder=b1"
                        sample_world)) =
  append_body (renum_forest (next_id sample_world)
                            (parseHTML sample_parse (sample_render preloader_context)))
              (doc sample_world) /\
  tasks_below sample_world = true /\
  attached [8]
    (doc (run sample_render sample_parse
              [Click 2; Resize; Complete 0 Failed; Click 6; Complete 3 (Text "<form>")]
              (pendingJobs sample_render sample_parse
                 "http://build.example:8010/json/buildqueue?builder=b1" sample_world))).
Proof.
  pose proof (pendingJobs_request_fails sample_render sample_parse
                "http://build.example:8010/json/buildqueue?builder=b1" sample_world [0; 0])
    as [_ [_ [H1 [_ H2]]]].
  split; [reflexivity|]. split; [exact (H1 eq_refl)|]. split; [reflexivity|].
  exact (H2 eq_refl [Click 2; Resize; Complete 0 Failed; Click 6; Complete 3 (Text "<form>")]
            eq_refl).
Defined.

(** C3 fails on a second attempt without error.  The first click finds
    the first revision field empty and marks it; the user fills the
    field in; the second click has nothing to report, changes nothing,
    and the mark stays on a field that is not empty. *)
Lemma stale_mark_survives :
  let opened := validateForm [2] (form_world EmptyString "4f2a" []) in
  let second := run sample_render sample_parse [Click 8; Input 4 "12"] opened in
  snd (click sample_render sample_parse 8 second) = false /\
  ~ (forall e,
       In e (rev [3] (doc (fst (click sample_render sample_parse 8 second)))) ->
       (hasClass "not-valid" e = true <->
        value e = EmptyString /\ partial_fill [3] (doc second) = true)).
Proof.
  split; [reflexivity|]. intros H.
  assert (X : value (mkElem 4 "input" [("type", "text"); ("name", "fmod_revision")]
                            ["not-valid"] "text" "fmod_revision" "12" true) = EmptyString).
  { apply H; [vm_compute; left; reflexivity|reflexivity]. }
  discriminate X.
Qed.

Lemma validate_click_marks_witness :
  wf_world (form_world EmptyString "4f2a" []) = true /\
  partial_fill [3] (doc (form_world EmptyString "4f2a" [])) = true /\
  (forall e',
     In e' (elems (doc (fst (validate_click sample_render sample_parse [3]
                               (form_world EmptyString "4f2a" [], false))))) ->
     In (nid e') (ids_of (rev [3] (doc (form_world EmptyString "4f2a" [])))) ->
     (hasClass "not-valid" e' = true <-> val e' = EmptyString)) /\
  validate_click sample_render sample_parse [3]
    (form_world "12" "4f2a" ["not-valid"], false) =
    (form_world "12" "4f2a" ["not-valid"], false).
Proof.
  split; [reflexivity|]. split; [reflexivity|]. split.
  - apply (validate_click_marks sample_render sample_parse [3]
             (form_world EmptyString "4f2a" []) false); reflexivity.
  - apply (validate_click_marks sample_render sample_parse [3]
             (form_world "12" "4f2a" ["not-valid"]) false); reflexivity.
Defined.

(** C4 fails on its reading of the context: the JSON is stored under
    the key [pendingJobs], so the context has no field [jobs]. *)
Lemma pendingJobs_context_not_merged :
  ~ same_object
      (pendingJobs_context (JObj [("jobs", JArr [JStr "job1"])])
                           (actionUrl_of (URL sample_world)))
      (JObj [("jobs", JArr [JStr "job1"]);
             ("actionUrl", JStr (actionUrl_of (URL sample_world)))]).
Proof.
  intros H. specialize (H "jobs"). vm_compute in H. discriminate H.
Qed.

Lemma pendingJobs_endpoint_and_context_witness :
  wf_world sample_world = true /\ wf_address sample_address = true /\
  URL sample_world = serialize sample_address /\
  jq_attr [5] "data-builderName" (doc sample_world) = Some "b1" /\
  run_handler sample_render sample_parse HPending 5 (sample_world, false) =
    (pendingJobs sample_render sample_parse
       "http://build.example:8010/json/buildqueue?builder=b1" sample_world, true).
Proof.
  repeat (split; [reflexivity|]).
  apply (pendingJobs_endpoint_and_context sample_render sample_parse 5 "b1"
           sample_address (JObj [("jobs", JArr [JStr "job1"])]) sample_world);
    reflexivity.
Defined.


Lemma banner_inserted_once_witness :
  partial_fill [3] (doc (form_world EmptyString "4f2a" [])) = true /\
  partial_fill [3] (doc (fst (validate_click sample_render sample_parse [3]
                                (form_world EmptyString "4f2a" [], false)))) = true /\
  banners [3] (doc (fst (validate_click sample_render sample_parse [3]
                           (fst (validate_click sample_render sample_parse [3]
                                   (form_world EmptyString "4f2a" [], false)), false)))) = 1.
Proof.
  split; [reflexivity|]. split; [reflexivity|].
  apply (banner_inserted_once sample_render sample_parse 3
           (form_world EmptyString "4f2a" []) false false);
    [reflexivity|reflexivity|reflexivity|vm_compute; lia].
Defined.

Lemma nonAjaxPopup_clones_witness :
  wf_world sample_world = true /\
  next [2] (doc sample_world) =
    [Node (el 3 "div" [] ["more-info-box-js"] false) [Node (el 4 "span" [] [] true) []]] /\
  next [2] (doc (Nat.iter 3 (nonAjaxPopup [2]) sample_world)) =
    [Node (el 3 "div" [] ["more-info-box-js"] false) [Node (el 4 "span" [] [] true) []]] /\
  NoDup (node_ids (doc (Nat.iter 3 (nonAjaxPopup [2]) sample_world))) /\
  trace (Nat.iter 2 (nonAjaxPopup [2]) sample_world) =
    [EJCenter [8]; EFadeIn [8]; EJCenter [10]; EFadeIn [10]] /\
  tasks (Nat.iter 2 (nonAjaxPopup [2]) sample_world) =
    [KClosePopup [8]; KClosePopup [10]] /\
  trace (Nat.iter 2 (nonAjaxPopup [2]) (with_doc tabs_page (with_next_id 9 sample_world))) =
    [EJCenter [9]; EFadeIn [9]; EClosePopup [9];
     EJCenter [10]; EFadeIn [10]; EClosePopup [10]].
Proof.
  split; [reflexivity|]. split; [reflexivity|].
  destruct (nonAjaxPopup_clones 2
              (Node (el 3 "div" [] ["more-info-box-js"] false)
                    [Node (el 4 "span" [] [] true) []])
              sample_world 3 eq_refl eq_refl) as [H1 [_ [H2 _]]].
  split; [exact H1|]. split; [exact H2|].
  destruct (nonAjaxPopup_clones 2
              (Node (el 3 "div" [] ["more-info-box-js"] false)
                    [Node (el 4 "span" [] [] true) []])
              sample_world 2 eq_refl eq_refl) as [_ [_ [_ [H3 [_ H4]]]]].
  split; [exact H3|]. split; [exact H4|].
  destruct (nonAjaxPopup_clones 2 (Node (el 3 "li" [] [] true) [])
              (with_doc tabs_page (with_next_id 9 sample_world)) 2 eq_refl eq_refl)
    as [_ [_ [_ [H5 _]]]].
  exact H5.
Defined.

Lemma external_fragment_form_only_witness :
  (exists suffix,
     trace (complete sample_render sample_parse 0 (Text "<form>")
              (externalContentPopup sample_render sample_parse [6] sample_world)) =
     trace (externalContentPopup sample_render sample_parse [6] sample_world) ++ suffix /\
     suffix = [ESetFullName [13]; EValidateForm [11];
               EJCenter [9]; EFadeIn [9]; EClosePopup [9]]) /\
  trace (complete sample_render sample_parse 0 (Text "Not authorized!")
           (externalContentPopup sample_render sample_parse [6] sample_world)) =
  trace (externalContentPopup sample_render sample_parse [6] sample_world).
Proof.
  split.
  - destruct (proj2 (external_fragment_form_only sample_render sample_parse
                       [6] [8] [9] (Some "form") "<form>" 0 sample_world
                       (externalContentPopup sample_render sample_parse [6] sample_world))
                    eq_refl) as [_ H].
    destruct (H _ eq_refl) as [suffix [Ht [_ [_ [Hf _]]]]].
    exists suffix. split; [exact Ht|]. rewrite (Hf eq_refl). reflexivity.
  - destruct (proj2 (external_fragment_form_only sample_render sample_parse
                       [6] [8] [9] (Some "form") "Not authorized!" 0 sample_world
                       (externalContentPopup sample_render sample_parse [6] sample_world))
                    eq_refl) as [H _].
    exact (proj1 (H eq_refl)).
Defined.

Lemma validateForm_registers_only_witness :
  click_h (Nat.iter 3 (validateForm [2]) (form_world EmptyString "4f2a" [])) =
    repeat (8, HValidate [3]) 3 /\
  click sample_render sample_parse 8
        (Nat.iter 3 (validateForm [2]) (form_world EmptyString "4f2a" [])) =
    Nat.iter 3 (validate_click sample_render sample_parse [3])
             (Nat.iter 3 (validateForm [2]) (form_world EmptyString "4f2a" []), false) /\
  banners [3] (doc (fst (click sample_render sample_parse 8
                           (Nat.iter 3 (validateForm [2])
                                     (form_world EmptyString "4f2a" []))))) <= 1.
Proof.
  apply (proj2 (validateForm_registers_only sample_render sample_parse [2]
                  (form_world EmptyString "4f2a" []) 3 3 8));
    try reflexivity. vm_compute. lia.
Defined.

Lemma frame_attached_before_request_witness :
  tasks_below sample_world = true /\
  attached [8; 9]
    (doc (run sample_render sample_parse [Complete 0 Failed; Click 2; Resize]
              (externalContentPopup sample_render sample_parse [6] sample_world))) /\
  attached [8; 9]
    (doc (run sample_render sample_parse [Click 2; Resize]
              (codebasesBranches sample_render sample_parse sample_world))).
Proof.
  pose proof (frame_attached_before_request sample_render sample_parse [6] sample_world [0])
    as [_ [_ [H1 [_ [_ H2]]]]].
  split; [reflexivity|]. split.
  - exact (H1 eq_refl [Complete 0 Failed; Click 2; Resize] eq_refl).
  - exact (H2 eq_refl [Click 2; Resize] eq_refl).
Defined.
(** ** The further properties on the sample pages *)

Lemma static_popup_resize_handlers_witness :
  resize_h (Nat.iter 2 (nonAjaxPopup [2]) sample_world) = [RCenter [8]; RCenter [10]] /\
  trace (resize (Nat.iter 2 (nonAjaxPopup [2]) sample_world)) =
    trace (Nat.iter 2 (nonAjaxPopup [2]) sample_world) ++ [EJCenter [8]; EJCenter [10]].
Proof.
  destruct (static_popup_resize_handlers 2
              (Node (el 3 "div" [] ["more-info-box-js"] false)
                    [Node (el 4 "span" [] [] true) []])
              sample_world 2 eq_refl eq_refl) as [H1 H2].
  split; [exact H1|exact (H2 eq_refl)].
Defined.

Lemma nonAjaxPopup_nothing_follows_witness :
  nonAjaxPopup [5] sample_world =
    bind_resize (RCenter []) (emit (EFadeIn []) (emit (EJCenter []) sample_world)).
Proof.
  apply (nonAjaxPopup_nothing_follows [5] sample_world). reflexivity.
Defined.

Lemma validate_click_needs_two_fields_witness :
  validate_click sample_render sample_parse [2] (two_forms_world, false) =
    (two_forms_world, false).
Proof.
  apply (validate_click_needs_two_fields sample_render sample_parse [2] two_forms_world
           false).
  vm_compute. lia.
Defined.

Lemma validate_click_keeps_fields_witness :
  exists e',
    In e' (elems (doc (fst (validate_click sample_render sample_parse [2; 6]
                              (two_forms_world, false))))) /\
    nid e' = 4 /\ tag e' = "input" /\
    attrs e' = [("type", "text"); ("name", "fmod_revision")] /\
    itype e' = "text" /\ name e' = "fmod_revision" /\ value e' = EmptyString.
Proof.
  apply (validate_click_keeps_fields sample_render sample_parse [2; 6] two_forms_world
           false (input 4 "text" "fmod_revision" EmptyString [])).
  vm_compute. tauto.
Defined.

Lemma validate_click_hides_messages_witness :
  partial_fill [2; 6] (doc two_forms_world) = true /\
  In (el 3 "p" [] ["form-message"] false)
     (elems (doc (fst (validate_click sample_render sample_parse [2; 6]
                         (two_forms_world, false))))) /\
  displayed (el 3 "p" [] ["form-message"] false) = false.
Proof.
  split; [reflexivity|].
  assert (H : In (el 3 "p" [] ["form-message"] false)
                 (elems (doc (fst (validate_click sample_render sample_parse [2; 6]
                                     (two_forms_world, false)))))).
  { vm_compute. tauto. }
  split; [exact H|].
  apply (proj1 (validate_click_hides_messages sample_render sample_parse [2; 6]
                  two_forms_world false eq_refl eq_refl _ H)).
  vm_compute. tauto.
Defined.

Lemma pending_endpoint_without_builder_witness :
  run_handler sample_render sample_parse HPending 2 (sample_world, false) =
    (pendingJobs sample_render sample_parse
       "http://build.example:8010/json/buildqueue?builder=undefined" sample_world, true).
Proof.
  exact (pending_endpoint_without_builder sample_render sample_parse 2 sample_address
           sample_world false eq_refl eq_refl eq_refl).
Defined.

Lemma actionUrl_fixed_point_witness :
  actionUrl_of (actionUrl_of (serialize sample_address)) =
    actionUrl_of (serialize sample_address) /\
  serialize sample_address =
    actionUrl_of (serialize sample_address) +++ "?name=b1" +++ "#top".
Proof.
  destruct (actionUrl_fixed_point sample_address eq_refl eq_refl) as [H1 H2].
  split; [exact H1|exact (H2 eq_refl)].
Defined.

Lemma hide_boxes_click_witness :
  let w2 := codebasesBranches_done branches_parse [8] [9] "<branches>"
              (codebasesBranches sample_render branches_parse sample_world) in
  In (17, HHideBoxes) (click_h w2) /\
  snd (click sample_render branches_parse 17 w2) = false /\
  forall e',
    In e' (elems (doc (fst (click sample_render branches_parse 17 w2)))) ->
    hasClass "more-info-box-js" e' = true -> displayed e' = false.
Proof.
  intros w2.
  assert (Hc : In 11 (node_ids (remove [8] (doc (codebasesBranches sample_render
                                                   branches_parse sample_world))))).
  { vm_compute. tauto. }
  destruct (hide_boxes_click sample_render branches_parse [8] [9] "<branches>"
              (codebasesBranches sample_render branches_parse sample_world)
              (el 0 "div" [] [] true)
              (el 0 "div" [("id", "formWrapper")] [] true)
              (el 0 "form" [("id", "getForm")] [] true)
              [Node (el 0 "select" [] ["select-tools-js"] true) []]
              (el 0 "div" [] ["filter-table-input"] true)
              (mkElem 0 "input" [("value", "Update"); ("class", "blue-btn var-2");
                                 ("type", "submit")]
                      ["blue-btn"; "var-2"] "submit" EmptyString "Update" true)
              11 [16; 14; 13; 11; 9; 0]
              eq_refl eq_refl eq_refl eq_refl eq_refl eq_refl eq_refl eq_refl Hc)
    as [H1 H2].
  split; [exact H1|].
  destruct H2 as [H3 [_ [_ [_ [H4 _]]]]].
  - reflexivity.
  - reflexivity.
  - reflexivity.
  - intros a Ha. vm_compute in Ha.
    destruct Ha as [<-|[<-|[<-|[<-|[<-|[<-|[]]]]]]]; reflexivity.
  - intros a Ha. vm_compute. tauto.
  - split; [exact H3|exact H4].
Defined.

Lemma external_without_slot_witness :
  doc (externalContentPopup_done sample_parse [] [] (Some "form") "<form>" sample_world) =
    update [] show (remove [] (doc sample_world)) /\
  click_h (externalContentPopup_done sample_parse [] [] (Some "form") "<form>"
             sample_world) = click_h sample_world.
Proof.
  destruct (external_without_slot sample_parse [] [] (Some "form") "<form>" _ sample_world
              eq_refl)
    as [H1 [H2 _]].
  - intros e He. vm_compute in He.
    repeat (destruct He as [<-|He]; [reflexivity|]). destruct He.
  - split; [exact H1|exact H2].
Defined.

Lemma external_success_document_witness :
  ~ In 8 (node_ids (doc (complete sample_render sample_parse 0 (Text "<form>")
                           (externalContentPopup sample_render sample_parse [6]
                                                 sample_world)))).
Proof.
  pose proof (external_success_document sample_render sample_parse [6] "<form>" _
                sample_world eq_refl eq_refl) as H.
  cbv zeta in H. destruct H as [_ [_ H3]]. apply H3. vm_compute. auto.
Defined.

Lemma codebases_without_wrapper_witness :
  doc (codebasesBranches_done branches_parse [8] [9] "<wrapper>"
         (codebasesBranches sample_render branches_parse sample_world)) =
    update (ids_of (jq_id "getForm"
              (update [9] show
                 (remove [8] (doc (codebasesBranches sample_render branches_parse
                                                     sample_world))))))
           (set_attr "action" (URL sample_world))
           (update [9] show
              (remove [8] (doc (codebasesBranches sample_render branches_parse
                                                  sample_world)))) /\
  jq_find [11] (fun _ _ => true)
          (doc (codebasesBranches_done branches_parse [8] [9] "<wrapper>"
                  (codebasesBranches sample_render branches_parse sample_world))) = [] /\
  next_id (codebasesBranches_done branches_parse [8] [9] "<wrapper>"
             (codebasesBranches sample_render branches_parse sample_world)) = 14.
Proof.
  destruct (codebases_without_wrapper branches_parse [8] [9] "<wrapper>" _
              (codebasesBranches sample_render branches_parse sample_world)
              eq_refl eq_refl) as [H Hn].
  split; [exact H|]. split; [rewrite H; reflexivity|exact Hn].
Defined.

Lemma codebases_form_action_witness :
  exists e,
    In e (jq_id "getForm"
            (doc (codebasesBranches_done branches_parse [8] [9] "<branches>"
                    (codebasesBranches sample_render branches_parse sample_world)))) /\
    attr "action" e = Some "http://build.example:8010/builders?name=b1#top".
Proof.
  eexists. split.
  - vm_compute. left. reflexivity.
  - apply (codebases_form_action branches_parse [8] [9] "<branches>" _
             (codebasesBranches sample_render branches_parse sample_world) _ eq_refl).
    vm_compute. left. reflexivity.
Defined.

Lemma codebases_done_calls_witness :
  trace (complete sample_render branches_parse 0 (Text "<branches>")
           (codebasesBranches sample_render branches_parse sample_world)) =
    trace (codebasesBranches sample_render branches_parse sample_world) ++
    [EJCenter [9]; EFadeIn [9]; ERequire "selectors"; EClosePopup [9]] /\
  trace (complete sample_render shown_frame_parse 0 (Text "<branches>")
           (codebasesBranches sample_render shown_frame_parse sample_world)) =
    trace (codebasesBranches sample_render shown_frame_parse sample_world) ++
    [EJCenter [9]; EFadeIn [9]; EFocus [17]; ERequire "selectors"; EClosePopup [9]].
Proof.
  split.
  - destruct (codebases_done_calls sample_render branches_parse "<branches>" _ sample_world
                eq_refl eq_refl) as [_ [_ [H _]]].
    apply H. intros k Hk. vm_compute in Hk. destruct Hk as [<-|[]]. reflexivity.
  - destruct (codebases_done_calls sample_render shown_frame_parse "<branches>" _
                sample_world eq_refl eq_refl) as [_ [_ [_ [H _]]]].
    destruct H as [H _].
    + intros k Hk. vm_compute in Hk. destruct Hk as [<-|[]]. reflexivity.
    + exact H.
Defined.

Lemma click_after_init_unbound_witness :
  click sample_render sample_parse 12 later_world = (later_world, false).
Proof.
  apply (click_after_init_unbound sample_render sample_parse sample_world later_world 12);
    try reflexivity.
  intros c e Hc He En. vm_compute in Hc.
  destruct Hc as [<-|[<-|[]]]; vm_compute in He;
    repeat (destruct He as [<-|He];
            [first [discriminate En | repeat split; reflexivity]|]);
    destruct He.
Defined.

Lemma delegated_pending_click_witness :
  click sample_render sample_parse 9 later_world =
    (pendingJobs sample_render sample_parse
       "http://build.example:8010/json/buildqueue?builder=b2" later_world, true).
Proof.
  apply (delegated_pending_click sample_render sample_parse sample_world later_world
           (el 1 "table" [("id", "tablesorterRt")] [] true) 9 [8] [0]);
    try reflexivity.
  - apply distinct_NoDup. reflexivity.
  - intros c Hc. vm_compute in Hc.
    destruct Hc as [<-|[<-|[<-|[<-|[]]]]]; reflexivity.
  - intros c [<-|[]]. split; reflexivity.
Defined.

Lemma static_trigger_in_table_opens_twice_witness :
  click sample_render sample_parse 2 (init sample_world) =
    (nonAjaxPopup [2] (nonAjaxPopup [2] (init sample_world)), true) /\
  List.length (kids (doc (fst (click sample_render sample_parse 2 (init sample_world))))) =
    List.length (kids (doc sample_world)) + 2.
Proof.
  destruct (static_trigger_in_table_opens_twice sample_render sample_parse sample_world
              (init sample_world) (el 1 "table" [("id", "tablesorterRt")] [] true)
              2 [] [0]
              (Node (el 3 "div" [] ["more-info-box-js"] false)
                    [Node (el 4 "span" [] [] true) []])) as [H1 H2];
    try reflexivity.
  - intros c Hc. vm_compute in Hc. destruct Hc as [<-|[<-|[]]]; reflexivity.
  - intros c [].
  - split; [exact H1|]. rewrite H2. reflexivity.
Defined.

Lemma init_direct_triggers_witness :
  click sample_render sample_parse 6 (init sample_world) =
    (externalContentPopup sample_render sample_parse [6] (init sample_world), true).
Proof.
  apply (proj1 (init_direct_triggers sample_render sample_parse sample_world 6
                  (el 6 "a" [("data-popuptitle", "Force build"); ("data-b", "runtests");
                             ("data-indexb", "0"); ("data-rt_update", "extforms");
                             ("data-contenttype", "form")] ["ajaxbtn"] true)
                  [0] eq_refl eq_refl eq_refl
                  ltac:(vm_compute; tauto) eq_refl eq_refl eq_refl
                  ltac:(vm_compute; intros [H|[]]; discriminate H)
                  ltac:(intros c e' [<-|[]] He En; vm_compute in He;
                        repeat (destruct He as [<-|He];
                                [first [discriminate En | repeat split; reflexivity]|]);
                        destruct He))).
  - reflexivity.
  - vm_compute. intros [].
Defined.

Lemma customTabs_click_selects_witness :
  In (el 2 "li" [] ["first"] true) (elems (customTabs_click 3 tabs_page)) /\
  hasClass "selected" (el 2 "li" [] ["first"] true) = false /\
  In (el 3 "li" [] ["selected"] true) (elems (customTabs_click 3 tabs_page)) /\
  hasClass "selected" (el 3 "li" [] ["selected"] true) = true.
Proof.
  assert (H2 : In (el 2 "li" [] ["first"] true) (elems (customTabs_click 3 tabs_page))).
  { vm_compute. tauto. }
  assert (H3 : In (el 3 "li" [] ["selected"] true) (elems (customTabs_click 3 tabs_page))).
  { vm_compute. tauto. }
  assert (Hb : In 3 (customTabs tabs_page)) by (vm_compute; tauto).
  split; [exact H2|]. split; [|split; [exact H3|]].
  - apply (proj1 (proj2 (customTabs_click_selects 3 tabs_page _ Hb H2))).
    + discriminate.
    + vm_compute. tauto.
  - apply (proj1 (customTabs_click_selects 3 tabs_page _ Hb H3)). reflexivity.
Defined.

Lemma customTabs_click_blocks_witness :
  In (el 7 "div" [] [] true) (elems (customTabs_click 3 tabs_page)) /\
  (displayed (el 7 "div" [] [] true) = true <->
   jq_index 7 tabs_page = jq_index 3 tabs_page).
Proof.
  assert (H : In (el 7 "div" [] [] true) (elems (customTabs_click 3 tabs_page))).
  { vm_compute. tauto. }
  split; [exact H|].
  assert (Hb : In 3 (customTabs tabs_page)) by (vm_compute; tauto).
  apply (proj1 (customTabs_click_blocks 3 tabs_page _ Hb H)). vm_compute. tauto.
Defined.

Lemma customTabs_click_last_wins_witness :
  customTabs_click 3 (customTabs_click 2 tabs_page) = customTabs_click 3 tabs_page.
Proof.
  apply (customTabs_click_last_wins 2 3 tabs_page).
  - vm_compute. tauto.
  - vm_compute. tauto.
  - reflexivity.
Defined.

Lemma validate_click_forms_together_witness :
  snd (validate_click sample_render sample_parse [2; 6] (two_forms_world, false)) = true.
Proof.
  apply (validate_click_forms_together sample_render sample_parse [2; 6] 2 6
           two_forms_world false
           (input 4 "text" "fmod_revision" EmptyString [])
           (input 7 "text" "katana_revision" "4f2a" [])).
  - left. reflexivity.
  - right. left. reflexivity.
  - vm_compute. tauto.
  - reflexivity.
  - vm_compute. tauto.
  - discriminate.
Defined.

Lemma delegated_static_click_witness :
  click sample_render sample_parse 10 later_world = (nonAjaxPopup [10] later_world, true).
Proof.
  apply (delegated_static_click sample_render sample_parse sample_world later_world
           (el 1 "table" [("id", "tablesorterRt")] [] true) 10 [8] [0]);
    try reflexivity.
  - apply distinct_NoDup. reflexivity.
  - intros c Hc. vm_compute in Hc.
    destruct Hc as [<-|[<-|[<-|[<-|[]]]]]; reflexivity.
  - intros c [<-|[]]. split; reflexivity.
Defined.

Lemma codebases_success_document_witness :
  ~ In 8 (node_ids (doc (complete sample_render branches_parse 0 (Text "<branches>")
                           (codebasesBranches sample_render branches_parse
                                              sample_world)))) /\
  attached [9] (doc (complete sample_render branches_parse 0 (Text "<branches>")
                       (codebasesBranches sample_render branches_parse sample_world))).
Proof.
  pose proof (codebases_success_document sample_render branches_parse "<branches>" _
                sample_world eq_refl eq_refl) as H.
  cbv zeta in H. destruct H as [_ [H2 [H3 _]]]. split.
  - apply H2. vm_compute. auto.
  - exact H3.
Defined.

Lemma static_popup_close_after_fade_witness :
  trace (complete sample_render sample_parse 0 Finished (nonAjaxPopup [2] sample_world)) =
    [EJCenter [8]; EFadeIn [8]; EClosePopup [8]] /\
  trace (nonAjaxPopup [2] (with_doc tabs_page (with_next_id 9 sample_world))) =
    [EJCenter [9]; EFadeIn [9]; EClosePopup [9]].
Proof.
  split.
  - destruct (static_popup_close_after_fade sample_render sample_parse 2
                (Node (el 3 "div" [] ["more-info-box-js"] false)
                      [Node (el 4 "span" [] [] true) []])
                sample_world eq_refl eq_refl) as [H _].
    exact (proj1 (proj2 (proj2 (H eq_refl)))).
  - destruct (static_popup_close_after_fade sample_render sample_parse 2
                (Node (el 3 "li" [] [] true) [])
                (with_doc tabs_page (with_next_id 9 sample_world)) eq_refl eq_refl)
      as [_ H].
    exact (proj1 (H eq_refl)).
Defined.

Lemma codebases_form_inserted_witness :
  exists d,
    doc (codebasesBranches_done branches_parse [8] [9] "<branches>"
           (codebasesBranches sample_render branches_parse sample_world)) = d /\
    ids_of (jq_find [11] (fun _ _ => true) d) = [13; 14; 16; 17; 15] /\
    jq_attr [14] "action" d = Some "http://build.example:8010/builders?name=b1#top".
Proof.
  eexists. split.
  - apply (codebases_form_inserted branches_parse [8] [9] "<branches>"
             (codebasesBranches sample_render branches_parse sample_world)
             (el 0 "div" [] [] true) (el 0 "div" [("id", "formWrapper")] [] true)
             (el 0 "form" [("id", "getForm")] [] true)
             [Node (el 0 "select" [] ["select-tools-js"] true) []]);
      reflexivity.
  - vm_compute. split; reflexivity.
Defined.

Lemma external_form_buttons_bound_witness :
  exists formEl,
    In 14 formEl /\
    In (19, HValidate formEl)
       (click_h (externalContentPopup_done sample_parse [8] [9] (Some "form") "<form>"
                   (externalContentPopup sample_render sample_parse [6] sample_world))).
Proof.
  apply (external_form_buttons_bound sample_parse [8] [9] "<form>"
           (externalContentPopup sample_render sample_parse [6] sample_world) 11
           (Node (el 12 "div" [] [] true)
                 [Node (el 13 "span" [("id", "usernameDisabled")] [] true) [];
                  renum 14 (sample_form EmptyString "4f2a" [])])
           (el 14 "form" [] ["command_forcebuild"] true)
           (input 19 "submit" "submit" "Force Build" ["grey-btn"])).
  - reflexivity.
  - vm_compute. auto 20.
  - vm_compute. auto.
  - vm_compute. auto 20.
  - reflexivity.
  - vm_compute. auto.
Defined.

Lemma rejected_answer_leaves_frame_witness :
  trace (complete sample_render sample_parse 0 (Text "Not authorized!")
           (externalContentPopup sample_render sample_parse [6] sample_world)) =
    trace (externalContentPopup sample_render sample_parse [6] sample_world) /\
  In (el 9 "div" [] ["more-info-box"; "more-info-box-js"] false)
     (elems (doc (complete sample_render sample_parse 0 (Text "Not authorized!")
                    (externalContentPopup sample_render sample_parse [6] sample_world)))) /\
  ~ In 8 (node_ids (doc (complete sample_render sample_parse 0 (Text "Not authorized!")
                           (codebasesBranches sample_render sample_parse sample_world)))).
Proof.
  destruct (rejected_answer_leaves_frame sample_render sample_parse [6] "Not authorized!"
              sample_world eq_refl eq_refl) as [[H1 [H2 _]] [H3 _]].
  split; [exact H2|]. split.
  - refine (eq_ind_r (fun d => In _ (elems d)) _ H1). vm_compute. tauto.
  - refine (eq_ind_r (fun d => ~ In 8 (node_ids d)) _ H3). vm_compute. intros H.
    repeat (destruct H as [H|H]; [discriminate H|]). exact H.
Defined.
